(** * NeoCard backend: scan admission pipeline

    A shallow embedding of the scan-ingestion core of the NeoCard demo
    backend (utils, middleware, database and the POST /v1/scan route) and
    the properties of its specification.

    Conventions.
    - A JavaScript string is a [string]: the sequence of its UTF-8 bytes,
      which is what the HMAC, the hex codec and SQLite's BINARY collation
      see.  For the ASCII texts of this program (identifiers, ISO
      timestamps, hex digests) bytes and characters coincide.
    - Instants are [Z] milliseconds since the epoch, as in [Date].
    - The SQLite store is a list of rows in insertion order together with
      a script of pending storage faults. *)

From Stdlib Require Import ZArith List Bool Ascii String DecimalString.
From Stdlib Require Import Lia Arith Permutation Sorted.
Import ListNotations.

Local Open Scope string_scope.

(** ** Character and string helpers *)

Definition code (c : ascii) : nat := nat_of_ascii c.

(** A regular-expression range [lo-hi], compared on code units. *)
Definition in_range (lo hi c : ascii) : bool :=
  (code lo <=? code c)%nat && (code c <=? code hi)%nat.

Definition chars (s : string) : list ascii := list_ascii_of_string s.

Module Utils.

(** *** [isValidUID]: the expression [/^[A-Za-z0-9]{8,16}$/] *)

(** The class [[A-Za-z0-9]]. *)
Definition uid_class (c : ascii) : bool :=
  in_range "A" "Z" c || in_range "a" "z" c || in_range "0" "9" c.

(** [^cls{lo,hi}$] run on [s]: between [lo] and [hi] characters of the
    class, then the end of the input.  Without the [m] flag the anchors
    match only at the two ends of the subject. *)
Fixpoint match_anchored_rep (cls : ascii -> bool) (lo hi : nat) (s : string) {struct s}
  : bool :=
  match s with
  | EmptyString => (lo =? 0)%nat
  | String c rest =>
      match hi with
      | O => false
      | S hi' => cls c && match_anchored_rep cls (Nat.pred lo) hi' rest
      end
  end.

Definition isValidUID (uid : string) : bool :=
  match_anchored_rep uid_class 8 16 uid.

End Utils.

(** ** The validator as the specification words it *)

Definition is_ascii_letter (c : ascii) : bool :=
  ((65 <=? code c) && (code c <=? 90) || (97 <=? code c) && (code c <=? 122))%nat.

Definition is_ascii_digit (c : ascii) : bool :=
  ((48 <=? code c) && (code c <=? 57))%nat.

Definition is_ascii_alnum (c : ascii) : bool := is_ascii_letter c || is_ascii_digit c.

Definition spec_valid_identifier (s : string) : Prop :=
  (8 <= String.length s <= 16)%nat /\ Forall (fun c => is_ascii_alnum c = true) (chars s).


(** ** Node's [crypto] and [Buffer], as far as the checksum code uses them *)

Module Crypto.

Local Open Scope Z_scope.
Local Open Scope list_scope.

(** A byte is a [Z] in [0, 256); a [Buffer] is a list of bytes. *)
Definition buffer := list Z.

(** The bytes a string contributes to a hash or a key. *)
Definition bytes_of_string (s : string) : buffer :=
  map (fun c => Z.of_nat (code c)) (chars s).

(** *** SHA-256 (FIPS 180-4) on 32-bit words *)

Definition wrap32 (x : Z) : Z := x mod 4294967296.

Definition add32 (x y : Z) : Z := wrap32 (x + y).

Definition rotr (n x : Z) : Z :=
  Z.lor (Z.shiftr x n) (wrap32 (Z.shiftl x (32 - n))).

Definition not32 (x : Z) : Z := Z.lxor x 4294967295.

Definition ch (x y z : Z) : Z := Z.lxor (Z.land x y) (Z.land (not32 x) z).

Definition maj (x y z : Z) : Z :=
  Z.lxor (Z.lxor (Z.land x y) (Z.land x z)) (Z.land y z).

Definition big_sigma0 (x : Z) : Z := Z.lxor (Z.lxor (rotr 2 x) (rotr 13 x)) (rotr 22 x).
Definition big_sigma1 (x : Z) : Z := Z.lxor (Z.lxor (rotr 6 x) (rotr 11 x)) (rotr 25 x).
Definition small_sigma0 (x : Z) : Z := Z.lxor (Z.lxor (rotr 7 x) (rotr 18 x)) (Z.shiftr x 3).
Definition small_sigma1 (x : Z) : Z := Z.lxor (Z.lxor (rotr 17 x) (rotr 19 x)) (Z.shiftr x 10).

(** The 64 round constants of section 4.2.2, in decimal. *)
Definition round_constants : list Z :=
  [
  1116352408; 1899447441; 3049323471; 3921009573; 961987163; 1508970993;
  2453635748; 2870763221; 3624381080; 310598401; 607225278; 1426881987;
  1925078388; 2162078206; 2614888103; 3248222580; 3835390401; 4022224774;
  264347078; 604807628; 770255983; 1249150122; 1555081692; 1996064986;
  2554220882; 2821834349; 2952996808; 3210313671; 3336571891; 3584528711;
  113926993; 338241895; 666307205; 773529912; 1294757372; 1396182291;
  1695183700; 1986661051; 2177026350; 2456956037; 2730485921; 2820302411;
  3259730800; 3345764771; 3516065817; 3600352804; 4094571909; 275423344;
  430227734; 506948616; 659060556; 883997877; 958139571; 1322822218;
  1537002063; 1747873779; 1955562222; 2024104815; 2227730452; 2361852424;
  2428436474; 2756734187; 3204031479; 3329325298
  ].

(** The eight chaining words. *)
Record hash_state : Type := mk_hash {
  h_a : Z; h_b : Z; h_c : Z; h_d : Z; h_e : Z; h_f : Z; h_g : Z; h_h : Z
}.

Definition initial_hash : hash_state :=
  mk_hash 1779033703 3144134277 1013904242 2773480762
          1359893119 2600822924 528734635 1541459225.

(** Big-endian words of a block. *)
Fixpoint words_of_bytes (bs : buffer) : list Z :=
  match bs with
  | b0 :: b1 :: b2 :: b3 :: rest =>
      (((b0 * 256 + b1) * 256 + b2) * 256 + b3) :: words_of_bytes rest
  | _ => []
  end.

Definition bytes_of_word (w : Z) : buffer :=
  [ (w / 16777216) mod 256; (w / 65536) mod 256; (w / 256) mod 256; w mod 256 ].

(** The message schedule, newest word first: [recent] holds
    W(t-1), W(t-2), ... and [n] more words are due. *)
Fixpoint extend_schedule (n : nat) (recent : list Z) : list Z :=
  match n with
  | O => recent
  | S n' =>
      let w := add32 (add32 (add32 (small_sigma1 (nth 1 recent 0)) (nth 6 recent 0))
                            (small_sigma0 (nth 14 recent 0)))
                     (nth 15 recent 0) in
      extend_schedule n' (w :: recent)
  end.

Definition schedule (block : buffer) : list Z :=
  rev (extend_schedule 48 (rev (words_of_bytes block))).

Definition round (s : hash_state) (kw : Z * Z) : hash_state :=
  let t1 := add32 (add32 (add32 (add32 (h_h s) (big_sigma1 (h_e s)))
                                (ch (h_e s) (h_f s) (h_g s)))
                         (fst kw))
                  (snd kw) in
  let t2 := add32 (big_sigma0 (h_a s)) (maj (h_a s) (h_b s) (h_c s)) in
  mk_hash (add32 t1 t2) (h_a s) (h_b s) (h_c s)
          (add32 (h_d s) t1) (h_e s) (h_f s) (h_g s).

Definition compress (h : hash_state) (block : buffer) : hash_state :=
  let s := fold_left round (combine round_constants (schedule block)) h in
  mk_hash (add32 (h_a h) (h_a s)) (add32 (h_b h) (h_b s))
          (add32 (h_c h) (h_c s)) (add32 (h_d h) (h_d s))
          (add32 (h_e h) (h_e s)) (add32 (h_f h) (h_f s))
          (add32 (h_g h) (h_g s)) (add32 (h_h h) (h_h s)).

(** The 64-bit big-endian bit length that ends the padding. *)
Definition length_block (bits : Z) : buffer :=
  bytes_of_word (bits / 4294967296) ++ bytes_of_word (wrap32 bits).

Definition pad_message (msg : buffer) : buffer :=
  let len := Z.of_nat (List.length msg) in
  msg ++ [128] ++ repeat 0 (Z.to_nat ((55 - len) mod 64)) ++ length_block (8 * len).

Fixpoint absorb (blocks : nat) (data : buffer) (h : hash_state) : hash_state :=
  match blocks with
  | O => h
  | S n => absorb n (skipn 64 data) (compress h (firstn 64 data))
  end.

Definition digest_bytes (h : hash_state) : buffer :=
  bytes_of_word (h_a h) ++ bytes_of_word (h_b h) ++ bytes_of_word (h_c h) ++
  bytes_of_word (h_d h) ++ bytes_of_word (h_e h) ++ bytes_of_word (h_f h) ++
  bytes_of_word (h_g h) ++ bytes_of_word (h_h h).

Definition sha256 (msg : buffer) : buffer :=
  let padded := pad_message msg in
  digest_bytes (absorb (List.length padded / 64) padded initial_hash).

(** *** HMAC (RFC 2104) with SHA-256: [createHmac('sha256', key).update(data)] *)

Definition block_key (key : buffer) : buffer :=
  let k := if (64 <? Z.of_nat (List.length key)) then sha256 key else key in
  k ++ repeat 0 (64 - List.length k).

Definition hmac_sha256 (key data : buffer) : buffer :=
  let k := block_key key in
  sha256 (map (Z.lxor 92) k ++ sha256 (map (Z.lxor 54) k ++ data)).

(** *** Hex: [digest('hex')] and [Buffer.from(s, 'hex')] *)

Definition hex_digit (n : Z) : ascii :=
  ascii_of_nat (Z.to_nat (if n <? 10 then 48 + n else 87 + n)).

Fixpoint hex_encode (bs : buffer) : string :=
  match bs with
  | [] => EmptyString
  | b :: rest => String (hex_digit (b / 16)) (String (hex_digit (b mod 16)) (hex_encode rest))
  end.

(** The value of a hex digit of either case, [None] for any other unit. *)
Definition unhex (c : ascii) : option Z :=
  let n := Z.of_nat (code c) in
  if (48 <=? n) && (n <=? 57) then Some (n - 48)
  else if (97 <=? n) && (n <=? 102) then Some (n - 87)
  else if (65 <=? n) && (n <=? 70) then Some (n - 55)
  else None.

(** [Buffer.from(s, 'hex')]: whole pairs are decoded from the left; the
    result ends before the first pair holding a unit that is no hex digit,
    and a single trailing digit is dropped. *)
Fixpoint hex_decode (s : string) : buffer :=
  match s with
  | String c1 (String c2 rest) =>
      match unhex c1, unhex c2 with
      | Some a, Some b => (a * 16 + b) :: hex_decode rest
      | _, _ => []
      end
  | _ => []
  end.

Definition buffer_eqb (a b : buffer) : bool :=
  (List.length a =? List.length b)%nat && forallb (fun p => fst p =? snd p) (combine a b).

(** What a JavaScript call yields: a value or a thrown exception. *)
Inductive completion (A : Type) : Type :=
| Returns (v : A)
| Throws (name : string).
Arguments Returns {A} v.
Arguments Throws {A} name.

(** [crypto.timingSafeEqual]: a [RangeError] unless both inputs have the
    same byte length. *)
Definition timingSafeEqual (a b : buffer) : completion bool :=
  if (List.length a =? List.length b)%nat
  then Returns (buffer_eqb a b)
  else Throws "RangeError".

End Crypto.

(** ** utils: checksum *)

Module Checksum.

Import Crypto.

(** [generateAEIChecksum]: the template [`${uid}${timestamp}${campaignId}`]
    keyed with [secretKey], hex digest. *)
Definition generateAEIChecksum (uid timestamp campaignId secretKey : string) : string :=
  let data := uid ++ timestamp ++ campaignId in
  hex_encode (hmac_sha256 (bytes_of_string secretKey) (bytes_of_string data)).

Definition verifyAEIChecksum (uid timestamp campaignId providedChecksum secretKey : string)
  : completion bool :=
  let expectedChecksum := generateAEIChecksum uid timestamp campaignId secretKey in
  timingSafeEqual (hex_decode expectedChecksum) (hex_decode providedChecksum).

End Checksum.

(** ** Checksum shapes the specification speaks of *)

Definition is_lower_hex (c : ascii) : bool :=
  in_range "0" "9" c || in_range "a" "f" c.

Definition is_hex (c : ascii) : bool :=
  in_range "0" "9" c || in_range "a" "f" c || in_range "A" "F" c.

(** A well-formed checksum text: 64 hex digits and nothing else. *)
Definition well_formed_checksum (s : string) : Prop :=
  String.length s = 64%nat /\ Forall (fun c => is_hex c = true) (chars s).

(** The text starts with a complete pair of hex digits. *)
Definition starts_with_hex_pair (s : string) : bool :=
  match s with
  | String c1 (String c2 _) => is_hex c1 && is_hex c2
  | _ => false
  end.

Definition is_byte (b : Z) : Prop := (0 <= b < 256)%Z.

(** The secret the configuration falls back to. *)
Definition default_aei_secret : string := "neocard-aei-hmac-secret-key-2024".

(** ** The keyed MAC the specification names, stated on its own

    HMAC as RFC 2104 defines it for a hash [H] with 64-byte blocks:
    [H ((K0 xor opad) ++ H ((K0 xor ipad) ++ text))], where [K0] is the
    key, hashed first when it is longer than a block, filled with zero
    bytes to the block length. *)

Definition xor_bytes (a b : list Z) : list Z :=
  map (fun p => Z.lxor (fst p) (snd p)) (combine a b).

Definition ipad : list Z := repeat 54%Z 64.
Definition opad : list Z := repeat 92%Z 64.

Definition rfc2104_key (H : list Z -> list Z) (key : list Z) : list Z :=
  let k := if (List.length key <=? 64)%nat then key else H key in
  (k ++ repeat 0%Z (64 - List.length k))%list.

Definition rfc2104_hmac (H : list Z -> list Z) (key text : list Z) : list Z :=
  H (xor_bytes (rfc2104_key H key) opad ++
     H (xor_bytes (rfc2104_key H key) ipad ++ text))%list.

(** Two lower-case hex digits per byte. *)
Definition lower_hex_char (n : Z) : ascii :=
  match String.get (Z.to_nat n) "0123456789abcdef" with
  | Some c => c
  | None => "0"%char
  end.

Fixpoint lower_hex_text (bs : list Z) : string :=
  match bs with
  | [] => EmptyString
  | b :: rest =>
      String (lower_hex_char (b / 16)) (String (lower_hex_char (b mod 16)) (lower_hex_text rest))
  end.

(** The seal the specification describes: the hex text of HMAC-SHA256,
    keyed with the secret, over the bytes of the three fields in order. *)
Definition spec_seal (uid timestamp campaign secret : string) : string :=
  lower_hex_text
    (rfc2104_hmac Crypto.sha256 (Crypto.bytes_of_string secret)
       (Crypto.bytes_of_string uid ++ Crypto.bytes_of_string timestamp ++
        Crypto.bytes_of_string campaign)%list).

(** ** Instants and their ISO text: [Date], [toISOString], [moment] *)

Module JsDate.

Local Open Scope Z_scope.

Definition msPerDay : Z := 86400000.
Definition msPerHour : Z := 3600000.
Definition msPerMinute : Z := 60000.
Definition msPerSecond : Z := 1000.

(** ECMAScript's day arithmetic. *)
Definition Day (t : Z) : Z := t / msPerDay.
Definition TimeWithinDay (t : Z) : Z := t mod msPerDay.

Definition DayFromYear (y : Z) : Z :=
  365 * (y - 1970) + (y - 1969) / 4 - (y - 1901) / 100 + (y - 1601) / 400.

Definition IsLeapYear (y : Z) : bool :=
  ((y mod 4 =? 0) && negb (y mod 100 =? 0)) || (y mod 400 =? 0).

(** The largest year whose first day is not after day [d]: a first guess
    from the mean year length, corrected by at most one year. *)
Definition YearFromDay (d : Z) : Z :=
  let y0 := 1970 + (400 * d) / 146097 in
  if DayFromYear (y0 + 1) <=? d then y0 + 1
  else if DayFromYear y0 <=? d then y0
  else y0 - 1.

Definition YearFromTime (t : Z) : Z := YearFromDay (Day t).

(** Day number within the year at which month [m] (0 to 11) starts. *)
Definition MonthStart (leap : bool) (m : Z) : Z :=
  let l := if leap then 1 else 0 in
  if m <=? 0 then 0
  else if m =? 1 then 31
  else if m =? 2 then 59 + l
  else if m =? 3 then 90 + l
  else if m =? 4 then 120 + l
  else if m =? 5 then 151 + l
  else if m =? 6 then 181 + l
  else if m =? 7 then 212 + l
  else if m =? 8 then 243 + l
  else if m =? 9 then 273 + l
  else if m =? 10 then 304 + l
  else 334 + l.

Definition MonthFromDayInYear (leap : bool) (d : Z) : Z :=
  let l := if leap then 1 else 0 in
  if d <? 31 then 0
  else if d <? 59 + l then 1
  else if d <? 90 + l then 2
  else if d <? 120 + l then 3
  else if d <? 151 + l then 4
  else if d <? 181 + l then 5
  else if d <? 212 + l then 6
  else if d <? 243 + l then 7
  else if d <? 273 + l then 8
  else if d <? 304 + l then 9
  else if d <? 334 + l then 10
  else 11.

Definition DaysInMonth (leap : bool) (m : Z) : Z :=
  if m =? 1 then (if leap then 29 else 28)
  else if (m =? 3) || (m =? 5) || (m =? 8) || (m =? 10) then 30
  else 31.

(** Broken-down UTC time; [tm_month] counts from 1 as in the ISO text. *)
Record tm : Type := mk_tm {
  tm_year : Z; tm_month : Z; tm_date : Z;
  tm_hour : Z; tm_minute : Z; tm_second : Z; tm_ms : Z
}.

Definition fields_of_time (t : Z) : tm :=
  let day := Day t in
  let y := YearFromDay day in
  let leap := IsLeapYear y in
  let diy := day - DayFromYear y in
  let m := MonthFromDayInYear leap diy in
  let tod := TimeWithinDay t in
  mk_tm y (m + 1) (diy - MonthStart leap m + 1)
        (tod / msPerHour) ((tod / msPerMinute) mod 60)
        ((tod / msPerSecond) mod 60) (tod mod msPerSecond).

(** [MakeDate (MakeDay y m d) (MakeTime h mi s ms)]. *)
Definition time_of_fields (f : tm) : Z :=
  (DayFromYear (tm_year f) + MonthStart (IsLeapYear (tm_year f)) (tm_month f - 1)
     + tm_date f - 1) * msPerDay
  + tm_hour f * msPerHour + tm_minute f * msPerMinute
  + tm_second f * msPerSecond + tm_ms f.

Definition valid_fields (f : tm) : bool :=
  (0 <=? tm_year f) && (tm_year f <=? 9999) &&
  (1 <=? tm_month f) && (tm_month f <=? 12) &&
  (1 <=? tm_date f) &&
  (tm_date f <=? DaysInMonth (IsLeapYear (tm_year f)) (tm_month f - 1)) &&
  (0 <=? tm_hour f) && (tm_hour f <=? 23) &&
  (0 <=? tm_minute f) && (tm_minute f <=? 59) &&
  (0 <=? tm_second f) && (tm_second f <=? 59) &&
  (0 <=? tm_ms f) && (tm_ms f <=? 999).

(** *** Decimal fields *)

Definition digit_char (n : Z) : ascii := ascii_of_nat (Z.to_nat (48 + n)).

(** The last [k] decimal digits of [n] put in front of [acc]: the
    zero-padded decimal text of [n] when [0 <= n < 10^k]. *)
Fixpoint pad_digits (k : nat) (n : Z) (acc : string) : string :=
  match k with
  | O => acc
  | S k' => pad_digits k' (n / 10) (String (digit_char (n mod 10)) acc)
  end.

Definition pad (k : nat) (n : Z) : string := pad_digits k n EmptyString.

Definition digit_value (c : ascii) : option Z :=
  let n := Z.of_nat (code c) in
  if (48 <=? n) && (n <=? 57) then Some (n - 48) else None.

(** Read exactly [k] decimal digits from the front of [s]. *)
Fixpoint read_digits (k : nat) (acc : Z) (s : string) : option (Z * string) :=
  match k with
  | O => Some (acc, s)
  | S k' =>
      match s with
      | String c rest =>
          match digit_value c with
          | Some d => read_digits k' (acc * 10 + d) rest
          | None => None
          end
      | EmptyString => None
      end
  end.

Definition expect (c : ascii) (s : string) : option string :=
  match s with
  | String c' rest => if Ascii.eqb c c' then Some rest else None
  | EmptyString => None
  end.

(** *** [Date.prototype.toISOString] *)

(** Years 0 to 9999 are written with four digits, any other year with a
    sign and six digits. *)
Definition year_text (y : Z) : string :=
  if (0 <=? y) && (y <=? 9999) then pad 4 y
  else if y <? 0 then String "-" (pad 6 (- y))
  else String "+" (pad 6 y).

Definition render (f : tm) : string :=
  (year_text (tm_year f) ++ "-" ++ pad 2 (tm_month f) ++ "-" ++ pad 2 (tm_date f)
   ++ "T" ++ pad 2 (tm_hour f) ++ ":" ++ pad 2 (tm_minute f) ++ ":" ++ pad 2 (tm_second f)
   ++ "." ++ pad 3 (tm_ms f) ++ "Z")%string.

Definition toISOString (t : Z) : string := render (fields_of_time t).

(** The instants whose year is written with four digits:
    0000-01-01T00:00:00.000Z up to 9999-12-31T23:59:59.999Z. *)
Definition first_instant : Z := -62167219200000.
Definition end_instant : Z := 253402300800000.

Definition four_digit_year (t : Z) : Prop := first_instant <= t < end_instant.

(** [s.split('T')[0]]: the text before the first [T]. *)
Fixpoint before_T (s : string) : string :=
  match s with
  | EmptyString => EmptyString
  | String c rest => if Ascii.eqb c "T" then EmptyString else String c (before_T rest)
  end.

(** *** Reading the ISO text back *)

Definition bind {A B : Type} (o : option A) (k : A -> option B) : option B :=
  match o with Some a => k a | None => None end.

(** The fields of a text of the shape [YYYY-MM-DDTHH:mm:ss.sssZ]. *)
Definition parse_fields (s : string) : option tm :=
  bind (read_digits 4 0 s) (fun '(y, s) =>
  bind (expect "-" s) (fun s =>
  bind (read_digits 2 0 s) (fun '(mo, s) =>
  bind (expect "-" s) (fun s =>
  bind (read_digits 2 0 s) (fun '(d, s) =>
  bind (expect "T" s) (fun s =>
  bind (read_digits 2 0 s) (fun '(h, s) =>
  bind (expect ":" s) (fun s =>
  bind (read_digits 2 0 s) (fun '(mi, s) =>
  bind (expect ":" s) (fun s =>
  bind (read_digits 2 0 s) (fun '(sec, s) =>
  bind (expect "." s) (fun s =>
  bind (read_digits 3 0 s) (fun '(ms, s) =>
  bind (expect "Z" s) (fun s =>
  match s with
  | EmptyString => Some (mk_tm y mo d h mi sec ms)
  | _ => None
  end)))))))))))))).

(** [moment(text).valueOf()] for the texts [toISOString] writes: the
    instant of a valid calendar date and time of day in UTC.  [None] is
    moment's invalid date; it also stands for every text of another shape,
    which the pipeline never stores. *)
Definition moment (s : string) : option Z :=
  bind (parse_fields s) (fun f =>
  if valid_fields f then Some (time_of_fields f) else None).

(** [a.diff(b, 'minutes')]: whole minutes, rounded toward zero. *)
Definition diff_minutes (a b : Z) : Z := Z.quot (a - b) msPerMinute.

(** SQLite's [DATE(text)] on such a text: its calendar day. *)
Definition sqlite_date (s : string) : option string :=
  bind (parse_fields s) (fun f =>
  if valid_fields f
  then Some (pad 4 (tm_year f) ++ "-" ++ pad 2 (tm_month f) ++ "-" ++ pad 2 (tm_date f))%string
  else None).

End JsDate.

(** ** Chronological order on broken-down times *)

(** Lexicographic combination of two comparisons. *)
Definition lex (c1 c2 : comparison) : comparison :=
  match c1 with Eq => c2 | _ => c1 end.

Definition tm_compare (a b : JsDate.tm) : comparison :=
  lex (JsDate.tm_year a ?= JsDate.tm_year b)%Z
 (lex (JsDate.tm_month a ?= JsDate.tm_month b)%Z
 (lex (JsDate.tm_date a ?= JsDate.tm_date b)%Z
 (lex (JsDate.tm_hour a ?= JsDate.tm_hour b)%Z
 (lex (JsDate.tm_minute a ?= JsDate.tm_minute b)%Z
 (lex (JsDate.tm_second a ?= JsDate.tm_second b)%Z
      (JsDate.tm_ms a ?= JsDate.tm_ms b)%Z))))).

Local Open Scope Z_scope.

Definition year_length (leap : bool) : Z := if leap then 366 else 365.

(** The calendar date of a day number, as [fields_of_time] computes it. *)
Definition civil_year (day : Z) : Z := JsDate.YearFromDay day.
Definition civil_month (day : Z) : Z :=
  JsDate.MonthFromDayInYear (JsDate.IsLeapYear (JsDate.YearFromDay day))
    (day - JsDate.DayFromYear (JsDate.YearFromDay day)) + 1.
Definition civil_date (day : Z) : Z :=
  day - JsDate.DayFromYear (JsDate.YearFromDay day)
  - JsDate.MonthStart (JsDate.IsLeapYear (JsDate.YearFromDay day))
      (JsDate.MonthFromDayInYear (JsDate.IsLeapYear (JsDate.YearFromDay day))
         (day - JsDate.DayFromYear (JsDate.YearFromDay day)))
  + 1.

Definition civil_compare (d d' : Z) : comparison :=
  lex (civil_year d ?= civil_year d')
 (lex (civil_month d ?= civil_month d') (civil_date d ?= civil_date d')).

(** Field ranges of a time of the four-digit years. *)
Record bounded_fields (f : JsDate.tm) : Prop := {
  bf_year : 0 <= JsDate.tm_year f <= 9999;
  bf_month : 1 <= JsDate.tm_month f <= 12;
  bf_date : 1 <= JsDate.tm_date f <= 31;
  bf_hour : 0 <= JsDate.tm_hour f <= 23;
  bf_minute : 0 <= JsDate.tm_minute f <= 59;
  bf_second : 0 <= JsDate.tm_second f <= 59;
  bf_ms : 0 <= JsDate.tm_ms f <= 999
}.

Local Close Scope Z_scope.

(** ** config *)

Module Config.

Local Open Scope Z_scope.

Record antifraud : Type := mk_antifraud {
  cooldownMinutes : Z;
  dailyScanLimit : Z
}.

(** [parseInt(text) || fallback]: [None] is [NaN], the result of parsing
    an unset or non-numeric variable; [NaN] and [0] give the fallback. *)
Definition parsed_or (parsed : option Z) (fallback : Z) : Z :=
  match parsed with
  | Some n => if n =? 0 then fallback else n
  | None => fallback
  end.

Definition load (COOLDOWN_MINUTES DAILY_SCAN_LIMIT : option Z) : antifraud :=
  mk_antifraud (parsed_or COOLDOWN_MINUTES 5) (parsed_or DAILY_SCAN_LIMIT 100).

Definition default : antifraud := load None None.

Definition aeiSecretKey : string := default_aei_secret.

End Config.

(** ** database: the [scans] table behind the sqlite3 handle *)

Module Database.

Local Open Scope Z_scope.
Local Open Scope list_scope.

(** A row of [scans].  [id] is the AUTOINCREMENT key; [created_at] is
    filled by SQLite and never read by this program, so it is left out. *)
Record ScanRow : Type := mk_row {
  id : Z;
  scan_id : string;
  uid : string;
  campaign_id : string;
  timestamp : string;
  checksum : string;
  verified : bool
}.

(** The object [insertScan] receives. *)
Record ScanData : Type := mk_scan {
  d_scan_id : string;
  d_uid : string;
  d_campaign_id : string;
  d_timestamp : string;
  d_checksum : string;
  d_verified : bool
}.

Inductive sqlite_error : Type :=
| SQLITE_CONSTRAINT   (* UNIQUE constraint failed: scans.scan_id *)
| SQLITE_ERROR        (* the statement does not parse *)
| SQLITE_RANGE        (* a parameter is missing or of the wrong kind *)
| SQLITE_IOERR.       (* the storage failed *)

(** How a promise settles. *)
Inductive settled (A : Type) : Type :=
| Resolved (v : A)
| Rejected (e : sqlite_error).
Arguments Resolved {A} v.
Arguments Rejected {A} e.

(** The store: rows in insertion order, the last AUTOINCREMENT key, and
    the script of storage faults still to come: each call into sqlite3
    takes the next flag off the script and fails when it is [true]; an
    exhausted script means no more faults. *)
Record Store : Type := mk_store {
  scans : list ScanRow;
  last_id : Z;
  faults : list bool
}.

Definition empty_store (script : list bool) : Store := mk_store [] 0 script.

(** A promise-returning method: it settles and leaves a store behind. *)
Definition Promise (A : Type) : Type := Store -> settled A * Store.

(** Entering a sqlite3 call. *)
Definition enter (st : Store) : bool * Store :=
  match faults st with
  | [] => (false, st)
  | f :: rest => (f, mk_store (scans st) (last_id st) rest)
  end.

(** *** Statements over [scans] *)

(** The pieces [getScans] glues to ['SELECT * FROM scans WHERE 1=1']. *)
Inductive clause : Type :=
| AND_uid_eq              (* ' AND uid = ?' *)
| AND_campaign_id_eq      (* ' AND campaign_id = ?' *)
| AND_timestamp_ge        (* ' AND timestamp >= ?' *)
| AND_timestamp_le        (* ' AND timestamp <= ?' *)
| ORDER_BY_timestamp_DESC (* ' ORDER BY timestamp DESC' *)
| LIMIT                   (* ' LIMIT ?' *)
| OFFSET.                 (* ' OFFSET ?' *)

Inductive value : Type :=
| Text (s : string)
| Integer (n : Z).

Definition is_condition (c : clause) : bool :=
  match c with
  | AND_uid_eq | AND_campaign_id_eq | AND_timestamp_ge | AND_timestamp_le => true
  | _ => false
  end.

(** SQLite's white space. *)
Definition is_space (c : ascii) : bool :=
  let n := code c in ((n =? 32) || ((9 <=? n) && (n <=? 13)))%nat.

Definition is_digit (c : ascii) : bool := in_range "0" "9" c.

Fixpoint skip_spaces (s : string) : string :=
  match s with
  | String c rest => if is_space c then skip_spaces rest else s
  | EmptyString => s
  end.

Definition skip_sign (s : string) : string :=
  match s with
  | String c rest => if Ascii.eqb c "+" || Ascii.eqb c "-" then rest else s
  | EmptyString => s
  end.

(** Leading digits: how many, and what follows them. *)
Fixpoint span_digits (s : string) : nat * string :=
  match s with
  | String c rest =>
      if is_digit c then let (n, r) := span_digits rest in (S n, r) else (O, s)
  | EmptyString => (O, s)
  end.

Definition skip_fraction (s : string) : nat * string :=
  match s with
  | String c rest => if Ascii.eqb c "." then span_digits rest else (O, s)
  | EmptyString => (O, s)
  end.

(** An exponent, if one starts here; [None] when it starts and is cut short. *)
Definition skip_exponent (s : string) : option string :=
  match s with
  | String c rest =>
      if Ascii.eqb c "e" || Ascii.eqb c "E" then
        let (n, r) := span_digits (skip_sign rest) in
        if (n =? 0)%nat then None else Some r
      else Some s
  | EmptyString => Some s
  end.

(** A text that is a well-formed integer or real literal.  The [timestamp]
    column is declared DATETIME, which gives it NUMERIC affinity: a text
    bound to a comparison with it is turned into a number when it is such
    a literal. *)
Definition is_numeric_literal (s : string) : bool :=
  let s := skip_sign (skip_spaces s) in
  let (n1, s) := span_digits s in
  let (n2, s) := skip_fraction s in
  if (n1 + n2 =? 0)%nat then false
  else match skip_exponent s with
       | Some s => match skip_spaces s with EmptyString => true | _ => false end
       | None => false
       end.

(** One condition on one row, with its bound value.  Stored timestamps
    are texts that are no number literals (ISO texts), so they stay texts
    under the column's affinity; a number is less than every text.
    [None]: the value is of a kind [getScans] never binds here. *)
Definition holds (c : clause) (v : value) (r : ScanRow) : option bool :=
  match c, v with
  | AND_uid_eq, Text s => Some (String.eqb (uid r) s)
  | AND_campaign_id_eq, Text s => Some (String.eqb (campaign_id r) s)
  | AND_timestamp_ge, Text s =>
      Some (if is_numeric_literal s then true else String.leb s (timestamp r))
  | AND_timestamp_le, Text s =>
      Some (if is_numeric_literal s then false else String.leb (timestamp r) s)
  | _, _ => None
  end.

(** The conditions at the front of a statement and what follows them. *)
Fixpoint split_conditions (cs : list clause) : list clause * list clause :=
  match cs with
  | c :: rest =>
      if is_condition c
      then let (w, t) := split_conditions rest in (c :: w, t)
      else ([], cs)
  | [] => ([], [])
  end.

(** The tail of a SELECT: [ORDER BY] is optional, and [OFFSET] is only
    part of a [LIMIT] clause.  The result tells whether the rows are
    ordered, limited and offset; [None] is a syntax error. *)
Definition parse_tail (cs : list clause) : option (bool * bool * bool) :=
  match cs with
  | [] => Some (false, false, false)
  | [ORDER_BY_timestamp_DESC] => Some (true, false, false)
  | [LIMIT] => Some (false, true, false)
  | [LIMIT; OFFSET] => Some (false, true, true)
  | [ORDER_BY_timestamp_DESC; LIMIT] => Some (true, true, false)
  | [ORDER_BY_timestamp_DESC; LIMIT; OFFSET] => Some (true, true, true)
  | _ => None
  end.

(** All conditions on one row. *)
Fixpoint all_hold (cs : list clause) (vs : list value) (r : ScanRow) : option bool :=
  match cs, vs with
  | [], _ => Some true
  | c :: cs', v :: vs' =>
      match holds c v r, all_hold cs' vs' r with
      | Some b, Some b' => Some (b && b')
      | _, _ => None
      end
  | _ :: _, [] => None
  end.

Fixpoint select_rows (cs : list clause) (vs : list value) (rows : list ScanRow)
  : option (list ScanRow) :=
  match rows with
  | [] => Some []
  | r :: rest =>
      match all_hold cs vs r, select_rows cs vs rest with
      | Some b, Some l => Some (if b then r :: l else l)
      | _, _ => None
      end
  end.

(** [ORDER BY timestamp DESC] on texts, BINARY collation.  Rows with equal
    timestamps are left in insertion order here; SQLite promises no order
    among them. *)
Fixpoint insert_desc (r : ScanRow) (l : list ScanRow) : list ScanRow :=
  match l with
  | [] => [r]
  | x :: rest =>
      if String.leb (timestamp x) (timestamp r) then r :: l
      else x :: insert_desc r rest
  end.

Definition order_by_timestamp_desc (l : list ScanRow) : list ScanRow :=
  fold_right insert_desc [] l.

(** [LIMIT n]: a negative [n] is no limit.  [OFFSET m]: a negative [m] is 0. *)
Definition apply_limit (n : Z) (l : list ScanRow) : list ScanRow :=
  if n <? 0 then l else firstn (Z.to_nat n) l.

Definition apply_offset (m : Z) (l : list ScanRow) : list ScanRow :=
  skipn (Z.to_nat m) l.

(** The integer parameters after the conditions' values. *)
Definition paging (limited offset : bool) (vs : list value) : option (option Z * option Z) :=
  match limited, offset, vs with
  | false, _, [] => Some (None, None)
  | true, false, [Integer n] => Some (Some n, None)
  | true, true, [Integer n; Integer m] => Some (Some n, Some m)
  | _, _, _ => None
  end.

(** Running ['SELECT * FROM scans WHERE 1=1' ++ clauses] with [params]. *)
Definition select_all (sql : list clause) (params : list value) (rows : list ScanRow)
  : settled (list ScanRow) :=
  let (conds, tail) := split_conditions sql in
  match parse_tail tail with
  | None => Rejected SQLITE_ERROR
  | Some (ordered, limited, offset) =>
      match select_rows conds params rows,
            paging limited offset (skipn (List.length conds) params) with
      | Some matching, Some (lim, off) =>
          let sorted := if ordered then order_by_timestamp_desc matching else matching in
          let skipped := match off with Some m => apply_offset m sorted | None => sorted end in
          Resolved (match lim with Some n => apply_limit n skipped | None => skipped end)
      | _, _ => Rejected SQLITE_RANGE
      end
  end.

(** [db.all(sql, params, callback)]. *)
Definition db_all (sql : list clause) (params : list value) : Promise (list ScanRow) :=
  fun st =>
    let (fault, st') := enter st in
    if fault then (Rejected SQLITE_IOERR, st')
    else (select_all sql params (scans st'), st').

(** *** The methods of the module *)

(** What [this.lastID] and [this.changes] hold after the INSERT. *)
Record RunResult : Type := mk_run { lastID : Z; changes : Z }.

(** [insertScan]: the INSERT fails when [scan_id], declared UNIQUE, is
    already in the table. *)
Definition insertScan (scanData : ScanData) : Promise RunResult :=
  fun st =>
    let (fault, st') := enter st in
    if fault then (Rejected SQLITE_IOERR, st')
    else if existsb (fun r => String.eqb (scan_id r) (d_scan_id scanData)) (scans st')
    then (Rejected SQLITE_CONSTRAINT, st')
    else
      let key := last_id st' + 1 in
      let row := mk_row key (d_scan_id scanData) (d_uid scanData) (d_campaign_id scanData)
                        (d_timestamp scanData) (d_checksum scanData) (d_verified scanData) in
      (Resolved (mk_run key 1), mk_store (scans st' ++ [row]) key (faults st')).

(** The [filters] object; an absent property is [None]. *)
Record Filters : Type := mk_filters {
  f_uid : option string;
  f_campaign_id : option string;
  f_start_date : option string;
  f_end_date : option string;
  f_limit : option Z;
  f_offset : option Z
}.

Definition no_filters : Filters := mk_filters None None None None None None.

(** JavaScript truthiness: the empty text and 0 are falsy, like an absent
    property (and like [NaN], which [None] also stands for). *)
Definition truthy_text (o : option string) : option string :=
  match o with
  | Some s => if String.eqb s EmptyString then None else Some s
  | None => None
  end.

Definition truthy_number (o : option Z) : option Z :=
  match o with
  | Some n => if n =? 0 then None else Some n
  | None => None
  end.

(** [if (value) { sql += piece; params.push(value) }]. *)
Definition add_text (o : option string) (piece : clause) (q : list clause * list value)
  : list clause * list value :=
  match truthy_text o with
  | Some s => (fst q ++ [piece], snd q ++ [Text s])
  | None => q
  end.

Definition add_number (o : option Z) (piece : clause) (q : list clause * list value)
  : list clause * list value :=
  match truthy_number o with
  | Some n => (fst q ++ [piece], snd q ++ [Integer n])
  | None => q
  end.

(** The statement and parameters [getScans] builds. *)
Definition getScans_query (filters : Filters) : list clause * list value :=
  let q := ([], []) in
  let q := add_text (f_uid filters) AND_uid_eq q in
  let q := add_text (f_campaign_id filters) AND_campaign_id_eq q in
  let q := add_text (f_start_date filters) AND_timestamp_ge q in
  let q := add_text (f_end_date filters) AND_timestamp_le q in
  let q := (fst q ++ [ORDER_BY_timestamp_DESC], snd q) in
  let q := add_number (f_limit filters) LIMIT q in
  let q := add_number (f_offset filters) OFFSET q in
  q.

Definition getScans (filters : Filters) : Promise (list ScanRow) :=
  let (sql, params) := getScans_query filters in db_all sql params.

(** [getLastScanTime]: [db.get] on
    ['SELECT timestamp FROM scans WHERE uid = ? ORDER BY timestamp DESC LIMIT 1']
    (the statement's literal limit is given here as a bound value): the
    timestamp of the first row, or null. *)
Definition getLastScanTime (u : string) : Promise (option string) :=
  fun st =>
    match db_all [AND_uid_eq; ORDER_BY_timestamp_DESC; LIMIT] [Text u; Integer 1] st with
    | (Resolved rows, st') =>
        (Resolved (match rows with r :: _ => Some (timestamp r) | [] => None end), st')
    | (Rejected e, st') => (Rejected e, st')
    end.

(** [getDailyScanCount]: ['COUNT( * ) ... WHERE uid = ? AND DATE(timestamp) = ?']. *)
Definition on_day (date : string) (r : ScanRow) : bool :=
  match JsDate.sqlite_date (timestamp r) with
  | Some d => String.eqb d date
  | None => false
  end.

Definition getDailyScanCount (u date : string) : Promise Z :=
  fun st =>
    let (fault, st') := enter st in
    if fault then (Rejected SQLITE_IOERR, st')
    else (Resolved (Z.of_nat (List.length
            (filter (fun r => String.eqb (uid r) u && on_day date r) (scans st')))), st').

(** *** [getStats] *)

Record Stats : Type := mk_stats {
  totalScans : Z;
  todayScans : Z;
  yesterdayScans : Z;
  uniqueUids : Z;
  lastScan : option string
}.

Fixpoint distinct (l : list string) : list string :=
  match l with
  | [] => []
  | x :: rest => if existsb (String.eqb x) rest then distinct rest else x :: distinct rest
  end.

(** One counting query of the loop, with its [catch]: a failed query is
    logged and its entry set to 0. *)
Definition count_or_zero (count : list ScanRow -> Z) (st : Store) : Z * Store :=
  let (fault, st') := enter st in
  if fault then (0, st') else (count (scans st'), st').

(** The last query of the loop: a failed query leaves [null]. *)
Definition last_or_null (st : Store) : option string * Store :=
  let (fault, st') := enter st in
  if fault then (None, st')
  else (match order_by_timestamp_desc (scans st') with
        | r :: _ => Some (timestamp r)
        | [] => None
        end, st').

Definition count_rows (p : ScanRow -> bool) (rows : list ScanRow) : Z :=
  Z.of_nat (List.length (filter p rows)).

(** [getStats], with the two clock readings it takes: [new Date()] and
    [Date.now()].  It always resolves. *)
Definition getStats (now now' : Z) : Promise Stats :=
  fun st =>
    let today := JsDate.before_T (JsDate.toISOString now) in
    let yesterday := JsDate.before_T (JsDate.toISOString (now' - 24 * 60 * 60 * 1000)) in
    let (total, st1) := count_or_zero (count_rows (fun _ => true)) st in
    let (tod, st2) := count_or_zero (count_rows (on_day today)) st1 in
    let (yes, st3) := count_or_zero (count_rows (on_day yesterday)) st2 in
    let (uniq, st4) :=
      count_or_zero (fun rows => Z.of_nat (List.length (distinct (map uid rows)))) st3 in
    let (last, st5) := last_or_null st4 in
    (Resolved (mk_stats total tod yes uniq last), st5).

End Database.

(** ** utils: cooldown and scan ids *)

Module Cooldown.

Local Open Scope Z_scope.

(** [isWithinCooldown], with the reading [now] that its [moment()] takes.
    A falsy [lastScanTime] gives [false]; a text moment cannot read gives
    a [NaN] difference, and [NaN < n] is [false]. *)
Definition isWithinCooldown (now : Z) (lastScanTime : option string) (cooldownMinutes : Z)
  : bool :=
  match Database.truthy_text lastScanTime with
  | None => false
  | Some text =>
      match JsDate.moment text with
      | Some lastScan => JsDate.diff_minutes now lastScan <? cooldownMinutes
      | None => false
      end
  end.

(** Decimal text of a number, as template literals print it. *)
Definition decimal (n : Z) : string := DecimalString.NilZero.string_of_int (Z.to_int n).

(** [generateScanId], with its [Date.now()] and the hex of its random bytes. *)
Definition generateScanId (now : Z) (random_hex : string) : string :=
  ("scan_" ++ decimal now ++ "_" ++ random_hex)%string.

End Cooldown.

(** ** Asynchronous code *)

Module Async.

Import Database.

(** The promise-returning calls a request waits for. *)
Inductive call : Type -> Type :=
| call_insertScan (scanData : ScanData) : call RunResult
| call_getScans (filters : Filters) : call (list ScanRow)
| call_getLastScanTime (u : string) : call (option string)
| call_getDailyScanCount (u date : string) : call Z
| call_getStats (now now' : Z) : call Stats.

Definition perform {R : Type} (c : call R) : Promise R :=
  match c in call R return Promise R with
  | call_insertScan d => insertScan d
  | call_getScans f => getScans f
  | call_getLastScanTime u => getLastScanTime u
  | call_getDailyScanCount u date => getDailyScanCount u date
  | call_getStats now now' => getStats now now'
  end.

(** An async function body: it finishes with a value, or it awaits a
    call and goes on with how the promise settled (a rejection is what
    the surrounding [catch] receives). *)
Inductive task (A : Type) : Type :=
| Done (a : A)
| Await {R : Type} (c : call R) (k : settled R -> task A).
Arguments Done {A} a.
Arguments Await {A R} c k.

(** Sequencing: [k] runs on the value [t] finishes with. *)
Fixpoint bind {A B : Type} (t : task A) (k : A -> task B) : task B :=
  match t with
  | Done a => k a
  | Await c k' => Await c (fun got => bind (k' got) k)
  end.

(** Running one task alone, start to finish. *)
Fixpoint run {A : Type} (t : task A) (st : Store) : A * Store :=
  match t with
  | Done a => (a, st)
  | Await c k => let (r, st') := perform c st in run (k r) st'
  end.

(** One turn of a task: the awaited call is served and the code up to the
    next [await] runs. *)
Definition turn {A : Type} (t : task A) (st : Store) : task A * Store :=
  match t with
  | Done a => (t, st)
  | Await c k => let (r, st') := perform c st in (k r, st')
  end.

(** Two requests in flight on one store. *)
Record flight (A : Type) : Type := mk_flight {
  first : task A;
  second : task A;
  shared : Store
}.
Arguments mk_flight {A} first second shared.
Arguments first {A} f.
Arguments second {A} f.
Arguments shared {A} f.

Inductive who : Type := First | Second.

Definition advance {A : Type} (w : who) (f : flight A) : flight A :=
  match w with
  | First => let (t, st) := turn (first f) (shared f) in mk_flight t (second f) st
  | Second => let (t, st) := turn (second f) (shared f) in mk_flight (first f) t st
  end.

(** The flight after the turns of a schedule, taken in order. *)
Definition interleave {A : Type} (schedule : list who) (f : flight A) : flight A :=
  fold_left (fun f w => advance w f) schedule f.

Definition finished {A : Type} (t : task A) : option A :=
  match t with Done a => Some a | Await _ _ => None end.

End Async.

(** ** middleware and routes: POST /v1/scan *)

Module Pipeline.

Import Database Async.
Local Open Scope Z_scope.

(** What the server answers. *)
Inductive Response : Type :=
| MISSING_UID                                   (* 400 *)
| MISSING_CAMPAIGN_ID                           (* 400 *)
| INVALID_UID_FORMAT                            (* 400 *)
| COOLDOWN_ACTIVE (cooldownMinutes : Z) (lastScanTime : option string)  (* 429 *)
| DAILY_LIMIT_EXCEEDED (dailyLimit currentCount : Z)                    (* 429 *)
| Registered (record : ScanData) (total_scans daily_scans : Z)          (* 201 *)
| Logs (rows : list ScanRow) (total : Z) (limit offset : option Z) (has_more : bool) (* 200 *)
| Statistics (stats : Stats)                    (* 200 *)
| Failed (message : string) (error : sqlite_error).                     (* 500 *)

(** How a middleware ends: it answers, calls [next()], or calls
    [next(error)]. *)
Inductive step : Type :=
| Respond (r : Response)
| Next
| NextError (e : sqlite_error).

(** The request body of a request whose [uid] and [campaign_id] are JSON
    strings; a missing property is [None].  A value of another JSON type,
    which the code would coerce, has no counterpart here. *)
Record Body : Type := mk_body { body_uid : option string; body_campaign_id : option string }.

(** [validateScanRequest]. *)
Definition validateScanRequest (body : Body) : step :=
  match truthy_text (body_uid body) with
  | None => Respond MISSING_UID
  | Some u =>
      match truthy_text (body_campaign_id body) with
      | None => Respond MISSING_CAMPAIGN_ID
      | Some _ => if Utils.isValidUID u then Next else Respond INVALID_UID_FORMAT
      end
  end.

(** The readings one request takes from the clock and the random source,
    in the order the code takes them. *)
Record Readings : Type := mk_readings {
  at_cooldown : Z;      (* moment() in isWithinCooldown *)
  at_daily : Z;         (* new Date() for today in antiFraudCheck *)
  at_admission : Z;     (* new Date() for the record's timestamp *)
  at_scan_id : Z;       (* Date.now() in generateScanId *)
  random_hex : string;  (* randomBytes(4).toString('hex') *)
  at_range_start : Z;   (* new Date() for start_date *)
  at_range_end : Z      (* new Date() for end_date *)
}.

(** [antiFraudCheck]. *)
Definition antiFraudCheck (antifraud : Config.antifraud) (rd : Readings) (u : string)
  : task step :=
  Await (call_getLastScanTime u) (fun got =>
  match got with
  | Rejected error => Done (NextError error)
  | Resolved lastScanTime =>
      if match truthy_text lastScanTime with Some _ => true | None => false end
         && Cooldown.isWithinCooldown (at_cooldown rd) lastScanTime
              (Config.cooldownMinutes antifraud)
      then Done (Respond (COOLDOWN_ACTIVE (Config.cooldownMinutes antifraud) lastScanTime))
      else
        let today := JsDate.before_T (JsDate.toISOString (at_daily rd)) in
        Await (call_getDailyScanCount u today) (fun got =>
        match got with
        | Rejected error => Done (NextError error)
        | Resolved dailyScanCount =>
            if Config.dailyScanLimit antifraud <=? dailyScanCount
            then Done (Respond (DAILY_LIMIT_EXCEEDED (Config.dailyScanLimit antifraud)
                                                     dailyScanCount))
            else Done Next
        end)
  end).

(** The route handler of POST /scan. *)
Definition scanHandler (secret : string) (rd : Readings) (u campaign : string)
  : task Response :=
  let timestamp := JsDate.toISOString (at_admission rd) in
  let checksum := Checksum.generateAEIChecksum u timestamp campaign secret in
  let scanId := Cooldown.generateScanId (at_scan_id rd) (random_hex rd) in
  let scanRecord := mk_scan scanId u campaign timestamp checksum true in
  Await (call_insertScan scanRecord) (fun got =>
  match got with
  | Rejected error => Done (Failed "Failed to register scan" error)
  | Resolved _ =>
      Await (call_getScans (mk_filters None None None None (Some 1000) None)) (fun got =>
      match got with
      | Rejected error => Done (Failed "Failed to register scan" error)
      | Resolved totalScans =>
          let start_date := JsDate.before_T (JsDate.toISOString (at_range_start rd)) in
          let end_date :=
            (JsDate.before_T (JsDate.toISOString (at_range_end rd)) ++ "T23:59:59.999Z")%string in
          Await (call_getScans (mk_filters None None (Some start_date) (Some end_date) None None))
          (fun got =>
          match got with
          | Rejected error => Done (Failed "Failed to register scan" error)
          | Resolved todayScans =>
              Done (Registered scanRecord (Z.of_nat (List.length totalScans))
                                          (Z.of_nat (List.length todayScans)))
          end)
      end)
  end).

(** How a request leaves the middleware chain: answered, or handed with an
    error to the application's error handler. *)
Inductive outcome : Type :=
| Answered (r : Response)
| Errored (e : sqlite_error).

Definition text_of (o : option string) : string :=
  match o with Some s => s | None => EmptyString end.

(** [router.post('/scan', validateScanRequest, antiFraudCheck, handler)]. *)
Definition postScan (antifraud : Config.antifraud) (secret : string) (rd : Readings)
  (body : Body) : task outcome :=
  match validateScanRequest body with
  | Respond r => Done (Answered r)
  | NextError e => Done (Errored e)
  | Next =>
      let u := text_of (body_uid body) in
      let campaign := text_of (body_campaign_id body) in
      bind (antiFraudCheck antifraud rd u) (fun checked =>
      match checked with
      | Respond r => Done (Answered r)
      | NextError e => Done (Errored e)
      | Next => bind (scanHandler secret rd u campaign) (fun r => Done (Answered r))
      end)
  end.

(** *** The read routes *)

(** The query of GET /logs with [limit] and [offset] as [parseInt] returns
    them ([None] is [NaN]); the caller has put 50 and 0 for absent ones. *)
Record LogsQuery : Type := mk_logs_query {
  q_limit : option Z;
  q_offset : option Z;
  q_uid : option string;
  q_campaign_id : option string;
  q_start_date : option string;
  q_end_date : option string
}.

Definition has_more (total : Z) (limit offset : option Z) : bool :=
  match limit, offset with
  | Some l, Some o => o + l <? total
  | _, _ => false
  end.

(** The handler of GET /logs (after the API key check). *)
Definition logsHandler (q : LogsQuery) : task Response :=
  let filters := mk_filters (truthy_text (q_uid q)) (truthy_text (q_campaign_id q))
                            (truthy_text (q_start_date q)) (truthy_text (q_end_date q))
                            (q_limit q) (q_offset q) in
  Await (call_getScans filters) (fun got =>
  match got with
  | Rejected error => Done (Failed "Failed to retrieve logs" error)
  | Resolved rows =>
      let totalFilters := mk_filters (f_uid filters) (f_campaign_id filters)
                                     (f_start_date filters) (f_end_date filters) None None in
      Await (call_getScans totalFilters) (fun got =>
      match got with
      | Rejected error => Done (Failed "Failed to retrieve logs" error)
      | Resolved totalScans =>
          let total := Z.of_nat (List.length totalScans) in
          Done (Logs rows total (q_limit q) (q_offset q)
                     (has_more total (q_limit q) (q_offset q)))
      end)
  end).

(** The handler of GET /stats (after the API key check). *)
Definition statsHandler (now now' : Z) : task Response :=
  Await (call_getStats now now') (fun got =>
  match got with
  | Rejected error => Done (Failed "Failed to retrieve statistics" error)
  | Resolved stats => Done (Statistics stats)
  end).

End Pipeline.

(** ** The ledger as the specification speaks of it *)

(** No two rows share a [scan_id]. *)
Definition unique_scan_ids (st : Database.Store) : Prop :=
  NoDup (map Database.scan_id (Database.scans st)).

(** The stores a ledger goes through in its lifetime: it starts empty, and
    every method call, whether it resolves or rejects, leaves the next one. *)
Inductive lifetime : Database.Store -> Prop :=
| lifetime_start (script : list bool) : lifetime (Database.empty_store script)
| lifetime_call (R : Type) (c : Async.call R) (st : Database.Store) :
    lifetime st -> lifetime (snd (Async.perform c st)).

(** The row [insertScan] writes for [d] under key [key]. *)
Definition row_of (key : Z) (d : Database.ScanData) : Database.ScanRow :=
  Database.mk_row key (Database.d_scan_id d) (Database.d_uid d) (Database.d_campaign_id d)
    (Database.d_timestamp d) (Database.d_checksum d) (Database.d_verified d).

(** The next call into sqlite3 does not hit a storage fault. *)
Definition next_call_succeeds (st : Database.Store) : Prop :=
  fst (Database.enter st) = false.

(** The rows a [filters] object asks for, one supplied filter at a time;
    the bounds of the timestamp range are inclusive. *)
Definition text_filter (o : option string) (p : string -> bool) : bool :=
  match Database.truthy_text o with
  | Some s => p s
  | None => true
  end.

Definition matches (f : Database.Filters) (r : Database.ScanRow) : bool :=
  text_filter (Database.f_uid f) (String.eqb (Database.uid r)) &&
  text_filter (Database.f_campaign_id f) (String.eqb (Database.campaign_id r)) &&
  text_filter (Database.f_start_date f) (fun s => String.leb s (Database.timestamp r)) &&
  text_filter (Database.f_end_date f) (fun s => String.leb (Database.timestamp r) s).

(** Timestamp descending, as texts. *)
Definition newer_first (r1 r2 : Database.ScanRow) : Prop :=
  String.leb (Database.timestamp r2) (Database.timestamp r1) = true.

(** [limit] and [offset] applied to a result. *)
Definition page (f : Database.Filters) (l : list Database.ScanRow) : list Database.ScanRow :=
  let skipped :=
    match Database.truthy_number (Database.f_offset f) with
    | Some m => Database.apply_offset m l
    | None => l
    end in
  match Database.truthy_number (Database.f_limit f) with
  | Some n => Database.apply_limit n skipped
  | None => skipped
  end.

(** A supplied range bound is a text SQLite compares as text. *)
Definition textual_bound (o : option string) : Prop :=
  match Database.truthy_text o with
  | Some s => Database.is_numeric_literal s = false
  | None => True
  end.

(** The row was stamped by [toISOString] at an instant of the four-digit
    years. *)
Definition stamped (r : Database.ScanRow) : Prop :=
  exists t : Z, JsDate.four_digit_year t /\ Database.timestamp r = JsDate.toISOString t.

Definition all_stamped (st : Database.Store) : Prop := Forall stamped (Database.scans st).

(** The instant a row's timestamp denotes (0 when moment cannot read it). *)
Definition instant (r : Database.ScanRow) : Z :=
  match JsDate.moment (Database.timestamp r) with
  | Some t => t
  | None => 0%Z
  end.

(** The rows SQLite selects for a [filters] object: as [matches], except
    that a range bound that is a number literal is compared as a number,
    and a number is below every text. *)
Definition sql_matches (f : Database.Filters) (r : Database.ScanRow) : bool :=
  text_filter (Database.f_uid f) (String.eqb (Database.uid r)) &&
  text_filter (Database.f_campaign_id f) (String.eqb (Database.campaign_id r)) &&
  text_filter (Database.f_start_date f)
    (fun s => if Database.is_numeric_literal s then true
              else String.leb s (Database.timestamp r)) &&
  text_filter (Database.f_end_date f)
    (fun s => if Database.is_numeric_literal s then false
              else String.leb (Database.timestamp r) s).

(** An offset comes with a limit. *)
Definition offset_has_limit (f : Database.Filters) : Prop :=
  Database.truthy_number (Database.f_offset f) = None \/
  Database.truthy_number (Database.f_limit f) <> None.

Section StatementShape.
Import Database.

(** What the statement built so far says about a row. *)
Record built (q : list clause * list value) (p : ScanRow -> bool) : Prop := {
  built_conditions : Forall (fun c => is_condition c = true) (fst q);
  built_length : List.length (fst q) = List.length (snd q);
  built_holds : forall r extra, all_hold (fst q) (snd q ++ extra) r = Some (p r)
}.

(** The conditions of the statement [getScans] builds. *)
Definition conditions_of (f : Filters) : list clause * list value :=
  add_text (f_end_date f) AND_timestamp_le
    (add_text (f_start_date f) AND_timestamp_ge
       (add_text (f_campaign_id f) AND_campaign_id_eq
          (add_text (f_uid f) AND_uid_eq ([], [])))).

End StatementShape.

(** The fault flags taken off the script between store [st] and a later
    store [st']: one per call into sqlite3 made in between. *)
Definition served (st st' : Database.Store) : list bool :=
  firstn (List.length (Database.faults st) - List.length (Database.faults st'))
         (Database.faults st).

(** The flag the [n]-th coming call into sqlite3 meets. *)
Definition fault_at (n : nat) (st : Database.Store) : bool :=
  nth n (Database.faults st) false.

(** The newest timestamp text of the ledger, if it has a row. *)
Definition newest_timestamp (rows : list Database.ScanRow) : option string :=
  match Database.order_by_timestamp_desc rows with
  | r :: _ => Some (Database.timestamp r)
  | [] => None
  end.

(** The cooldown test of [antiFraudCheck]. *)
Definition in_cooldown (antifraud : Config.antifraud) (rd : Pipeline.Readings)
  (lastScanTime : option string) : bool :=
  match Database.truthy_text lastScanTime with Some _ => true | None => false end
  && Cooldown.isWithinCooldown (Pipeline.at_cooldown rd) lastScanTime
       (Config.cooldownMinutes antifraud).

(** [r] is the most recent admitted record of identifier [u], admitted at
    instant [t]. *)
Definition most_recent_record (st : Database.Store) (u : string)
  (r : Database.ScanRow) (t : Z) : Prop :=
  In r (Database.scans st) /\ Database.uid r = u /\
  JsDate.four_digit_year t /\ Database.timestamp r = JsDate.toISOString t /\
  forall r', In r' (Database.scans st) -> Database.uid r' = u -> (instant r' <= t)%Z.

(** ** A sample ledger: one scan of TEST12345678 at 2025-10-19T10:00:00.000Z *)

Definition sample_instant : Z := 1760868000000.

Definition sample_row : Database.ScanRow :=
  Database.mk_row 1 "scan_1760868000000_deadbeef" "TEST12345678" "DEMO01"
    "2025-10-19T10:00:00.000Z"
    "7846f1723ad48ce1123a49783fc1b6d98d260fae9a59b7a9c7343aab06214498" true.

Definition sample_store : Database.Store := Database.mk_store [sample_row] 1 [].

(** Readings of a request whose clock shows [t] throughout. *)
Definition readings_at (t : Z) (random_hex : string) : Pipeline.Readings :=
  Pipeline.mk_readings t t t t random_hex t t.

(** ** Ledgers written by the admission pipeline *)

(** An append carries a timestamp written by [toISOString] at an instant of
    the four-digit years; reads are free. *)
Definition stamps_only (R : Type) (c : Async.call R) : Prop :=
  match c with
  | Async.call_insertScan d =>
      exists t : Z, JsDate.four_digit_year t /\ Database.d_timestamp d = JsDate.toISOString t
  | _ => True
  end.

(** The stores reached when every row comes from POST /scan, served at
    clock readings of the four-digit years: whole requests one after the
    other, or single calls of requests and readers that overlap. *)
Inductive admitted_ledger : Database.Store -> Prop :=
| admitted_start (script : list bool) : admitted_ledger (Database.empty_store script)
| admitted_request (st : Database.Store) (antifraud : Config.antifraud) (secret : string)
    (rd : Pipeline.Readings) (body : Pipeline.Body) :
    admitted_ledger st ->
    JsDate.four_digit_year (Pipeline.at_admission rd) ->
    admitted_ledger (snd (Async.run (Pipeline.postScan antifraud secret rd body) st))
| admitted_call (st : Database.Store) (R : Type) (c : Async.call R) :
    admitted_ledger st -> stamps_only R c ->
    admitted_ledger (snd (Async.perform c st)).

(** Every call a task can make satisfies [P]. *)
Inductive makes_calls (P : forall R : Type, Async.call R -> Prop) {A : Type}
  : Async.task A -> Prop :=
| makes_done (a : A) : makes_calls P (Async.Done a)
| makes_await (R : Type) (c : Async.call R) (k : Database.settled R -> Async.task A) :
    P R c -> (forall got, makes_calls P (k got)) -> makes_calls P (Async.Await c k).

(** Newest first, as instants. *)
Definition later_first (r1 r2 : Database.ScanRow) : Prop := (instant r2 <= instant r1)%Z.

(** A listing whose range bounds, where supplied, are the ISO texts of the
    instants [lo] and [hi]. *)
Definition iso_bound (o : option string) (bound : option Z) : Prop :=
  match bound with
  | Some a => JsDate.four_digit_year a /\ o = Some (JsDate.toISOString a)
  | None => o = None
  end.

(** The rows such a listing asks for: the supplied identifier and campaign,
    and an instant within the bounds, both inclusive. *)
Definition in_range_listing (f : Database.Filters) (lo hi : option Z)
  (r : Database.ScanRow) : Prop :=
  text_filter (Database.f_uid f) (String.eqb (Database.uid r)) = true /\
  text_filter (Database.f_campaign_id f) (String.eqb (Database.campaign_id r)) = true /\
  match lo with Some a => (a <= instant r)%Z | None => True end /\
  match hi with Some b => (instant r <= b)%Z | None => True end.

(** ** Requests in flight *)

(** The task finishes after at most [n] awaited calls. *)
Inductive within {A : Type} : nat -> Async.task A -> Prop :=
| within_done (n : nat) (a : A) : within n (Async.Done a)
| within_await (n : nat) (R : Type) (c : Async.call R)
    (k : Database.settled R -> Async.task A) :
    (forall got, within n (k got)) -> within (S n) (Async.Await c k).

(** The request was admitted: its scan was registered. *)
Definition admitted (o : option Pipeline.outcome) : bool :=
  match o with
  | Some (Pipeline.Answered (Pipeline.Registered _ _ _)) => true
  | _ => false
  end.

(** The first request is served to its end before the second starts. *)
Definition serial : list Async.who :=
  (repeat Async.First 5 ++ repeat Async.Second 5)%list.

(** Turn and turn about. *)
Definition alternating : list Async.who :=
  [Async.First; Async.Second; Async.First; Async.Second; Async.First;
   Async.Second; Async.First; Async.Second; Async.First; Async.Second].

(** ** The JSON body of POST /scan *)

Module Json.

(** A property of [req.body] as [express.json()] leaves it: missing, a
    JSON string, or a value of another JSON type (null, boolean, number,
    array, object).  The code tests and prints such a value through
    JavaScript's coercions and hands it to sqlite3 as it is. *)
Inductive property : Type :=
| Missing
| Text (s : string)
| Other.

Record Body : Type := mk_body { uid : property; campaign_id : property }.

Definition text_of_property (p : property) : option (option string) :=
  match p with
  | Missing => Some None
  | Text s => Some (Some s)
  | Other => None
  end.

(** The body as [Pipeline.Body] has it, for a request whose [uid] and
    [campaign_id] are strings or missing; for such a request no coercion
    takes place. *)
Definition text_body (b : Body) : option Pipeline.Body :=
  match text_of_property (uid b), text_of_property (campaign_id b) with
  | Some u, Some c => Some (Pipeline.mk_body u c)
  | _, _ => None
  end.

End Json.

(** ** routes: GET /export/csv *)

Module CsvExport.

Import Database Async.

Definition newline : string := String (ascii_of_nat 10) EmptyString.

(** [lines.join(sep)]. *)
Fixpoint join (sep : string) (l : list string) : string :=
  match l with
  | [] => EmptyString
  | [x] => x
  | x :: rest => (x ++ sep ++ join sep rest)%string
  end.

Definition csvHeader : string :=
  ("Scan ID,UID,Campaign ID,Timestamp,Checksum,Verified" ++ newline)%string.

(** One line of the file.  The [verified] column comes back from SQLite as
    the integer it was stored as, so the template prints 1 or 0. *)
Definition csv_line (scan : ScanRow) : string :=
  (scan_id scan ++ "," ++ uid scan ++ "," ++ campaign_id scan ++ "," ++
   timestamp scan ++ "," ++ checksum scan ++ "," ++
   (if verified scan then "1" else "0"))%string.

(** What the route sends: the file with its name, or the 500 answer. *)
Inductive answer : Type :=
| File (filename content : string)
| Failed (message : string) (error : sqlite_error).

(** [date || new Date().toISOString().split('T')[0]]. *)
Definition targetDate (now : Z) (date : option string) : string :=
  match truthy_text date with
  | Some d => d
  | None => JsDate.before_T (JsDate.toISOString now)
  end.

(** The handler of GET /export/csv (after the API key check), with the
    reading [now] of its clock. *)
Definition csvHandler (now : Z) (date campaign : option string) : task answer :=
  let target := targetDate now date in
  let filters :=
    mk_filters None (truthy_text campaign)
               (Some (target ++ "T00:00:00.000Z")%string)
               (Some (target ++ "T23:59:59.999Z")%string) None None in
  Await (call_getScans filters) (fun got =>
  match got with
  | Rejected error => Done (Failed "Failed to export CSV" error)
  | Resolved rows =>
      Done (File ("neocard_scans_" ++ target ++ ".csv")%string
                 (csvHeader ++ join newline (map csv_line rows))%string)
  end).

End CsvExport.

(** ** middleware: authenticateApiKey, and the api_keys table *)

Module Auth.

Import Database Async.
Local Open Scope list_scope.

(** A row of [api_keys], with the columns the statements name. *)
Record ApiKey : Type := mk_api_key {
  key_name : string;
  api_key : string;
  permissions : string;
  active : bool
}.

(** A row of [campaigns], likewise. *)
Record Campaign : Type := mk_campaign {
  c_campaign_id : string;
  c_name : string;
  c_description : string;
  c_active : bool
}.

(** The two tables [seedInitialData] writes. *)
Record Tables : Type := mk_tables {
  api_keys : list ApiKey;
  campaigns : list Campaign
}.

(** One row of an [INSERT OR IGNORE] into a table whose column [key_of] is
    declared UNIQUE: a row whose key is already there is skipped. *)
Definition insert_or_ignore {A : Type} (key_of : A -> string) (row : A) (table : list A)
  : list A :=
  if existsb (fun r => String.eqb (key_of r) (key_of row)) table then table
  else table ++ [row].

(** The statement [insertApiKeys]; [active] defaults to 1. *)
Definition insertApiKeys (table : list ApiKey) : list ApiKey :=
  insert_or_ignore api_key
    (mk_api_key "Sponsor Demo Key" "neocard_sponsor_demo_key_2024" "sponsor" true)
    (insert_or_ignore api_key
       (mk_api_key "Admin Demo Key" "neocard_admin_demo_key_2024" "admin" true) table).

(** The statement [insertCampaigns]. *)
Definition insertCampaigns (table : list Campaign) : list Campaign :=
  insert_or_ignore c_campaign_id
    (mk_campaign "DEMO02" "Demo Campaign 2" "Another sample campaign" true)
    (insert_or_ignore c_campaign_id
       (mk_campaign "DEMO01" "Demo Campaign 1" "Sample campaign for testing" true) table).

(** [db.exec(sql, callback)]: the statements run in order; the first one
    that fails ends the run and its error goes to the callback, what the
    statements before it wrote stays, and the failing statement writes
    nothing.  [failing] is the position of the statement that meets a
    storage failure, if one does. *)
Fixpoint exec (statements : list (Tables -> Tables)) (failing : option nat) (t : Tables)
  : settled unit * Tables :=
  match statements with
  | [] => (Resolved tt, t)
  | statement :: rest =>
      match failing with
      | Some O => (Rejected SQLITE_IOERR, t)
      | Some (S n) => exec rest (Some n) (statement t)
      | None => exec rest None (statement t)
      end
  end.

(** [seedInitialData]: [this.db.exec(insertApiKeys + insertCampaigns, ...)],
    rejecting with the error of a failed run. *)
Definition seedInitialData (failing : option nat) (t : Tables) : settled unit * Tables :=
  exec [fun t => mk_tables (insertApiKeys (api_keys t)) (campaigns t);
        fun t => mk_tables (api_keys t) (insertCampaigns (campaigns t))]
       failing t.

(** [validateApiKey]: [db.get] on
    ['SELECT * FROM api_keys WHERE api_key = ? AND active = 1'], the first
    such row or undefined. *)
Definition validateApiKey (table : list ApiKey) (apiKey : string)
  : Promise (option ApiKey) :=
  fun st =>
    let (fault, st') := enter st in
    if fault then (Rejected SQLITE_IOERR, st')
    else (Resolved (find (fun r => String.eqb (api_key r) apiKey && active r) table), st').

(** The rest of [s] after [pattern], when [s] starts with it. *)
Fixpoint strip_prefix (pattern s : string) : option string :=
  match pattern, s with
  | EmptyString, _ => Some s
  | String a pattern', String b s' =>
      if Ascii.eqb a b then strip_prefix pattern' s' else None
  | String _ _, EmptyString => None
  end.

(** [s.replace(pattern, replacement)] with a text pattern: the first
    occurrence is replaced. *)
Fixpoint replace (pattern replacement s : string) : string :=
  match strip_prefix pattern s with
  | Some rest => (replacement ++ rest)%string
  | None =>
      match s with
      | EmptyString => EmptyString
      | String c rest => String c (replace pattern replacement rest)
      end
  end.

(** The request headers the middleware reads; an absent header is [None]. *)
Record Headers : Type := mk_headers {
  x_api_key : option string;
  authorization : option string
}.

(** [req.headers['x-api-key'] || req.headers['authorization']?.replace('Bearer ', '')],
    and then [!apiKey]: [None] when there is no key to check. *)
Definition presented_key (h : Headers) : option string :=
  match truthy_text (x_api_key h) with
  | Some k => Some k
  | None => truthy_text (option_map (replace "Bearer " EmptyString) (authorization h))
  end.

(** How a guarded route answers. *)
Inductive guarded (A : Type) : Type :=
| MISSING_API_KEY                                    (* 401 *)
| INVALID_API_KEY                                    (* 401 *)
| VALIDATION_ERROR                                   (* 500 *)
| Passed (apiKey : string) (apiKeyData : ApiKey) (a : A).
Arguments MISSING_API_KEY {A}.
Arguments INVALID_API_KEY {A}.
Arguments VALIDATION_ERROR {A}.
Arguments Passed {A} apiKey apiKeyData a.

(** [router.get(path, authenticateApiKey, handler)]: the handler runs when
    the middleware calls [next()]. *)
Definition route {A : Type} (table : list ApiKey) (h : Headers) (handler : task A)
  : Store -> guarded A * Store :=
  fun st =>
    match presented_key h with
    | None => (MISSING_API_KEY, st)
    | Some apiKey =>
        match validateApiKey table apiKey st with
        | (Rejected _, st') => (VALIDATION_ERROR, st')
        | (Resolved None, st') => (INVALID_API_KEY, st')
        | (Resolved (Some keyData), st') =>
            let (a, st'') := run handler st' in (Passed apiKey keyData a, st'')
        end
    end.

End Auth.

(** ** Calendar days *)

(** The UTC calendar day of an instant, as [toISOString] writes it before
    the [T]. *)
Definition date_text (t : Z) : string :=
  (JsDate.pad 4 (JsDate.tm_year (JsDate.fields_of_time t)) ++ "-" ++
   JsDate.pad 2 (JsDate.tm_month (JsDate.fields_of_time t)) ++ "-" ++
   JsDate.pad 2 (JsDate.tm_date (JsDate.fields_of_time t)))%string.

(** Two instants fall on the same UTC calendar day. *)
Definition same_day (t t' : Z) : bool := (JsDate.Day t =? JsDate.Day t')%Z.

(** The rows of identifier [u] admitted on the UTC day of [now]. *)
Definition scans_of_day (u : string) (now : Z) (rows : list Database.ScanRow)
  : list Database.ScanRow :=
  filter (fun r => String.eqb (Database.uid r) u && same_day (instant r) now) rows.

(** The cooldown is over for identifier [u]: it has no row, or its most
    recent record is at least the window old at the cooldown reading. *)
Definition cooldown_over (antifraud : Config.antifraud) (rd : Pipeline.Readings)
  (u : string) (st : Database.Store) : Prop :=
  (forall r, In r (Database.scans st) -> Database.uid r <> u) \/
  exists r t,
    most_recent_record st u r t /\
    (Config.cooldownMinutes antifraud * JsDate.msPerMinute <= Pipeline.at_cooldown rd - t)%Z.

(** A call that only reads. *)
Definition reads_only {R : Type} (c : Async.call R) : Prop :=
  match c with Async.call_insertScan _ => False | _ => True end.

(** The listing of one identifier. *)
Definition filters_for_uid (u : string) : Database.Filters :=
  Database.mk_filters (Some u) None None None None None.

(** ** Checksums and cooldown, for the properties below *)

(** A hex digit in upper case; any other character as it is. *)
Definition upper_hex_digit (c : ascii) : ascii :=
  if in_range "a" "f" c then ascii_of_nat (code c - 32) else c.

Fixpoint upper_hex (s : string) : string :=
  match s with
  | EmptyString => EmptyString
  | String c rest => String (upper_hex_digit c) (upper_hex rest)
  end.

(** ** What one POST /scan request writes *)

(** The record the route handler builds for a request. *)
Definition request_record (secret : string) (rd : Pipeline.Readings) (body : Pipeline.Body)
  : Database.ScanData :=
  let u := Pipeline.text_of (Pipeline.body_uid body) in
  let campaign := Pipeline.text_of (Pipeline.body_campaign_id body) in
  let timestamp := JsDate.toISOString (Pipeline.at_admission rd) in
  Database.mk_scan
    (Cooldown.generateScanId (Pipeline.at_scan_id rd) (Pipeline.random_hex rd))
    u campaign timestamp
    (Checksum.generateAEIChecksum u timestamp campaign secret) true.

(** The answer is one of the rejections that come before the handler:
    a validation failure or a policy rejection. *)
Definition rejected_before_handler (o : Pipeline.outcome) : Prop :=
  match o with
  | Pipeline.Answered Pipeline.MISSING_UID
  | Pipeline.Answered Pipeline.MISSING_CAMPAIGN_ID
  | Pipeline.Answered Pipeline.INVALID_UID_FORMAT
  | Pipeline.Answered (Pipeline.COOLDOWN_ACTIVE _ _)
  | Pipeline.Answered (Pipeline.DAILY_LIMIT_EXCEEDED _ _)
  | Pipeline.Errored _ => True
  | _ => False
  end.

(** A row as the pipeline seals it under [secret]: a valid identifier, a
    campaign, the verified flag, and a checksum that verifies. *)
Definition sealed (secret : string) (r : Database.ScanRow) : Prop :=
  Utils.isValidUID (Database.uid r) = true /\
  Database.campaign_id r <> EmptyString /\
  Database.verified r = true /\
  Checksum.verifyAEIChecksum (Database.uid r) (Database.timestamp r)
    (Database.campaign_id r) (Database.checksum r) secret = Crypto.Returns true.

(** The ledgers written, under one secret, by POST /scan requests whose
    [uid] and [campaign_id] are JSON strings (or missing), with reads in
    between. *)
Inductive sealed_ledger (secret : string) : Database.Store -> Prop :=
| sealed_start (script : list bool) : sealed_ledger secret (Database.empty_store script)
| sealed_request (st : Database.Store) (antifraud : Config.antifraud)
    (rd : Pipeline.Readings) (json : Json.Body) (body : Pipeline.Body) :
    sealed_ledger secret st ->
    Json.text_body json = Some body ->
    sealed_ledger secret (snd (Async.run (Pipeline.postScan antifraud secret rd body) st))
| sealed_read (st : Database.Store) (R : Type) (c : Async.call R) :
    sealed_ledger secret st -> reads_only c ->
    sealed_ledger secret (snd (Async.perform c st)).

(** An append writes a sealed row. *)
Definition seals_only (secret : string) (R : Type) (c : Async.call R) : Prop :=
  match c with
  | Async.call_insertScan d => forall key, sealed secret (row_of key d)
  | _ => True
  end.

(** ** GET /logs *)

(** The filters the listing route hands to [getScans]. *)
Definition logs_filters (q : Pipeline.LogsQuery) : Database.Filters :=
  Database.mk_filters
    (Database.truthy_text (Pipeline.q_uid q))
    (Database.truthy_text (Pipeline.q_campaign_id q))
    (Database.truthy_text (Pipeline.q_start_date q))
    (Database.truthy_text (Pipeline.q_end_date q))
    (Pipeline.q_limit q) (Pipeline.q_offset q).

(** The rows the listing's filters select, in table order. *)
Definition logs_selected (q : Pipeline.LogsQuery) (st : Database.Store)
  : list Database.ScanRow :=
  filter (sql_matches (logs_filters q)) (Database.scans st).

(** [listing] holds the rows of [selected], each once, newest first as
    [ORDER BY timestamp DESC] compares them; rows with equal timestamps
    may stand in any order. *)
Definition newest_first_listing (selected listing : list Database.ScanRow) : Prop :=
  Permutation selected listing /\ StronglySorted newer_first listing.

(** ** GET /stats *)

(** The rows whose instant falls on the UTC calendar day of [t]. *)
Definition rows_of_day (t : Z) (rows : list Database.ScanRow) : list Database.ScanRow :=
  filter (fun r => same_day (instant r) t) rows.

(** [l] lists the identifiers of [rows], each once. *)
Definition identifiers_of (rows : list Database.ScanRow) (l : list string) : Prop :=
  NoDup l /\ forall u, In u l <-> exists r, In r rows /\ Database.uid r = u.

(** The five queries of [getStats] all go through. *)
Definition stats_calls_succeed (st : Database.Store) : Prop :=
  forall n, (n < 5)%nat -> fault_at n st = false.

(** ** Requests in flight, whatever the schedule *)

(** The task appends at most [n] times, and only the record [d]; its other
    calls are reads. *)
Inductive appends (d : Database.ScanData) {A : Type} : nat -> Async.task A -> Prop :=
| appends_done (n : nat) (a : A) : appends d n (Async.Done a)
| appends_read (n : nat) (R : Type) (c : Async.call R)
    (k : Database.settled R -> Async.task A) :
    reads_only c -> (forall got, appends d n (k got)) -> appends d n (Async.Await c k)
| appends_insert (n : nat) (k : Database.settled Database.RunResult -> Async.task A) :
    (forall got, appends d n (k got)) ->
    appends d (S n) (Async.Await (Async.call_insertScan d) k).

(** Two POST /scan requests in flight on [st]. *)
Definition two_requests (antifraud : Config.antifraud) (secret : string)
  (rd1 rd2 : Pipeline.Readings) (body1 body2 : Pipeline.Body) (st : Database.Store)
  : Async.flight Pipeline.outcome :=
  Async.mk_flight (Pipeline.postScan antifraud secret rd1 body1)
                  (Pipeline.postScan antifraud secret rd2 body2) st.

(** [r] is the row of record [d] under some key. *)
Definition row_of_record (d : Database.ScanData) (r : Database.ScanRow) : Prop :=
  exists key, r = row_of key d.

(** ** GET /export/csv *)

(** The rows of campaign [campaign] (any campaign when it is not supplied)
    whose instant falls on the UTC calendar day of [a]. *)
Definition export_rows (campaign : option string) (a : Z) (rows : list Database.ScanRow)
  : list Database.ScanRow :=
  filter (fun r => text_filter campaign (String.eqb (Database.campaign_id r))
                   && same_day (instant r) a) rows.

(** Reading a line back: [line.split(sep)] for a one-character separator,
    and the number of separators in a text. *)
Fixpoint split_on (sep : ascii) (s : string) : list string :=
  match s with
  | EmptyString => [EmptyString]
  | String c rest =>
      if Ascii.eqb c sep then EmptyString :: split_on sep rest
      else match split_on sep rest with
           | field :: fields => String c field :: fields
           | [] => [String c EmptyString]
           end
  end.

Fixpoint count_char (sep : ascii) (s : string) : nat :=
  match s with
  | EmptyString => 0
  | String c rest => (if Ascii.eqb c sep then 1 else 0) + count_char sep rest
  end.

(** The six values of a row, as the file shows them. *)
Definition csv_fields (r : Database.ScanRow) : list string :=
  [Database.scan_id r; Database.uid r; Database.campaign_id r; Database.timestamp r;
   Database.checksum r; if Database.verified r then "1" else "0"].

(** ** Guarded routes *)

(** The table with the [permissions] (and names) of its keys rewritten. *)
Definition relabel (g : Auth.ApiKey -> string * string) (table : list Auth.ApiKey)
  : list Auth.ApiKey :=
  map (fun r => Auth.mk_api_key (fst (g r)) (Auth.api_key r) (snd (g r)) (Auth.active r))
      table.

(** What the handler answered, when the request got as far as the handler. *)
Definition handled {A : Type} (g : Auth.guarded A) : option (string * A) :=
  match g with
  | Auth.Passed apiKey _ a => Some (apiKey, a)
  | _ => None
  end.

(** The code of a refusal. *)
Definition refusal {A : Type} (g : Auth.guarded A) : option nat :=
  match g with
  | Auth.MISSING_API_KEY | Auth.INVALID_API_KEY => Some 401%nat
  | Auth.VALIDATION_ERROR => Some 500%nat
  | Auth.Passed _ _ _ => None
  end.

(** The key arrives in one of the ways the middleware reads: in
    [x-api-key]; or, with no [x-api-key], in [authorization], after
    ['Bearer '] or bare. *)
Definition carries (h : Auth.Headers) (k : string) : Prop :=
  Auth.x_api_key h = Some k \/
  (Database.truthy_text (Auth.x_api_key h) = None /\
   (Auth.authorization h = Some ("Bearer " ++ k)%string \/
    (Auth.authorization h = Some k /\ count_char "B" k = 0%nat))).

(** ** Scan ids *)

(** The character stands in no decimal text. *)
Definition not_decimal (c : ascii) : Prop :=
  forall n : Z, count_char c (Cooldown.decimal n) = 0%nat.

(** ** The day count of a registered answer *)

(** The rows whose UTC day lies between the days of [s] and [e]. *)
Definition rows_between_days (s e : Z) (rows : list Database.ScanRow)
  : list Database.ScanRow :=
  filter (fun r => (JsDate.Day s <=? JsDate.Day (instant r))%Z &&
                   (JsDate.Day (instant r) <=? JsDate.Day e)%Z) rows.

(** The clock readings a registered answer depends on show four-digit years. *)
Definition handler_clock_in_range (rd : Pipeline.Readings) : Prop :=
  JsDate.four_digit_year (Pipeline.at_admission rd) /\
  JsDate.four_digit_year (Pipeline.at_range_start rd) /\
  JsDate.four_digit_year (Pipeline.at_range_end rd).

(** ** The seeded tables *)

(** Some row of the table holds the key. *)
Definition holds_key {A : Type} (key_of : A -> string) (table : list A) (key : string) : bool :=
  existsb (fun r => String.eqb (key_of r) key) table.

(** No two rows hold the same key, as the UNIQUE column demands. *)
Definition unique_by {A : Type} (key_of : A -> string) (table : list A) : Prop :=
  NoDup (map key_of table).

(** [after] is [before] with at most two rows put behind it, each with a
    key that [before] did not hold. *)
Definition grown_by_missing {A : Type} (key_of : A -> string) (before after : list A)
  : Prop :=
  exists added,
    after = (before ++ added)%list /\ (List.length added <= 2)%nat /\
    Forall (fun r => holds_key key_of before (key_of r) = false) added.

(** Both demo keys and both sample campaigns are there. *)
Definition seeded (t : Auth.Tables) : Prop :=
  holds_key Auth.api_key (Auth.api_keys t) "neocard_admin_demo_key_2024" = true /\
  holds_key Auth.api_key (Auth.api_keys t) "neocard_sponsor_demo_key_2024" = true /\
  holds_key Auth.c_campaign_id (Auth.campaigns t) "DEMO01" = true /\
  holds_key Auth.c_campaign_id (Auth.campaigns t) "DEMO02" = true.

(** ** Two requests in flight: whose read sees whose append

    A POST /scan request that is admitted takes five turns: the cooldown
    read ([getLastScanTime]), the day count, the append ([insertScan]) and
    the handler's two listings.  So its first turn is its cooldown read and
    its third turn its append. *)

Definition other (w : Async.who) : Async.who :=
  match w with Async.First => Async.Second | Async.Second => Async.First end.

Definition is_turn_of (w v : Async.who) : bool :=
  match w, v with
  | Async.First, Async.First | Async.Second, Async.Second => true
  | _, _ => false
  end.

(** The number of turns a schedule gives to request [w]. *)
Definition turns_of (w : Async.who) (schedule : list Async.who) : nat :=
  List.length (filter (is_turn_of w) schedule).

Definition task_of {A : Type} (w : Async.who) (f : Async.flight A) : Async.task A :=
  match w with Async.First => Async.first f | Async.Second => Async.second f end.

(** Both requests get the turns they need to be answered. *)
Definition served_to_the_end (schedule : list Async.who) : Prop :=
  (5 <= turns_of Async.First schedule)%nat /\ (5 <= turns_of Async.Second schedule)%nat.

(** The append of request [ahead] comes before the cooldown read of the
    other request: [ahead] takes the first three turns. *)
Definition append_precedes_read (ahead : Async.who) (schedule : list Async.who) : Prop :=
  firstn 3 schedule = repeat ahead 3.

(** Both cooldown reads come before either append: each request has a turn
    among the first three. *)
Definition reads_precede_appends (schedule : list Async.who) : Prop :=
  In Async.First (firstn 3 schedule) /\ In Async.Second (firstn 3 schedule).

(** The answer is a cooldown rejection. *)
Definition cooldown_rejection (o : Pipeline.outcome) : Prop :=
  exists minutes last, o = Pipeline.Answered (Pipeline.COOLDOWN_ACTIVE minutes last).

(** A task that can no longer answer with a cooldown rejection. *)
Inductive never_cooldown : Async.task Pipeline.outcome -> Prop :=
| never_cooldown_done (o : Pipeline.outcome) :
    ~ cooldown_rejection o -> never_cooldown (Async.Done o)
| never_cooldown_await (R : Type) (c : Async.call R)
    (k : Database.settled R -> Async.task Pipeline.outcome) :
    (forall got, never_cooldown (k got)) -> never_cooldown (Async.Await c k).

(** The task ends with [a] within [n] turns on [st], and none of its calls
    changes [st]. *)
Fixpoint stable {A : Type} (n : nat) (st : Database.Store) (t : Async.task A) (a : A)
  {struct n} : Prop :=
  match t with
  | Async.Done b => b = a
  | Async.Await c k =>
      match n with
      | O => False
      | S n' =>
          snd (Async.perform c st) = st /\
          stable n' st (k (fst (Async.perform c st))) a
      end
  end.

(** The first [n] calls of the task are reads. *)
Fixpoint reads_first {A : Type} (n : nat) (t : Async.task A) {struct n} : Prop :=
  match n with
  | O => True
  | S n' =>
      match t with
      | Async.Done _ => True
      | Async.Await c k => reads_only c /\ forall got, reads_first n' (k got)
      end
  end.

(** After its first [n] calls the task only reads. *)
Fixpoint reads_after {A : Type} (n : nat) (t : Async.task A) {struct n} : Prop :=
  match n with
  | O => makes_calls (fun R c => reads_only c) t
  | S n' =>
      match t with
      | Async.Done _ => True
      | Async.Await c k => forall got, reads_after n' (k got)
      end
  end.

(** [n] turns of one task, one after the other. *)
Fixpoint turns {A : Type} (n : nat) (t : Async.task A) (st : Database.Store)
  : Async.task A * Database.Store :=
  match n with
  | O => (t, st)
  | S n' => let (t', st') := Async.turn t st in turns n' t' st'
  end.

(** The flight with the two requests in each other's place. *)
Definition swap {A : Type} (f : Async.flight A) : Async.flight A :=
  Async.mk_flight (Async.second f) (Async.first f) (Async.shared f).

(** * Properties *)


(** ** Proof tools *)

(** A number below [k] is one of the first [k] naturals. *)
Lemma in_below (k : nat) (n : Z) : (0 <= n < Z.of_nat k)%Z -> In n (map Z.of_nat (seq 0 k)).
Proof.
  intros H. apply in_map_iff. exists (Z.to_nat n).
  split; [lia | apply in_seq; lia].
Qed.

(** Settle a goal about a number below [k] by trying each value. *)
Ltac each_below k H :=
  apply (in_below k) in H; cbn in H;
  repeat (destruct H as [H|H]; [subst; reflexivity|]); destruct H.

Section ValidatorProofs.

Import Utils.

Lemma uid_class_alnum c : uid_class c = is_ascii_alnum c.
Proof.
  unfold uid_class, is_ascii_alnum, is_ascii_letter, is_ascii_digit, in_range.
  change (code "A") with 65%nat. change (code "Z") with 90%nat.
  change (code "a") with 97%nat. change (code "z") with 122%nat.
  change (code "0") with 48%nat. change (code "9") with 57%nat.
  reflexivity.
Qed.

Lemma match_anchored_rep_spec cls s : forall lo hi,
  match_anchored_rep cls lo hi s = true <->
  (lo <= String.length s <= hi)%nat /\ Forall (fun c => cls c = true) (chars s).
Proof.
  induction s as [|c rest IH]; intros lo hi;
    cbn [match_anchored_rep String.length chars list_ascii_of_string].
  - split.
    + intros H. apply Nat.eqb_eq in H. subst lo. split; [lia | constructor].
    + intros [H _]. apply Nat.eqb_eq. lia.
  - destruct hi as [|hi'].
    + split; [discriminate | intros [H _]; lia].
    + rewrite andb_true_iff, IH. split.
      * intros [Hc [Hlen Hall]]. split; [lia | constructor; assumption].
      * intros [Hlen Hall]. inversion Hall; subst.
        repeat split; try assumption; lia.
Qed.

End ValidatorProofs.

(** C3. The identifier validator accepts a string exactly when it has
    8 to 16 characters, each an ASCII letter or digit; so a string that is
    shorter than 8, longer than 16, or holds any other character is
    rejected; and the request check lets a body with a campaign through
    exactly when its identifier is accepted. *)
Theorem isValidUID_iff_8_16_alnum (s : string) :
  (Utils.isValidUID s = true <-> spec_valid_identifier s) /\
  ((String.length s < 8)%nat \/ (16 < String.length s)%nat \/
     Exists (fun c => is_ascii_alnum c = false) (chars s) <->
   Utils.isValidUID s = false) /\
  (forall campaign : string,
     Pipeline.validateScanRequest (Pipeline.mk_body (Some s) (Some campaign)) = Pipeline.Next
     <-> spec_valid_identifier s /\ campaign <> EmptyString).
Proof.
  assert (Hiff : Utils.isValidUID s = true <-> spec_valid_identifier s).
  { unfold Utils.isValidUID, spec_valid_identifier.
    rewrite match_anchored_rep_spec.
    split; intros [Hl Ha]; split; try assumption;
      eapply Forall_impl; try exact Ha; intros c; cbv beta;
      rewrite uid_class_alnum; trivial. }
  split; [exact Hiff|].
  split; [|
    intros campaign; rewrite <- Hiff; unfold Pipeline.validateScanRequest; simpl;
    destruct s as [|c0 s0]; [simpl; split; [discriminate | intros [Hv _]; discriminate]|];
    simpl String.eqb;
    destruct campaign as [|c1 k1]; simpl;
      [split; [discriminate | intros [_ Hc]; congruence]|];
    destruct (Utils.isValidUID (String c0 s0));
      [split; [intros _; split; [reflexivity | discriminate] | reflexivity]
      |split; [discriminate | intros [Hv _]; discriminate]]].
  unfold spec_valid_identifier in Hiff.
  split.
  - intros H. destruct (Utils.isValidUID s) eqn:E; [|reflexivity].
    exfalso. destruct (proj1 Hiff eq_refl) as [Hl Ha].
    destruct H as [H|[H|H]]; try lia.
    apply Exists_exists in H. destruct H as [c [Hin Hc]].
    rewrite Forall_forall in Ha. rewrite (Ha c Hin) in Hc. discriminate.
  - intros Hf.
    destruct (le_lt_dec 8 (String.length s)) as [H8|H8]; [|left; assumption].
    destruct (le_lt_dec (String.length s) 16) as [H16|H16]; [|right; left; assumption].
    right; right.
    destruct (Exists_dec (fun c => is_ascii_alnum c = false) (chars s)) as [He|Hne].
    + intros c. destruct (is_ascii_alnum c); [right; discriminate | left; reflexivity].
    + exact He.
    + exfalso. assert (Ht : Utils.isValidUID s = true).
      { apply Hiff. split; [lia|].
        apply Forall_forall. intros c Hin.
        destruct (is_ascii_alnum c) eqn:Ec; [reflexivity|].
        exfalso. apply Hne. apply Exists_exists. exists c. split; assumption. }
      rewrite Ht in Hf. discriminate.
Qed.

Section CryptoFacts.
Import Crypto.
Local Open Scope Z_scope.

Example sha256_abc :
  hex_encode (sha256 (bytes_of_string "abc")) =
  "ba7816bf8f01cfea414140de5dae2223b00361a396177a9cb410ff61f20015ad"%string.
Proof. vm_compute. reflexivity. Qed.

Example sha256_two_blocks :
  hex_encode (sha256 (bytes_of_string
     "abcdbcdecdefdefgefghfghighijhijkijkljklmklmnlmnomnopnopq")) =
  "248d6a61d20638b8e5c026930c3e6039a33ce45964ff2167f6ecedd419db06c1"%string.
Proof. vm_compute. reflexivity. Qed.

Example hmac_rfc4231_case2 :
  hex_encode (hmac_sha256 (bytes_of_string "Jefe")
                          (bytes_of_string "what do ya want for nothing?")) =
  "5bdcc146bf60754e6a042426089575c75a003f089d2739839dec58b964ec3843"%string.
Proof. vm_compute. reflexivity. Qed.

Example hmac_rfc4231_case6_long_key :
  hex_encode (hmac_sha256 (repeat 170 131)
                (bytes_of_string "Test Using Larger Than Block-Size Key - Hash Key First")) =
  "60e431591ee0b67f0d8a26aacbf5b77f8e0bc6213728c5140546040f0ee37f54"%string.
Proof. vm_compute. reflexivity. Qed.

Lemma chars_app (a b : string) : chars (a ++ b) = (chars a ++ chars b)%list.
Proof.
  unfold chars. induction a as [|c a IH]; simpl; [reflexivity | now rewrite IH].
Qed.

Lemma length_chars (s : string) : List.length (chars s) = String.length s.
Proof.
  unfold chars. induction s as [|c s IH]; simpl; [reflexivity | now rewrite IH].
Qed.

Lemma bytes_of_string_app (a b : string) :
  bytes_of_string (a ++ b) = (bytes_of_string a ++ bytes_of_string b)%list.
Proof. unfold bytes_of_string. now rewrite chars_app, map_app. Qed.

Lemma bytes_of_word_is_byte (w : Z) : Forall is_byte (bytes_of_word w).
Proof.
  unfold bytes_of_word, is_byte.
  repeat constructor; apply Z.mod_pos_bound; lia.
Qed.

Lemma digest_bytes_is_byte (h : hash_state) : Forall is_byte (digest_bytes h).
Proof.
  unfold digest_bytes.
  repeat (apply Forall_app; split); apply bytes_of_word_is_byte.
Qed.

Lemma length_digest_bytes (h : hash_state) : List.length (digest_bytes h) = 32%nat.
Proof. reflexivity. Qed.

Lemma length_hmac_sha256 (key data : buffer) : List.length (hmac_sha256 key data) = 32%nat.
Proof. reflexivity. Qed.

Lemma hmac_sha256_is_byte (key data : buffer) : Forall is_byte (hmac_sha256 key data).
Proof. apply digest_bytes_is_byte. Qed.

Lemma unhex_hex_digit (n : Z) : 0 <= n < 16 -> unhex (hex_digit n) = Some n.
Proof. intros H. each_below 16%nat H. Qed.

Lemma hex_digit_lower (n : Z) : 0 <= n < 16 -> is_lower_hex (hex_digit n) = true.
Proof. intros H. each_below 16%nat H. Qed.

Lemma length_hex_encode (bs : buffer) :
  String.length (hex_encode bs) = (2 * List.length bs)%nat.
Proof. induction bs as [|b bs IH]; simpl; [reflexivity | rewrite IH; lia]. Qed.

Lemma hex_encode_lower (bs : buffer) :
  Forall is_byte bs -> Forall (fun c => is_lower_hex c = true) (chars (hex_encode bs)).
Proof.
  induction 1 as [|b bs Hb _ IH]; simpl; [constructor|].
  unfold is_byte in Hb.
  constructor; [apply hex_digit_lower | constructor; [apply hex_digit_lower | exact IH]].
  - split; [apply Z.div_pos; lia | apply Z.div_lt_upper_bound; lia].
  - apply Z.mod_pos_bound; lia.
Qed.

Lemma hex_decode_encode (bs : buffer) :
  Forall is_byte bs -> hex_decode (hex_encode bs) = bs.
Proof.
  induction 1 as [|b bs Hb _ IH]; simpl; [reflexivity|].
  unfold is_byte in Hb.
  rewrite !unhex_hex_digit, IH.
  - f_equal. pose proof (Z.div_mod b 16). lia.
  - apply Z.mod_pos_bound; lia.
  - split; [apply Z.div_pos; lia | apply Z.div_lt_upper_bound; lia].
Qed.

Lemma is_lower_hex_is_hex c : is_lower_hex c = true -> is_hex c = true.
Proof. unfold is_lower_hex, is_hex. intros ->. reflexivity. Qed.

Lemma unhex_is_hex c : is_hex c = true <-> exists v, unhex c = Some v.
Proof.
  unfold is_hex, unhex, in_range.
  change (code "0") with 48%nat. change (code "9") with 57%nat.
  change (code "a") with 97%nat. change (code "f") with 102%nat.
  change (code "A") with 65%nat. change (code "F") with 70%nat.
  generalize (code c); intros n.
  rewrite !orb_true_iff, !andb_true_iff, !Nat.leb_le.
  destruct (Z.leb_spec 48 (Z.of_nat n)); destruct (Z.leb_spec (Z.of_nat n) 57); simpl;
    try (split; [intros _; eexists; reflexivity | intros _; lia]);
  (destruct (Z.leb_spec 97 (Z.of_nat n)); destruct (Z.leb_spec (Z.of_nat n) 102); simpl;
    try (split; [intros _; eexists; reflexivity | intros _; lia]));
  (destruct (Z.leb_spec 65 (Z.of_nat n)); destruct (Z.leb_spec (Z.of_nat n) 70); simpl;
    try (split; [intros _; eexists; reflexivity | intros _; lia]));
  (split; [intros Hor; exfalso; lia | intros [v Hv]; discriminate]).
Qed.

End CryptoFacts.

Section ChecksumFacts.
Import Crypto Checksum.

Lemma hex_decode_nil_iff (p : string) :
  hex_decode p = [] <-> starts_with_hex_pair p = false.
Proof.
  destruct p as [|c1 [|c2 r]]; simpl; try tauto.
  destruct (is_hex c1) eqn:E1.
  - apply unhex_is_hex in E1. destruct E1 as [a ->].
    destruct (is_hex c2) eqn:E2.
    + apply unhex_is_hex in E2. destruct E2 as [b ->]. simpl. split; discriminate.
    + destruct (unhex c2) as [b|] eqn:U2; [|simpl; tauto].
      assert (is_hex c2 = true) by (apply unhex_is_hex; eauto). congruence.
  - destruct (unhex c1) as [a|] eqn:U1; [|simpl; tauto].
    assert (is_hex c1 = true) by (apply unhex_is_hex; eauto). congruence.
Qed.

Lemma hex_decode_length_iff (n : nat) : forall p : string,
  List.length (hex_decode p) = n <->
  exists h rest : string,
    p = h ++ rest /\ String.length h = (2 * n)%nat /\
    Forall (fun c => is_hex c = true) (chars h) /\
    starts_with_hex_pair rest = false.
Proof.
  induction n as [|n IH]; intros p.
  - split.
    + intros H. apply length_zero_iff_nil in H. apply hex_decode_nil_iff in H.
      exists EmptyString, p. repeat split; [constructor | assumption].
    + intros (h & rest & -> & Hl & _ & Hs).
      destruct h; [|discriminate]. simpl.
      apply hex_decode_nil_iff in Hs. now rewrite Hs.
  - split.
    + intros H. destruct p as [|c1 [|c2 r]]; try discriminate.
      simpl in H.
      destruct (unhex c1) as [a|] eqn:U1; [|discriminate].
      destruct (unhex c2) as [b|] eqn:U2; [|discriminate].
      simpl in H. injection H as H. apply IH in H.
      destruct H as (h & rest & -> & Hl & Hh & Hs).
      exists (String c1 (String c2 h)), rest.
      repeat split; simpl; try assumption; [lia|].
      constructor; [apply unhex_is_hex; eauto|].
      constructor; [apply unhex_is_hex; eauto | exact Hh].
    + intros (h & rest & -> & Hl & Hh & Hs).
      destruct h as [|c1 [|c2 h]]; try (simpl in Hl; lia).
      simpl in Hh. inversion Hh as [|? ? H1 Hh']; subst.
      inversion Hh' as [|? ? H2 Hh'']; subst.
      apply unhex_is_hex in H1, H2. destruct H1 as [a U1], H2 as [b U2].
      simpl. rewrite U1, U2. simpl. f_equal.
      apply IH. exists h, rest. repeat split; try assumption.
      simpl in Hl. lia.
Qed.

Lemma hex_decode_generateAEIChecksum uid ts c key :
  hex_decode (generateAEIChecksum uid ts c key) =
  hmac_sha256 (bytes_of_string key) (bytes_of_string (uid ++ ts ++ c)).
Proof. unfold generateAEIChecksum. apply hex_decode_encode, hmac_sha256_is_byte. Qed.

Lemma verifyAEIChecksum_eq uid ts c p key :
  verifyAEIChecksum uid ts c p key =
  if (List.length (hex_decode p) =? 32)%nat
  then Returns (buffer_eqb (hmac_sha256 (bytes_of_string key) (bytes_of_string (uid ++ ts ++ c)))
                           (hex_decode p))
  else Throws "RangeError".
Proof.
  unfold verifyAEIChecksum, timingSafeEqual.
  rewrite hex_decode_generateAEIChecksum, length_hmac_sha256.
  rewrite (Nat.eqb_sym 32). reflexivity.
Qed.

End ChecksumFacts.

Section MacRefinement.
Import Crypto.
Local Open Scope Z_scope.
Local Open Scope list_scope.

Lemma xor_bytes_repeat (c : Z) (k : list Z) (n : nat) :
  List.length k = n -> xor_bytes k (repeat c n) = map (Z.lxor c) k.
Proof.
  revert n. induction k as [|x k IH]; intros [|n] L; try discriminate; [reflexivity|].
  injection L as L. unfold xor_bytes in *. simpl. rewrite (IH n L).
  now rewrite Z.lxor_comm.
Qed.

Lemma length_sha256 (msg : buffer) : List.length (sha256 msg) = 32%nat.
Proof. apply length_digest_bytes. Qed.

Lemma rfc2104_key_block_key (key : buffer) : rfc2104_key sha256 key = block_key key.
Proof.
  unfold rfc2104_key, block_key.
  destruct (Nat.leb_spec (List.length key) 64) as [L|L];
    destruct (Z.ltb_spec 64 (Z.of_nat (List.length key))) as [L'|L']; try lia; reflexivity.
Qed.

Lemma length_block_key (key : buffer) : List.length (block_key key) = 64%nat.
Proof.
  unfold block_key.
  destruct (Z.ltb_spec 64 (Z.of_nat (List.length key))) as [L|L];
    rewrite length_app, repeat_length; [rewrite length_sha256; reflexivity | lia].
Qed.

(** The code's HMAC is the one of RFC 2104. *)
Lemma hmac_sha256_rfc2104 (key data : buffer) :
  hmac_sha256 key data = rfc2104_hmac sha256 key data.
Proof.
  unfold hmac_sha256, rfc2104_hmac, ipad, opad. cbv zeta.
  rewrite rfc2104_key_block_key.
  now rewrite !xor_bytes_repeat by apply length_block_key.
Qed.

Lemma rfc2104_hmac_sha256_is_byte (key data : buffer) :
  Forall is_byte (rfc2104_hmac sha256 key data).
Proof. rewrite <- hmac_sha256_rfc2104. apply hmac_sha256_is_byte. Qed.

Lemma hex_digit_lower_hex_char (n : Z) : 0 <= n < 16 -> hex_digit n = lower_hex_char n.
Proof. intros H. each_below 16%nat H. Qed.

Lemma hex_encode_lower_hex_text (bs : buffer) :
  Forall is_byte bs -> hex_encode bs = lower_hex_text bs.
Proof.
  induction 1 as [|b bs Hb _ IH]; [reflexivity|]. unfold is_byte in Hb. simpl.
  rewrite IH, !hex_digit_lower_hex_char; [reflexivity | |];
    Z.div_mod_to_equations; lia.
Qed.

End MacRefinement.

(** C4. The seal is a pure function of its four arguments, and it is the
    keyed MAC the specification names: for every identifier, timestamp,
    campaign and secret it equals the hex text of HMAC-SHA256 as RFC 2104
    defines it ([spec_seal], stated apart from the code's model), keyed
    with the secret, over the bytes of the identifier, then the timestamp,
    then the campaign, with nothing in between; so calls whose three
    fields concatenate to the same text under the same secret give the
    same digest, and in particular identical calls do.  The text always
    has 64 lower-case hex digits.  On the published test vectors of
    RFC 4231 (case 2, and case 6 with a key longer than a block) the
    computed MAC is the published one. *)
Theorem generateAEIChecksum_deterministic_hmac
  (uid ts c key uid' ts' c' : string)
  (Hsame : (uid ++ ts ++ c)%string = (uid' ++ ts' ++ c')%string) :
  Checksum.generateAEIChecksum uid ts c key = Checksum.generateAEIChecksum uid' ts' c' key /\
  Checksum.generateAEIChecksum uid ts c key = spec_seal uid ts c key /\
  String.length (Checksum.generateAEIChecksum uid ts c key) = 64%nat /\
  Forall (fun ch => is_lower_hex ch = true) (chars (Checksum.generateAEIChecksum uid ts c key)) /\
  Checksum.generateAEIChecksum "what do ya want " "for " "nothing?" "Jefe"
    = "5bdcc146bf60754e6a042426089575c75a003f089d2739839dec58b964ec3843" /\
  Crypto.hex_encode
    (Crypto.hmac_sha256 (repeat 170%Z 131)
       (Crypto.bytes_of_string "Test Using Larger Than Block-Size Key - Hash Key First"))
    = "60e431591ee0b67f0d8a26aacbf5b77f8e0bc6213728c5140546040f0ee37f54".
Proof.
  split.
  { unfold Checksum.generateAEIChecksum. cbv zeta. now rewrite Hsame. }
  split.
  { unfold Checksum.generateAEIChecksum, spec_seal. cbv zeta.
    rewrite !bytes_of_string_app, hmac_sha256_rfc2104.
    apply hex_encode_lower_hex_text, rfc2104_hmac_sha256_is_byte. }
  split; [unfold Checksum.generateAEIChecksum;
          rewrite length_hex_encode, length_hmac_sha256; reflexivity|].
  split; [apply hex_encode_lower, hmac_sha256_is_byte|].
  split; [exact hmac_rfc4231_case2 | exact hmac_rfc4231_case6_long_key].
Qed.

(** The fields are joined without a separator: a character moved from the
    identifier to the timestamp leaves the seal as it was. *)
Lemma generateAEIChecksum_deterministic_hmac_witness :
  Checksum.generateAEIChecksum "TEST12345678" "2025-10-19T10:00:00.000Z" "DEMO01"
    default_aei_secret
  = Checksum.generateAEIChecksum "TEST1234567" "82025-10-19T10:00:00.000Z" "DEMO01"
      default_aei_secret.
Proof.
  exact (proj1 (generateAEIChecksum_deterministic_hmac
                  "TEST12345678" "2025-10-19T10:00:00.000Z" "DEMO01" default_aei_secret
                  "TEST1234567" "82025-10-19T10:00:00.000Z" "DEMO01"
                  eq_refl)).
Defined.

(** C9 as stated fails: a correct checksum followed by two characters that
    are not hex digits is no 64-character input, yet verification returns a
    boolean for it (and that boolean is [true]). *)
Lemma verifyAEIChecksum_returns_on_overlong_input :
  let p := (Checksum.generateAEIChecksum "TEST12345678" "2025-10-19T10:00:00.000Z" "DEMO01"
              default_aei_secret ++ "zz")%string in
  Checksum.verifyAEIChecksum "TEST12345678" "2025-10-19T10:00:00.000Z" "DEMO01" p
    default_aei_secret = Crypto.Returns true /\
  ~ well_formed_checksum p.
Proof.
  split.
  - vm_compute. reflexivity.
  - intros [Hlen _]. vm_compute in Hlen. discriminate.
Qed.

(** C9, amended. Verification throws a [RangeError] exactly when the hex
    decoding of the provided checksum is not 32 bytes long, and otherwise
    returns whether the decoded bytes equal the digest.  The decoding is 32
    bytes long exactly when the text starts with 64 hex digits that are not
    followed by one more complete pair of hex digits; so truncated texts
    and texts with an early non-hex character throw, while 64 hex digits
    followed by a lone digit or by non-hex text still yield a boolean. *)
Theorem verifyAEIChecksum_throws_unless_32_bytes (uid ts c p key : string) :
  Checksum.verifyAEIChecksum uid ts c p key =
    (if (List.length (Crypto.hex_decode p) =? 32)%nat
     then Crypto.Returns
            (Crypto.buffer_eqb
               (Crypto.hex_decode (Checksum.generateAEIChecksum uid ts c key))
               (Crypto.hex_decode p))
     else Crypto.Throws "RangeError") /\
  List.length (Crypto.hex_decode (Checksum.generateAEIChecksum uid ts c key)) = 32%nat /\
  ((List.length (Crypto.hex_decode p) =? 32)%nat = true <->
   exists h rest : string,
     p = (h ++ rest)%string /\ String.length h = 64%nat /\
     Forall (fun ch => is_hex ch = true) (chars h) /\
     starts_with_hex_pair rest = false).
Proof.
  split; [|split].
  - rewrite verifyAEIChecksum_eq, hex_decode_generateAEIChecksum. reflexivity.
  - rewrite hex_decode_generateAEIChecksum. apply length_hmac_sha256.
  - rewrite Nat.eqb_eq. apply (hex_decode_length_iff 32).
Qed.

Section DateChecks.
Import JsDate.
Local Open Scope Z_scope.

Example toISOString_2025 : toISOString 1760868000000 = "2025-10-19T10:00:00.000Z"%string.
Proof. vm_compute. reflexivity. Qed.

Example toISOString_epoch : toISOString 0 = "1970-01-01T00:00:00.000Z"%string.
Proof. vm_compute. reflexivity. Qed.

Example toISOString_leap_day : toISOString 1709251199999 = "2024-02-29T23:59:59.999Z"%string.
Proof. vm_compute. reflexivity. Qed.

Example toISOString_before_epoch : toISOString (-1) = "1969-12-31T23:59:59.999Z"%string.
Proof. vm_compute. reflexivity. Qed.

Example toISOString_first : toISOString first_instant = "0000-01-01T00:00:00.000Z"%string.
Proof. vm_compute. reflexivity. Qed.

Example toISOString_last : toISOString (end_instant - 1) = "9999-12-31T23:59:59.999Z"%string.
Proof. vm_compute. reflexivity. Qed.

Example toISOString_year_10000 : toISOString end_instant = "+010000-01-01T00:00:00.000Z"%string.
Proof. vm_compute. reflexivity. Qed.

Example moment_2025 : moment "2025-10-19T10:00:00.000Z" = Some 1760868000000.
Proof. vm_compute. reflexivity. Qed.

Example moment_rejects_feb_30 : moment "2025-02-30T10:00:00.000Z" = None.
Proof. vm_compute. reflexivity. Qed.

End DateChecks.

Section DateArithmetic.
Import JsDate.
Local Open Scope Z_scope.

Lemma quarter_step (y : Z) :
  (y + 1 - 1969) / 4 = (y - 1969) / 4 + (if y mod 4 =? 0 then 1 else 0).
Proof. destruct (Z.eqb_spec (y mod 4) 0); Z.div_mod_to_equations; lia. Qed.

Lemma century_step (y : Z) :
  (y + 1 - 1901) / 100 = (y - 1901) / 100 + (if y mod 100 =? 0 then 1 else 0).
Proof. destruct (Z.eqb_spec (y mod 100) 0); Z.div_mod_to_equations; lia. Qed.

Lemma quadricentennial_step (y : Z) :
  (y + 1 - 1601) / 400 = (y - 1601) / 400 + (if y mod 400 =? 0 then 1 else 0).
Proof. destruct (Z.eqb_spec (y mod 400) 0); Z.div_mod_to_equations; lia. Qed.

Lemma mod_100_mod_4 (y : Z) : y mod 100 = 0 -> y mod 4 = 0.
Proof. intros H. Z.div_mod_to_equations. lia. Qed.

Lemma mod_400_mod_100 (y : Z) : y mod 400 = 0 -> y mod 100 = 0.
Proof. intros H. Z.div_mod_to_equations. lia. Qed.

Lemma DayFromYear_step (y : Z) :
  DayFromYear (y + 1) = DayFromYear y + (if IsLeapYear y then 366 else 365).
Proof.
  unfold DayFromYear, IsLeapYear.
  rewrite quarter_step, century_step, quadricentennial_step.
  pose proof (mod_100_mod_4 y). pose proof (mod_400_mod_100 y).
  destruct (Z.eqb_spec (y mod 4) 0); destruct (Z.eqb_spec (y mod 100) 0);
    destruct (Z.eqb_spec (y mod 400) 0); cbn [andb orb negb]; lia.
Qed.

Lemma DayFromYear_lt (y y' : Z) : y < y' -> DayFromYear y < DayFromYear y'.
Proof.
  unfold DayFromYear. intros H. Z.div_mod_to_equations. lia.
Qed.

Lemma DayFromYear_le (y y' : Z) : y <= y' -> DayFromYear y <= DayFromYear y'.
Proof.
  intros H. destruct (Z.eq_dec y y') as [->|Hne]; [lia|].
  apply Z.lt_le_incl, DayFromYear_lt. lia.
Qed.

Lemma YearFromDay_spec (d : Z) :
  DayFromYear (YearFromDay d) <= d < DayFromYear (YearFromDay d + 1).
Proof.
  unfold YearFromDay.
  set (y0 := 1970 + 400 * d / 146097).
  assert (Hlo : DayFromYear (y0 - 1) <= d).
  { unfold DayFromYear, y0. Z.div_mod_to_equations. lia. }
  assert (Hhi : d < DayFromYear (y0 + 2)).
  { unfold DayFromYear, y0. Z.div_mod_to_equations. lia. }
  destruct (Z.leb_spec (DayFromYear (y0 + 1)) d).
  - replace (y0 + 1 + 1) with (y0 + 2) by lia. lia.
  - destruct (Z.leb_spec (DayFromYear y0) d).
    + lia.
    + replace (y0 - 1 + 1) with y0 by lia. lia.
Qed.

Lemma YearFromDay_unique (d y : Z) :
  DayFromYear y <= d < DayFromYear (y + 1) -> YearFromDay d = y.
Proof.
  intros H. pose proof (YearFromDay_spec d) as S.
  destruct (Z.lt_trichotomy (YearFromDay d) y) as [Hlt|[Heq|Hgt]]; [|exact Heq|].
  - assert (DayFromYear (YearFromDay d + 1) <= DayFromYear y) by (apply DayFromYear_le; lia). lia.
  - assert (DayFromYear (y + 1) <= DayFromYear (YearFromDay d)) by (apply DayFromYear_le; lia). lia.
Qed.

Lemma YearFromDay_mono (d d' : Z) : d <= d' -> YearFromDay d <= YearFromDay d'.
Proof.
  intros H. pose proof (YearFromDay_spec d) as S. pose proof (YearFromDay_spec d') as S'.
  destruct (Z.le_gt_cases (YearFromDay d) (YearFromDay d')) as [|Hgt]; [assumption|].
  assert (DayFromYear (YearFromDay d' + 1) <= DayFromYear (YearFromDay d))
    by (apply DayFromYear_le; lia).
  lia.
Qed.

End DateArithmetic.

Section DateOrder.
Import JsDate.
Local Open Scope Z_scope.

Lemma lex_assoc (a b c : comparison) : lex (lex a b) c = lex a (lex b c).
Proof. destruct a; reflexivity. Qed.

Lemma lex_Eq_r (a : comparison) : lex a Eq = a.
Proof. destruct a; reflexivity. Qed.

(** Comparing numbers is comparing quotients, then remainders. *)
Lemma compare_div_mod (B x y : Z) : 0 < B ->
  (x ?= y) = lex (x / B ?= y / B) (x mod B ?= y mod B).
Proof.
  intros HB.
  pose proof (Z.div_mod x B ltac:(lia)) as Hx.
  pose proof (Z.div_mod y B ltac:(lia)) as Hy.
  pose proof (Z.mod_pos_bound x B HB) as Bx.
  pose proof (Z.mod_pos_bound y B HB) as By.
  destruct (Z.compare_spec (x / B) (y / B)) as [E|L|G]; simpl.
  - rewrite Hx, Hy, E at 1.
    destruct (Z.compare_spec (x mod B) (y mod B)) as [E'|L'|G'].
    + rewrite E'. apply Z.compare_refl.
    + apply Z.compare_lt_iff. lia.
    + apply Z.compare_gt_iff. lia.
  - apply Z.compare_lt_iff. nia.
  - apply Z.compare_gt_iff. nia.
Qed.

Lemma time_of_day_compare (a b : Z) :
  (a ?= b) =
  lex (a / msPerHour ?= b / msPerHour)
 (lex ((a / msPerMinute) mod 60 ?= (b / msPerMinute) mod 60)
 (lex ((a / msPerSecond) mod 60 ?= (b / msPerSecond) mod 60)
      (a mod msPerSecond ?= b mod msPerSecond))).
Proof.
  rewrite (compare_div_mod msPerSecond a b) by reflexivity.
  rewrite (compare_div_mod 60 (a / msPerSecond) (b / msPerSecond)) by reflexivity.
  rewrite !Z.div_div by (unfold msPerSecond; lia).
  change (msPerSecond * 60) with msPerMinute.
  rewrite (compare_div_mod 60 (a / msPerMinute) (b / msPerMinute)) by reflexivity.
  rewrite !Z.div_div by (unfold msPerMinute; lia).
  change (msPerMinute * 60) with msPerHour.
  rewrite !lex_assoc. reflexivity.
Qed.

Lemma MonthFromDayInYear_spec (leap : bool) (d : Z) :
  0 <= d < year_length leap ->
  let m := MonthFromDayInYear leap d in
  0 <= m <= 11 /\ MonthStart leap m <= d < MonthStart leap m + DaysInMonth leap m.
Proof.
  unfold year_length, MonthFromDayInYear. intros H.
  destruct leap; cbv zeta;
  repeat match goal with
  | |- context [if ?x <? ?y then _ else _] => destruct (Z.ltb_spec x y)
  end; cbn; lia.
Qed.

Lemma MonthStart_mono (leap : bool) (m m' : Z) :
  0 <= m -> m < m' -> m' <= 11 ->
  MonthStart leap m + DaysInMonth leap m <= MonthStart leap m'.
Proof.
  intros H0 H1 H2.
  assert (Hm : 0 <= m < Z.of_nat 12) by lia.
  assert (Hm' : 0 <= m' < Z.of_nat 12) by lia.
  apply in_below in Hm, Hm'. cbn in Hm, Hm'.
  destruct leap;
    repeat (destruct Hm as [Hm|Hm]; [subst m;
      repeat (destruct Hm' as [Hm'|Hm']; [subst m'; try lia; cbn; lia|]);
      destruct Hm'|]);
    destruct Hm.
Qed.

Lemma day_in_year_bounds (day : Z) :
  0 <= day - DayFromYear (YearFromDay day) < year_length (IsLeapYear (YearFromDay day)).
Proof.
  pose proof (YearFromDay_spec day) as S.
  rewrite DayFromYear_step in S. unfold year_length.
  destruct (IsLeapYear (YearFromDay day)); lia.
Qed.

Lemma civil_compare_lt (d d' : Z) : d < d' -> civil_compare d d' = Lt.
Proof.
  intros Hlt. unfold civil_compare, civil_year, civil_month, civil_date.
  pose proof (YearFromDay_mono d d' ltac:(lia)) as Hy.
  pose proof (day_in_year_bounds d) as B. pose proof (day_in_year_bounds d') as B'.
  destruct (Z.compare_spec (YearFromDay d) (YearFromDay d')) as [E|L|G]; simpl; [|reflexivity|lia].
  rewrite <- E in *.
  set (leap := IsLeapYear (YearFromDay d)) in *.
  set (diy := d - DayFromYear (YearFromDay d)) in *.
  set (diy' := d' - DayFromYear (YearFromDay d)) in *.
  assert (Hd : diy < diy') by (unfold diy, diy'; lia).
  destruct (MonthFromDayInYear_spec leap diy B) as [M1 M2].
  destruct (MonthFromDayInYear_spec leap diy' B') as [M1' M2'].
  cbv zeta in *.
  set (m := MonthFromDayInYear leap diy) in *.
  set (m' := MonthFromDayInYear leap diy') in *.
  destruct (Z.compare_spec (m + 1) (m' + 1)) as [E'|L'|G']; simpl; [| reflexivity |].
  - assert (m = m') as <- by lia. apply Z.compare_lt_iff. lia.
  - exfalso. pose proof (MonthStart_mono leap m' m ltac:(lia) ltac:(lia) ltac:(lia)). lia.
Qed.

Lemma civil_compare_eq (d d' : Z) : civil_compare d d' = (d ?= d').
Proof.
  destruct (Z.compare_spec d d') as [E|L|G].
  - subst. unfold civil_compare. now rewrite !Z.compare_refl.
  - now apply civil_compare_lt.
  - apply civil_compare_lt in G. unfold civil_compare in *.
    rewrite (Z.compare_antisym (civil_year d') (civil_year d)),
            (Z.compare_antisym (civil_month d') (civil_month d)),
            (Z.compare_antisym (civil_date d') (civil_date d)).
    destruct (civil_year d' ?= civil_year d); simpl in *; try congruence.
    destruct (civil_month d' ?= civil_month d); simpl in *; try congruence.
    destruct (civil_date d' ?= civil_date d); simpl in *; congruence.
Qed.

(** Broken-down times compare as their instants do. *)
Lemma fields_of_time_compare (t t' : Z) :
  tm_compare (fields_of_time t) (fields_of_time t') = (t ?= t').
Proof.
  rewrite (compare_div_mod msPerDay t t') by reflexivity.
  fold (Day t) (Day t') (TimeWithinDay t) (TimeWithinDay t').
  rewrite <- civil_compare_eq.
  rewrite (time_of_day_compare (TimeWithinDay t) (TimeWithinDay t')).
  unfold tm_compare, civil_compare, fields_of_time;
    cbn [tm_year tm_month tm_date tm_hour tm_minute tm_second tm_ms].
  rewrite !lex_assoc. reflexivity.
Qed.

End DateOrder.

Section DateFields.
Import JsDate.
Local Open Scope Z_scope.

Lemma four_digit_year_range (t : Z) :
  four_digit_year t -> 0 <= YearFromTime t <= 9999.
Proof.
  unfold four_digit_year, first_instant, end_instant, YearFromTime. intros H.
  assert (Hd : -719528 <= Day t <= 2932896).
  { unfold Day, msPerDay. Z.div_mod_to_equations. lia. }
  split.
  - change 0 with (YearFromDay (-719528)). apply YearFromDay_mono. lia.
  - change 9999 with (YearFromDay 2932896). apply YearFromDay_mono. lia.
Qed.

Lemma time_within_day_bounds (t : Z) : 0 <= TimeWithinDay t < msPerDay.
Proof. apply Z.mod_pos_bound. reflexivity. Qed.

Lemma fields_of_time_valid (t : Z) :
  four_digit_year t -> valid_fields (fields_of_time t) = true.
Proof.
  intros H. apply four_digit_year_range in H. unfold YearFromTime in H.
  pose proof (day_in_year_bounds (Day t)) as B.
  pose proof (MonthFromDayInYear_spec _ _ B) as [M1 M2].
  pose proof (time_within_day_bounds t) as T.
  unfold valid_fields, fields_of_time;
    cbn [tm_year tm_month tm_date tm_hour tm_minute tm_second tm_ms].
  replace (MonthFromDayInYear (IsLeapYear (YearFromDay (Day t)))
             (Day t - DayFromYear (YearFromDay (Day t))) + 1 - 1)
    with (MonthFromDayInYear (IsLeapYear (YearFromDay (Day t)))
             (Day t - DayFromYear (YearFromDay (Day t)))) by lia.
  unfold msPerDay, msPerHour, msPerMinute, msPerSecond in *.
  repeat (apply andb_true_intro; split); apply Z.leb_le; try lia;
    try (Z.div_mod_to_equations; lia).
Qed.

Lemma time_of_fields_of_time (t : Z) : time_of_fields (fields_of_time t) = t.
Proof.
  unfold time_of_fields, fields_of_time;
    cbn [tm_year tm_month tm_date tm_hour tm_minute tm_second tm_ms].
  replace (MonthFromDayInYear (IsLeapYear (YearFromDay (Day t)))
             (Day t - DayFromYear (YearFromDay (Day t))) + 1 - 1)
    with (MonthFromDayInYear (IsLeapYear (YearFromDay (Day t)))
             (Day t - DayFromYear (YearFromDay (Day t)))) by lia.
  pose proof (time_within_day_bounds t) as T.
  assert (Ht : t = Day t * msPerDay + TimeWithinDay t).
  { unfold Day, TimeWithinDay. pose proof (Z.div_mod t msPerDay). unfold msPerDay in *. lia. }
  transitivity (Day t * msPerDay + TimeWithinDay t); [|symmetry; exact Ht].
  clear Ht. revert T.
  generalize (TimeWithinDay t). intros tod T.
  generalize (Day t). intros day.
  generalize (MonthStart (IsLeapYear (YearFromDay day))
               (MonthFromDayInYear (IsLeapYear (YearFromDay day))
                  (day - DayFromYear (YearFromDay day)))). intros ms.
  generalize (DayFromYear (YearFromDay day)). intros dfy.
  unfold msPerDay, msPerHour, msPerMinute, msPerSecond.
  Z.div_mod_to_equations. lia.
Qed.

End DateFields.

Section DateText.
Import JsDate.
Local Open Scope Z_scope.

Lemma string_app_assoc (a b c : string) : ((a ++ b) ++ c = a ++ (b ++ c))%string.
Proof. induction a as [|x a IH]; simpl; [reflexivity | now rewrite IH]. Qed.

Lemma string_length_app (a b : string) :
  String.length (a ++ b) = (String.length a + String.length b)%nat.
Proof. induction a as [|x a IH]; simpl; [reflexivity | now rewrite IH]. Qed.

Lemma pad_digits_acc (k : nat) : forall n acc,
  pad_digits k n acc = (pad k n ++ acc)%string.
Proof.
  unfold pad. induction k as [|k IH]; intros n acc; simpl; [reflexivity|].
  rewrite IH, (IH (n / 10) (String _ EmptyString)), string_app_assoc. reflexivity.
Qed.

Lemma pad_succ (k : nat) (n : Z) :
  pad (S k) n = (pad k (n / 10) ++ String (digit_char (n mod 10)) EmptyString)%string.
Proof. unfold pad at 1. simpl. apply pad_digits_acc. Qed.

Lemma length_pad (k : nat) : forall n, String.length (pad k n) = k.
Proof.
  induction k as [|k IH]; intros n; [reflexivity|].
  rewrite pad_succ, string_length_app, IH. simpl. lia.
Qed.

Lemma digit_value_digit_char (d : Z) : 0 <= d < 10 -> digit_value (digit_char d) = Some d.
Proof.
  intros H. each_below 10%nat H.
Qed.

Lemma code_digit_char (d : Z) : 0 <= d < 10 -> N_of_ascii (digit_char d) = Z.to_N (48 + d).
Proof.
  intros H. each_below 10%nat H.
Qed.

Lemma compare_digit_char (x y : Z) : 0 <= x < 10 -> 0 <= y < 10 ->
  Ascii.compare (digit_char x) (digit_char y) = (x ?= y).
Proof.
  intros Hx Hy. unfold Ascii.compare. rewrite !code_digit_char by assumption.
  rewrite Z2N.inj_compare by lia.
  apply Z.add_compare_mono_l.
Qed.

Lemma ascii_compare_refl (c : ascii) : Ascii.compare c c = Eq.
Proof. unfold Ascii.compare. apply N.compare_refl. Qed.

Lemma pow10_succ (k : nat) : 10 ^ Z.of_nat (S k) = 10 * 10 ^ Z.of_nat k.
Proof. rewrite Nat2Z.inj_succ, Z.pow_succ_r by lia. reflexivity. Qed.

Lemma pad_bounds_step (k : nat) (n : Z) :
  0 <= n < 10 ^ Z.of_nat (S k) -> 0 <= n / 10 < 10 ^ Z.of_nat k /\ 0 <= n mod 10 < 10.
Proof.
  rewrite pow10_succ. intros H. split.
  - split; [apply Z.div_pos; lia | apply Z.div_lt_upper_bound; lia].
  - apply Z.mod_pos_bound. lia.
Qed.

(** Zero-padded fields of equal width compare as their numbers. *)
Lemma compare_pad_app (k : nat) : forall a b r1 r2,
  0 <= a < 10 ^ Z.of_nat k -> 0 <= b < 10 ^ Z.of_nat k ->
  String.compare (pad k a ++ r1) (pad k b ++ r2) = lex (a ?= b) (String.compare r1 r2).
Proof.
  induction k as [|k IH]; intros a b r1 r2 Ha Hb.
  - simpl in Ha, Hb. assert (a = 0) by lia. assert (b = 0) by lia. subst. reflexivity.
  - destruct (pad_bounds_step k a Ha) as [Ha1 Ha2].
    destruct (pad_bounds_step k b Hb) as [Hb1 Hb2].
    rewrite !pad_succ, !string_app_assoc, IH by assumption.
    simpl String.append. simpl String.compare.
    rewrite compare_digit_char by assumption.
    rewrite (compare_div_mod 10 a b) by lia.
    rewrite lex_assoc. unfold lex at 3.
    destruct (a mod 10 ?= b mod 10); reflexivity.
Qed.

Lemma compare_same_head (c : ascii) (r1 r2 : string) :
  String.compare (String c r1) (String c r2) = String.compare r1 r2.
Proof. simpl. now rewrite ascii_compare_refl. Qed.

Lemma read_digits_snoc (k : nat) : forall acc s v c rest d,
  read_digits k acc s = Some (v, String c rest) ->
  digit_value c = Some d ->
  read_digits (S k) acc s = Some (v * 10 + d, rest).
Proof.
  induction k as [|k IH]; intros acc s v c rest d Hr Hd.
  - simpl in Hr. injection Hr as -> ->. simpl. now rewrite Hd.
  - destruct s as [|c0 s0]; [discriminate|].
    cbn [read_digits] in Hr. cbn [read_digits].
    destruct (digit_value c0) as [d0|]; [|discriminate].
    apply (IH _ _ _ _ _ _ Hr Hd).
Qed.

Lemma read_digits_pad (k : nat) : forall n acc rest,
  0 <= n < 10 ^ Z.of_nat k ->
  read_digits k acc (pad k n ++ rest) = Some (acc * 10 ^ Z.of_nat k + n, rest).
Proof.
  induction k as [|k IH]; intros n acc rest Hn.
  - simpl in *. f_equal. f_equal. lia.
  - destruct (pad_bounds_step k n Hn) as [H1 H2].
    rewrite pad_succ, string_app_assoc. simpl String.append.
    rewrite (read_digits_snoc k acc _ _ _ _ _ (IH (n / 10) acc _ H1)
               (digit_value_digit_char _ H2)).
    f_equal. f_equal. rewrite pow10_succ.
    pose proof (Z.div_mod n 10 ltac:(lia)). lia.
Qed.

End DateText.

Section IsoText.
Import JsDate.
Local Open Scope Z_scope.

Lemma DaysInMonth_le_31 (leap : bool) (m : Z) : DaysInMonth leap m <= 31.
Proof.
  unfold DaysInMonth.
  destruct (m =? 1); [destruct leap; lia|].
  destruct ((m =? 3) || (m =? 5) || (m =? 8) || (m =? 10)); lia.
Qed.

Lemma valid_fields_bounded (f : tm) : valid_fields f = true -> bounded_fields f.
Proof.
  unfold valid_fields. rewrite !andb_true_iff, !Z.leb_le.
  pose proof (DaysInMonth_le_31 (IsLeapYear (tm_year f)) (tm_month f - 1)).
  intros Hv. constructor; lia.
Qed.

Lemma year_text_four_digits (y : Z) : 0 <= y <= 9999 -> year_text y = pad 4 y.
Proof.
  intros H. unfold year_text.
  destruct (Z.leb_spec 0 y); destruct (Z.leb_spec y 9999); try lia. reflexivity.
Qed.

Lemma length_render (f : tm) : bounded_fields f -> String.length (render f) = 24%nat.
Proof.
  intros [Hy _ _ _ _ _ _]. unfold render. rewrite year_text_four_digits by assumption.
  repeat (rewrite string_length_app || rewrite length_pad || cbn [String.length]).
  reflexivity.
Qed.

Ltac field_bound := cbn; lia.

Lemma compare_render (f g : tm) : bounded_fields f -> bounded_fields g ->
  String.compare (render f) (render g) = tm_compare f g.
Proof.
  intros [F1 F2 F3 F4 F5 F6 F7] [G1 G2 G3 G4 G5 G6 G7].
  unfold render, tm_compare. rewrite !year_text_four_digits by assumption.
  repeat (rewrite compare_pad_app by field_bound;
          cbn [String.append]; rewrite ?compare_same_head).
  cbn [String.compare]. rewrite !lex_Eq_r. reflexivity.
Qed.

Lemma expect_head (c : ascii) (s : string) : expect c (String c s) = Some s.
Proof. unfold expect. now rewrite Ascii.eqb_refl. Qed.

Lemma parse_fields_render (f : tm) : bounded_fields f -> parse_fields (render f) = Some f.
Proof.
  intros [F1 F2 F3 F4 F5 F6 F7].
  unfold render, parse_fields. rewrite year_text_four_digits by assumption.
  repeat (rewrite read_digits_pad by field_bound;
          cbn [bind String.append]; rewrite ?expect_head; cbn [bind]).
  destruct f; cbn [tm_year tm_month tm_date tm_hour tm_minute tm_second tm_ms].
  reflexivity.
Qed.

Lemma length_toISOString (t : Z) :
  four_digit_year t -> String.length (toISOString t) = 24%nat.
Proof.
  intros H. apply length_render, valid_fields_bounded, fields_of_time_valid, H.
Qed.

Lemma compare_toISOString (t t' : Z) :
  four_digit_year t -> four_digit_year t' ->
  String.compare (toISOString t) (toISOString t') = (t ?= t').
Proof.
  intros H H'. unfold toISOString.
  rewrite compare_render by (apply valid_fields_bounded, fields_of_time_valid; assumption).
  apply fields_of_time_compare.
Qed.

Lemma toISOString_inj (t t' : Z) :
  four_digit_year t -> four_digit_year t' -> toISOString t = toISOString t' -> t = t'.
Proof.
  intros H H' E. apply Z.compare_eq. rewrite <- compare_toISOString by assumption.
  rewrite E. clear. induction (toISOString t') as [|c s IH]; simpl; [reflexivity|].
  now rewrite ascii_compare_refl.
Qed.

Lemma moment_toISOString (t : Z) : four_digit_year t -> moment (toISOString t) = Some t.
Proof.
  intros H. unfold moment, toISOString.
  pose proof (fields_of_time_valid t H) as V.
  rewrite parse_fields_render by (apply valid_fields_bounded, V).
  cbn [bind]. rewrite V, time_of_fields_of_time. reflexivity.
Qed.

Lemma leb_toISOString (t t' : Z) :
  four_digit_year t -> four_digit_year t' ->
  String.leb (toISOString t) (toISOString t') = (t <=? t').
Proof.
  intros H H'. unfold String.leb, Z.leb. now rewrite compare_toISOString.
Qed.

End IsoText.

Section TextOrder.

Lemma ascii_compare_lt_trans (a b c : ascii) :
  Ascii.compare a b = Lt -> Ascii.compare b c = Lt -> Ascii.compare a c = Lt.
Proof.
  unfold Ascii.compare. rewrite !N.compare_lt_iff. apply N.lt_trans.
Qed.

Lemma ascii_compare_eq (a b : ascii) : Ascii.compare a b = Eq -> a = b.
Proof. apply Ascii.compare_eq_iff. Qed.

Lemma string_compare_refl (s : string) : String.compare s s = Eq.
Proof.
  induction s as [|c s IH]; simpl; [reflexivity|].
  unfold Ascii.compare. now rewrite N.compare_refl.
Qed.

Lemma string_compare_lt_trans (a : string) : forall b c,
  String.compare a b = Lt -> String.compare b c = Lt -> String.compare a c = Lt.
Proof.
  induction a as [|x a IH]; intros [|y b] [|z c]; simpl; try congruence.
  destruct (Ascii.compare x y) eqn:Exy; try discriminate;
  destruct (Ascii.compare y z) eqn:Eyz; try discriminate; intros H1 H2.
  - apply ascii_compare_eq in Exy, Eyz. subst.
    unfold Ascii.compare. rewrite N.compare_refl. eapply IH; eassumption.
  - apply ascii_compare_eq in Exy. subst. now rewrite Eyz.
  - apply ascii_compare_eq in Eyz. subst. now rewrite Exy.
  - now rewrite (ascii_compare_lt_trans _ _ _ Exy Eyz).
Qed.

Lemma string_leb_refl (s : string) : String.leb s s = true.
Proof. unfold String.leb. now rewrite string_compare_refl. Qed.

Lemma string_leb_trans (a b c : string) :
  String.leb a b = true -> String.leb b c = true -> String.leb a c = true.
Proof.
  unfold String.leb.
  destruct (String.compare a b) eqn:Eab; try discriminate;
  destruct (String.compare b c) eqn:Ebc; try discriminate; intros _ _.
  - apply String.compare_eq_iff in Eab, Ebc. subst. now rewrite string_compare_refl.
  - apply String.compare_eq_iff in Eab. subst. now rewrite Ebc.
  - apply String.compare_eq_iff in Ebc. subst. now rewrite Eab.
  - now rewrite (string_compare_lt_trans _ _ _ Eab Ebc).
Qed.

Lemma string_leb_false (a b : string) : String.leb a b = false -> String.leb b a = true.
Proof. destruct (String.leb_total a b) as [H|H]; congruence. Qed.

End TextOrder.

Section Ordering.
Import Database.

Lemma newer_first_trans (a b c : ScanRow) :
  newer_first a b -> newer_first b c -> newer_first a c.
Proof. unfold newer_first. intros H1 H2. eapply string_leb_trans; eassumption. Qed.

Lemma insert_desc_perm (r : ScanRow) (l : list ScanRow) :
  Permutation (r :: l) (insert_desc r l).
Proof.
  induction l as [|x l IH]; simpl; [reflexivity|].
  destruct (String.leb (timestamp x) (timestamp r)); [reflexivity|].
  rewrite perm_swap. now constructor.
Qed.

Lemma order_by_timestamp_desc_perm (l : list ScanRow) :
  Permutation l (order_by_timestamp_desc l).
Proof.
  induction l as [|x l IH]; simpl; [constructor|].
  rewrite <- insert_desc_perm. now constructor.
Qed.

Lemma insert_desc_sorted (r : ScanRow) (l : list ScanRow) :
  StronglySorted newer_first l -> StronglySorted newer_first (insert_desc r l).
Proof.
  induction 1 as [|x l Hs IH Hx]; simpl.
  - repeat constructor.
  - destruct (String.leb (timestamp x) (timestamp r)) eqn:E.
    + constructor; [constructor; assumption|].
      constructor; [exact E|].
      eapply Forall_impl; [|exact Hx]. intros y Hy.
      eapply newer_first_trans; [exact E | exact Hy].
    + constructor; [exact IH|].
      apply (Permutation_Forall (insert_desc_perm r l)).
      constructor; [|exact Hx]. apply string_leb_false, E.
Qed.

Lemma order_by_timestamp_desc_sorted (l : list ScanRow) :
  StronglySorted newer_first (order_by_timestamp_desc l).
Proof.
  induction l as [|x l IH]; simpl; [constructor | now apply insert_desc_sorted].
Qed.

(** The first row of an ordered result is a row of the input, and no row
    of the input has a later timestamp text. *)
Lemma order_by_timestamp_desc_head (l : list ScanRow) (r : ScanRow) (rest : list ScanRow) :
  order_by_timestamp_desc l = r :: rest ->
  In r l /\ forall x, In x l -> String.leb (timestamp x) (timestamp r) = true.
Proof.
  intros E. pose proof (order_by_timestamp_desc_perm l) as P.
  pose proof (order_by_timestamp_desc_sorted l) as S. rewrite E in P, S.
  split.
  - apply (Permutation_in _ (Permutation_sym P)). now left.
  - intros x Hx. apply (Permutation_in _ P) in Hx. destruct Hx as [->|Hx].
    + apply string_leb_refl.
    + inversion S as [|? ? _ Hall]; subst.
      rewrite Forall_forall in Hall. apply Hall, Hx.
Qed.

Lemma order_by_timestamp_desc_nil (l : list ScanRow) :
  order_by_timestamp_desc l = [] -> l = [].
Proof.
  intros E. pose proof (order_by_timestamp_desc_perm l) as P. rewrite E in P.
  now apply Permutation_sym, Permutation_nil in P.
Qed.

End Ordering.

Section GetScans.
Import Database.
Local Open Scope list_scope.

Lemma enter_scans (st : Store) : scans (snd (enter st)) = scans st.
Proof. unfold enter. destruct (faults st); reflexivity. Qed.

Lemma enter_last_id (st : Store) : last_id (snd (enter st)) = last_id st.
Proof. unfold enter. destruct (faults st); reflexivity. Qed.

Lemma select_rows_filter (cs : list clause) (vs : list value) (p : ScanRow -> bool)
  (rows : list ScanRow) :
  (forall r, all_hold cs vs r = Some (p r)) ->
  select_rows cs vs rows = Some (filter p rows).
Proof.
  intros H. induction rows as [|r rows IH]; simpl; [reflexivity|].
  rewrite H, IH. reflexivity.
Qed.

Lemma all_hold_snoc (cs : list clause) : forall (vs : list value) c v extra r,
  List.length cs = List.length vs ->
  all_hold (cs ++ [c]) ((vs ++ [v]) ++ extra) r =
  match all_hold cs (vs ++ v :: extra) r, holds c v r with
  | Some b, Some h => Some (b && h)
  | _, _ => None
  end.
Proof.
  induction cs as [|c0 cs IH]; intros [|v0 vs] c v extra r Hlen; try discriminate.
  - simpl. destruct (holds c v r) as [h|]; [|reflexivity].
    now rewrite andb_true_r.
  - simpl in Hlen. injection Hlen as Hlen. simpl.
    rewrite (IH vs c v extra r Hlen).
    destruct (holds c0 v0 r) as [h0|];
      destruct (all_hold cs (vs ++ v :: extra) r) as [b|];
      destruct (holds c v r) as [h|]; try reflexivity.
    now rewrite andb_assoc.
Qed.

Lemma built_start : built ([], []) (fun _ => true).
Proof. constructor; simpl; [constructor | reflexivity | reflexivity]. Qed.

Lemma built_add_text (q : list clause * list value) (p : ScanRow -> bool)
  (o : option string) (piece : clause) (h : string -> ScanRow -> bool) :
  built q p -> is_condition piece = true ->
  (forall s r, holds piece (Text s) r = Some (h s r)) ->
  built (add_text o piece q) (fun r => p r && text_filter o (fun s => h s r)).
Proof.
  intros [Hc Hl Hh] Hp Hholds. unfold add_text, text_filter.
  destruct (truthy_text o) as [s|].
  - constructor; cbn [fst snd].
    + apply Forall_app. split; [exact Hc | repeat constructor; exact Hp].
    + rewrite !length_app, Hl. reflexivity.
    + intros r extra. rewrite all_hold_snoc by exact Hl.
      rewrite Hh, Hholds. reflexivity.
  - constructor; try assumption.
    intros r extra. rewrite Hh. now rewrite andb_true_r.
Qed.

Lemma split_conditions_app (cs tail : list clause) :
  Forall (fun c => is_condition c = true) cs ->
  match tail with [] => True | c :: _ => is_condition c = false end ->
  split_conditions (cs ++ tail) = (cs, tail).
Proof.
  intros Hc Ht. induction Hc as [|c cs Hcond _ IH]; simpl.
  - destruct tail as [|c tail]; [reflexivity|]. simpl. now rewrite Ht.
  - now rewrite Hcond, IH.
Qed.

Lemma skipn_length_app (A : Type) (vs extra : list A) (n : nat) :
  n = List.length vs -> skipn n (vs ++ extra) = extra.
Proof.
  intros ->. rewrite skipn_app, skipn_all, Nat.sub_diag. reflexivity.
Qed.

Lemma built_conditions_of (f : Filters) : built (conditions_of f) (sql_matches f).
Proof.
  unfold conditions_of.
  pose proof (built_add_text _ _ (f_uid f) AND_uid_eq
                (fun s r => String.eqb (uid r) s) built_start eq_refl
                ltac:(reflexivity)) as B1.
  pose proof (built_add_text _ _ (f_campaign_id f) AND_campaign_id_eq
                (fun s r => String.eqb (campaign_id r) s) B1 eq_refl
                ltac:(reflexivity)) as B2.
  pose proof (built_add_text _ _ (f_start_date f) AND_timestamp_ge
                (fun s r => if is_numeric_literal s then true else String.leb s (timestamp r))
                B2 eq_refl ltac:(reflexivity)) as B3.
  pose proof (built_add_text _ _ (f_end_date f) AND_timestamp_le
                (fun s r => if is_numeric_literal s then false else String.leb (timestamp r) s)
                B3 eq_refl ltac:(reflexivity)) as B4.
  destruct B4 as [Hc Hl Hh].
  constructor; try assumption; intros r extra; rewrite Hh; reflexivity.
Qed.

Lemma getScans_query_eq (f : Filters) :
  getScans_query f =
  add_number (f_offset f) OFFSET
    (add_number (f_limit f) LIMIT
       (fst (conditions_of f) ++ [ORDER_BY_timestamp_DESC], snd (conditions_of f))).
Proof. reflexivity. Qed.

(** What the SELECT of [getScans] yields on a set of rows, by the kind of
    paging asked for. *)
Lemma select_all_getScans (f : Filters) (rows : list ScanRow) :
  let (sql, params) := getScans_query f in
  select_all sql params rows =
  match truthy_number (f_limit f), truthy_number (f_offset f) with
  | None, Some _ => Rejected SQLITE_ERROR
  | _, _ => Resolved (page f (order_by_timestamp_desc (filter (sql_matches f) rows)))
  end.
Proof.
  rewrite getScans_query_eq.
  destruct (built_conditions_of f) as [Hc Hl Hh].
  unfold add_number, page.
  destruct (truthy_number (f_limit f)) as [n|];
    destruct (truthy_number (f_offset f)) as [m|]; cbn [fst snd];
    unfold select_all; rewrite <- ?app_assoc;
    rewrite split_conditions_app by (try exact Hc; reflexivity);
    cbn [parse_tail app];
    try reflexivity;
    rewrite (select_rows_filter _ _ (sql_matches f)) by
      (intros r; first [ rewrite <- app_assoc; apply Hh
                       | apply Hh
                       | rewrite <- (app_nil_r (snd (conditions_of f))); apply Hh ]);
    rewrite ?skipn_length_app by exact Hl;
    try (rewrite <- (app_nil_r (snd (conditions_of f))) at 1;
         rewrite skipn_length_app by exact Hl);
    reflexivity.
Qed.

Lemma sql_matches_textual (f : Filters) (r : ScanRow) :
  textual_bound (f_start_date f) -> textual_bound (f_end_date f) ->
  sql_matches f r = matches f r.
Proof.
  unfold textual_bound, sql_matches, matches, text_filter.
  destruct (truthy_text (f_start_date f)); destruct (truthy_text (f_end_date f));
    intros H1 H2; rewrite ?H1, ?H2; reflexivity.
Qed.

Lemma getScans_eq (f : Filters) (st : Store) :
  getScans f st =
  let (fault, st') := enter st in
  if fault then (Rejected SQLITE_IOERR, st')
  else (match truthy_number (f_limit f), truthy_number (f_offset f) with
        | None, Some _ => Rejected SQLITE_ERROR
        | _, _ => Resolved (page f (order_by_timestamp_desc (filter (sql_matches f) (scans st))))
        end, st').
Proof.
  unfold getScans. pose proof (select_all_getScans f (scans st)) as H.
  destruct (getScans_query f) as [sql params]. unfold db_all.
  pose proof (enter_scans st) as Es.
  destruct (enter st) as [fault st']. destruct fault; [reflexivity|].
  simpl in Es. rewrite Es, H. reflexivity.
Qed.

End GetScans.

Section LedgerFacts.
Import Database Async.
Local Open Scope list_scope.
Local Open Scope Z_scope.

Lemma existsb_scan_id (rows : list ScanRow) (s : string) :
  existsb (fun r => String.eqb (scan_id r) s) rows = true <->
  In s (map scan_id rows).
Proof.
  rewrite existsb_exists, in_map_iff. split.
  - intros [r [Hin He]]. apply String.eqb_eq in He. eauto.
  - intros [r [He Hin]]. exists r. split; [assumption | now apply String.eqb_eq].
Qed.

Lemma insertScan_eq (d : ScanData) (st : Store) :
  next_call_succeeds st ->
  insertScan d st =
  if existsb (fun r => String.eqb (scan_id r) (d_scan_id d)) (scans st)
  then (Rejected SQLITE_CONSTRAINT, snd (enter st))
  else (Resolved (mk_run (last_id st + 1) 1),
        mk_store (scans st ++ [row_of (last_id st + 1) d]) (last_id st + 1)
                 (faults (snd (enter st)))).
Proof.
  unfold next_call_succeeds, insertScan. intros Hok.
  pose proof (enter_scans st) as Es. pose proof (enter_last_id st) as El.
  destruct (enter st) as [fault st']. simpl in *. subst fault.
  rewrite Es, El. reflexivity.
Qed.

Lemma insertScan_keeps_unique (d : ScanData) (st : Store) :
  unique_scan_ids st -> unique_scan_ids (snd (insertScan d st)).
Proof.
  unfold unique_scan_ids, insertScan. intros Hu.
  pose proof (enter_scans st) as Es.
  destruct (enter st) as [fault st']. simpl in Es.
  destruct fault; simpl; [now rewrite Es|].
  destruct (existsb _ (scans st')) eqn:Ex; simpl; [now rewrite Es|].
  rewrite Es in *. rewrite map_app. simpl.
  apply NoDup_app; [assumption | repeat constructor; intros [] | ].
  intros s Hin [<-|[]].
  apply existsb_scan_id in Hin. congruence.
Qed.

Lemma db_all_scans sql params (st : Store) :
  scans (snd (db_all sql params st)) = scans st.
Proof.
  unfold db_all. pose proof (enter_scans st) as Es.
  destruct (enter st) as [fault st']. destruct fault; exact Es.
Qed.

Lemma count_or_zero_scans count (st : Store) :
  scans (snd (count_or_zero count st)) = scans st.
Proof.
  unfold count_or_zero. pose proof (enter_scans st) as Es.
  destruct (enter st) as [fault st']. destruct fault; exact Es.
Qed.

Lemma last_or_null_scans (st : Store) : scans (snd (last_or_null st)) = scans st.
Proof.
  unfold last_or_null. pose proof (enter_scans st) as Es.
  destruct (enter st) as [fault st']. destruct fault; exact Es.
Qed.

Lemma getStats_scans now now' (st : Store) :
  scans (snd (getStats now now' st)) = scans st.
Proof.
  unfold getStats.
  repeat match goal with
  | |- context [count_or_zero ?c ?s] =>
      let H := fresh "E" in
      pose proof (count_or_zero_scans c s) as H;
      destruct (count_or_zero c s); simpl in H
  end.
  pose proof (last_or_null_scans s2) as El. destruct (last_or_null s2). simpl in *.
  congruence.
Qed.

(** Only [insertScan] changes the rows. *)
Lemma perform_read_scans (R : Type) (c : call R) (st : Store) :
  match c with call_insertScan _ => True | _ => scans (snd (perform c st)) = scans st end.
Proof.
  destruct c; simpl; trivial.
  - unfold getScans. destruct (getScans_query filters). apply db_all_scans.
  - unfold getLastScanTime.
    pose proof (db_all_scans [AND_uid_eq; ORDER_BY_timestamp_DESC; LIMIT]
                  [Text u; Integer 1] st) as E.
    destruct (db_all _ _ st) as [[rows|e] st']; exact E.
  - unfold getDailyScanCount. pose proof (enter_scans st) as Es.
    destruct (enter st) as [fault st']. destruct fault; exact Es.
  - apply getStats_scans.
Qed.

Lemma perform_keeps_unique (R : Type) (c : call R) (st : Store) :
  unique_scan_ids st -> unique_scan_ids (snd (perform c st)).
Proof.
  intros Hu. pose proof (perform_read_scans R c st) as H.
  destruct c; try (unfold unique_scan_ids; rewrite H; exact Hu).
  apply insertScan_keeps_unique, Hu.
Qed.

Lemma lifetime_unique (st : Store) : lifetime st -> unique_scan_ids st.
Proof.
  induction 1 as [script | R c st _ IH].
  - unfold unique_scan_ids. simpl. constructor.
  - apply perform_keeps_unique, IH.
Qed.

End LedgerFacts.

(** C5. At any point of a ledger's lifetime no two rows share a scan id;
    an append whose storage call goes through is rejected with the
    constraint error and leaves the rows as they were when the scan id is
    already there, and otherwise resolves and adds exactly the new row at
    the end; either way the scan ids stay unique. *)
Theorem insertScan_duplicate_scan_id_rejected
  (st : Database.Store) (d : Database.ScanData)
  (Hlife : lifetime st) (Hok : next_call_succeeds st) :
  unique_scan_ids st /\
  (In (Database.d_scan_id d) (map Database.scan_id (Database.scans st)) ->
     fst (Database.insertScan d st) = Database.Rejected Database.SQLITE_CONSTRAINT /\
     Database.scans (snd (Database.insertScan d st)) = Database.scans st) /\
  (~ In (Database.d_scan_id d) (map Database.scan_id (Database.scans st)) ->
     fst (Database.insertScan d st) =
       Database.Resolved (Database.mk_run (Database.last_id st + 1) 1) /\
     Database.scans (snd (Database.insertScan d st)) =
       (Database.scans st ++ [row_of (Database.last_id st + 1) d])%list) /\
  unique_scan_ids (snd (Database.insertScan d st)).
Proof.
  pose proof (lifetime_unique st Hlife) as Hu.
  split; [exact Hu|].
  rewrite (insertScan_eq d st Hok).
  split; [|split].
  - intros Hin. apply existsb_scan_id in Hin. rewrite Hin. simpl.
    split; [reflexivity | apply enter_scans].
  - intros Hnin.
    destruct (existsb _ (Database.scans st)) eqn:Ex.
    + apply existsb_scan_id in Ex. contradiction.
    + simpl. split; reflexivity.
  - rewrite <- (insertScan_eq d st Hok). apply insertScan_keeps_unique, Hu.
Qed.

Lemma insertScan_duplicate_scan_id_rejected_witness :
  let d := Database.mk_scan "scan_1760868000000_deadbeef" "TEST12345678" "DEMO01"
             "2025-10-19T10:00:00.000Z" "00" true in
  let st := snd (Async.perform (Async.call_insertScan d) (Database.empty_store [])) in
  fst (Database.insertScan d st) = Database.Rejected Database.SQLITE_CONSTRAINT /\
  Database.scans (snd (Database.insertScan d st)) = Database.scans st.
Proof.
  intros d st.
  refine (proj1 (proj2 (insertScan_duplicate_scan_id_rejected st d _ _)) _).
  - apply lifetime_call, lifetime_start.
  - reflexivity.
  - simpl. left. reflexivity.
Defined.

(** C6, the failing call. When an offset is supplied without a (non-zero)
    limit, the statement ends in [ORDER BY timestamp DESC OFFSET ?], which
    SQLite refuses: the query rejects with a syntax error and returns no
    rows, whatever the ledger holds. *)
Theorem getScans_offset_without_limit_rejects
  (f : Database.Filters) (st : Database.Store) (m : Z)
  (Hok : next_call_succeeds st)
  (Hlimit : Database.truthy_number (Database.f_limit f) = None)
  (Hoffset : Database.truthy_number (Database.f_offset f) = Some m) :
  fst (Database.getScans f st) = Database.Rejected Database.SQLITE_ERROR.
Proof.
  rewrite getScans_eq. unfold next_call_succeeds in Hok.
  destruct (Database.enter st) as [fault st']. simpl in Hok. subst fault.
  rewrite Hlimit, Hoffset. reflexivity.
Qed.

Lemma getScans_offset_without_limit_rejects_witness :
  fst (Database.getScans (Database.mk_filters None None None None None (Some 5%Z))
         (Database.mk_store
            [Database.mk_row 1 "scan_1760868000000_deadbeef" "TEST12345678" "DEMO01"
               "2025-10-19T10:00:00.000Z" "00" true] 1 []))
  = Database.Rejected Database.SQLITE_ERROR.
Proof.
  apply (getScans_offset_without_limit_rejects _ _ 5%Z); reflexivity.
Defined.

(** The same failure through GET /v1/logs?limit=0&offset=5. *)
Example logs_limit_0_offset_5_fails :
  fst (Async.run
         (Pipeline.logsHandler
            (Pipeline.mk_logs_query (Some 0%Z) (Some 5%Z) None None None None))
         (Database.empty_store []))
  = Pipeline.Failed "Failed to retrieve logs" Database.SQLITE_ERROR.
Proof. reflexivity. Qed.

(** Otherwise the query returns the matching rows, newest first, paged. *)
Lemma getScans_returns_matching_page (f : Database.Filters) (st : Database.Store) :
  next_call_succeeds st -> offset_has_limit f ->
  textual_bound (Database.f_start_date f) -> textual_bound (Database.f_end_date f) ->
  exists rows,
    fst (Database.getScans f st) = Database.Resolved (page f rows) /\
    Permutation (filter (matches f) (Database.scans st)) rows /\
    StronglySorted newer_first rows.
Proof.
  intros Hok Hpage Hs He.
  exists (Database.order_by_timestamp_desc (filter (matches f) (Database.scans st))).
  split; [|split].
  - rewrite getScans_eq. unfold next_call_succeeds in Hok.
    destruct (Database.enter st) as [fault st']. simpl in Hok. subst fault.
    rewrite (filter_ext _ _ (fun r => sql_matches_textual f r Hs He)).
    destruct Hpage as [Ho|Hl].
    + rewrite Ho. destruct (Database.truthy_number (Database.f_limit f)); reflexivity.
    + destruct (Database.truthy_number (Database.f_limit f)); [|congruence].
      destruct (Database.truthy_number (Database.f_offset f)); reflexivity.
  - apply order_by_timestamp_desc_perm.
  - apply order_by_timestamp_desc_sorted.
Qed.

Section StorageFaults.
Import Database Async Pipeline.
Local Open Scope list_scope.
Local Open Scope Z_scope.

Lemma enter_fault (st : Store) : fst (enter st) = fault_at 0 st.
Proof. unfold enter, fault_at. destruct (faults st); reflexivity. Qed.

Lemma enter_faults (st : Store) : faults (snd (enter st)) = tl (faults st).
Proof. unfold enter. destruct (faults st) eqn:E; simpl; [exact E | reflexivity]. Qed.

Lemma fault_at_enter (n : nat) (st : Store) :
  fault_at n (snd (enter st)) = fault_at (S n) st.
Proof.
  unfold fault_at. rewrite enter_faults.
  destruct (faults st); simpl; [destruct n; reflexivity | reflexivity].
Qed.

Lemma In_firstn_nth (l : list bool) : forall n : nat,
  In true (firstn n l) -> exists i : nat, (i < n)%nat /\ nth i l false = true.
Proof.
  induction l as [|x l IH]; intros [|n]; simpl; try (intros Hf; contradiction Hf).
  intros [->|Hin].
  - exists 0%nat. split; [lia | reflexivity].
  - destruct (IH n Hin) as [i [Hi Hn]]. exists (S i). split; [lia | exact Hn].
Qed.

Lemma length_faults_enter (st : Store) :
  List.length (faults (snd (enter st))) = (List.length (faults st) - 1)%nat.
Proof. rewrite enter_faults. destruct (faults st); simpl; lia. Qed.

(** A served flag that is set belongs to one of the calls made. *)
Lemma served_fault (st st' : Store) (calls : nat) :
  (List.length (faults st) - calls <= List.length (faults st'))%nat ->
  In true (served st st') ->
  exists i : nat, (i < calls)%nat /\ fault_at i st = true.
Proof.
  unfold served, fault_at. intros Hlen Hin.
  destruct (In_firstn_nth _ _ Hin) as [i [Hi Hn]].
  exists i. split; [lia | exact Hn].
Qed.

Lemma getLastScanTime_eq (u : string) (st : Store) :
  getLastScanTime u st =
  if fst (enter st) then (Rejected SQLITE_IOERR, snd (enter st))
  else (Resolved (newest_timestamp (filter (fun r => String.eqb (uid r) u) (scans st))),
        snd (enter st)).
Proof.
  unfold getLastScanTime, db_all, newest_timestamp.
  pose proof (enter_scans st) as Es.
  destruct (enter st) as [fault st']. simpl in *. destruct fault; [reflexivity|].
  rewrite Es. unfold select_all. cbn [split_conditions is_condition parse_tail].
  rewrite (select_rows_filter _ _ (fun r => String.eqb (uid r) u)).
  2:{ intros r. simpl. now rewrite andb_true_r. }
  cbn [List.length skipn paging apply_limit].
  change (1 <? 0) with false. cbv iota. change (Z.to_nat 1) with 1%nat.
  destruct (order_by_timestamp_desc _) as [|r rest]; reflexivity.
Qed.

Lemma getDailyScanCount_eq (u date : string) (st : Store) :
  getDailyScanCount u date st =
  if fst (enter st) then (Rejected SQLITE_IOERR, snd (enter st))
  else (Resolved (Z.of_nat (List.length
          (filter (fun r => String.eqb (uid r) u && on_day date r) (scans st)))),
        snd (enter st)).
Proof.
  unfold getDailyScanCount. pose proof (enter_scans st) as Es.
  destruct (enter st) as [fault st']. simpl in *. destruct fault; [reflexivity|].
  now rewrite Es.
Qed.

Lemma run_antiFraudCheck (antifraud : Config.antifraud) (rd : Readings) (u : string)
  (st : Store) :
  run (antiFraudCheck antifraud rd u) st =
  let st1 := snd (enter st) in
  if fst (enter st) then (NextError SQLITE_IOERR, st1)
  else
    let last := newest_timestamp (filter (fun r => String.eqb (uid r) u) (scans st)) in
    if in_cooldown antifraud rd last
    then (Respond (COOLDOWN_ACTIVE (Config.cooldownMinutes antifraud) last), st1)
    else
      let st2 := snd (enter st1) in
      if fst (enter st1) then (NextError SQLITE_IOERR, st2)
      else
        let today := JsDate.before_T (JsDate.toISOString (at_daily rd)) in
        let n := Z.of_nat (List.length
                   (filter (fun r => String.eqb (uid r) u && on_day today r) (scans st))) in
        if Config.dailyScanLimit antifraud <=? n
        then (Respond (DAILY_LIMIT_EXCEEDED (Config.dailyScanLimit antifraud) n), st2)
        else (Next, st2).
Proof.
  unfold antiFraudCheck. cbn [run perform]. rewrite getLastScanTime_eq.
  destruct (fst (enter st)); [reflexivity|]. cbv zeta. fold (in_cooldown antifraud rd
    (newest_timestamp (filter (fun r => String.eqb (uid r) u) (scans st)))).
  destruct (in_cooldown _ _ _); [reflexivity|].
  cbn [run perform]. rewrite getDailyScanCount_eq, enter_scans.
  destruct (fst (enter (snd (enter st)))); [reflexivity|].
  destruct (_ <=? _); reflexivity.
Qed.

End StorageFaults.

Section ReadFailures.
Import Database Async Pipeline.
Local Open Scope list_scope.
Local Open Scope Z_scope.

Lemma getScans_fault (f : Filters) (st : Store) :
  fst (enter st) = true -> getScans f st = (Rejected SQLITE_IOERR, snd (enter st)).
Proof.
  intros H. rewrite getScans_eq. destruct (enter st) as [fault st'].
  simpl in H. now subst.
Qed.

Lemma getScans_store (f : Filters) (st : Store) : snd (getScans f st) = snd (enter st).
Proof.
  rewrite getScans_eq. destruct (enter st) as [fault st']. now destruct fault.
Qed.

Lemma getScans_no_fault (f : Filters) (st : Store) :
  fst (enter st) = false -> fst (getScans f st) <> Rejected SQLITE_IOERR.
Proof.
  intros H. rewrite getScans_eq. destruct (enter st) as [fault st'].
  simpl in H. subst. simpl.
  destruct (truthy_number (f_limit f)); destruct (truthy_number (f_offset f)); discriminate.
Qed.

Lemma antiFraudCheck_fault (antifraud : Config.antifraud) (rd : Readings) (u : string)
  (st : Store) :
  In true (served st (snd (run (antiFraudCheck antifraud rd u) st))) ->
  fst (run (antiFraudCheck antifraud rd u) st) = NextError SQLITE_IOERR.
Proof.
  rewrite run_antiFraudCheck. cbv zeta.
  pose proof (enter_fault st) as F0.
  pose proof (enter_fault (snd (enter st))) as F1. rewrite fault_at_enter in F1.
  pose proof (length_faults_enter st) as L0.
  pose proof (length_faults_enter (snd (enter st))) as L1.
  destruct (fst (enter st)) eqn:E0; [reflexivity|].
  destruct (in_cooldown _ _ _).
  - cbn [fst snd]. intros Hin.
    (apply (served_fault st _ 1) in Hin; [|lia]); destruct Hin as [i [Hi Hf]].
    assert (i = 0%nat) by lia. subst. congruence.
  - destruct (fst (enter (snd (enter st)))) eqn:E1; [reflexivity|].
    assert (Hserved : In true (served st (snd (enter (snd (enter st))))) -> False).
    { intros Hin.
      (apply (served_fault st _ 2) in Hin; [|lia]); destruct Hin as [i [Hi Hf]].
      assert (i = 0 \/ i = 1)%nat as [->| ->] by lia; congruence. }
    destruct (_ <=? _); cbn [fst snd]; intros Hin; destruct (Hserved Hin).
Qed.

Lemma logsHandler_fault (q : LogsQuery) (st : Store) :
  In true (served st (snd (run (logsHandler q) st))) ->
  fst (run (logsHandler q) st) = Failed "Failed to retrieve logs" SQLITE_IOERR.
Proof.
  unfold logsHandler. cbn [run perform].
  set (f := mk_filters _ _ _ _ _ _).
  pose proof (getScans_store f st) as S0.
  pose proof (enter_fault st) as F0.
  pose proof (length_faults_enter st) as L0.
  destruct (fst (enter st)) eqn:E0.
  - rewrite (getScans_fault f st E0). reflexivity.
  - pose proof (getScans_no_fault f st E0) as N0.
    destruct (getScans f st) as [[rows|e] st1]; cbn [fst snd] in *; subst st1.
    + cbn [run perform].
      set (f' := mk_filters _ _ _ _ None None).
      pose proof (getScans_store f' (snd (enter st))) as S1.
      pose proof (enter_fault (snd (enter st))) as F1. rewrite fault_at_enter in F1.
      pose proof (length_faults_enter (snd (enter st))) as L1.
      destruct (fst (enter (snd (enter st)))) eqn:E1.
      * rewrite (getScans_fault f' _ E1). reflexivity.
      * destruct (getScans f' (snd (enter st))) as [[rows'|e'] st2];
          cbn [fst snd] in *; subst st2; cbn [run fst snd]; intros Hin;
          (apply (served_fault st _ 2) in Hin; [|lia]); destruct Hin as [i [Hi Hf]];
          (assert (i = 0 \/ i = 1)%nat as [->| ->] by lia); congruence.
    + cbn [run fst snd]. intros Hin.
      (apply (served_fault st _ 1) in Hin; [|lia]); destruct Hin as [i [Hi Hf]].
      assert (i = 0%nat) by lia. subst. congruence.
Qed.

Lemma count_or_zero_eq count (st : Store) :
  count_or_zero count st =
  (if fault_at 0 st then 0 else count (scans st), snd (enter st)).
Proof.
  unfold count_or_zero. rewrite <- enter_fault. pose proof (enter_scans st) as Es.
  destruct (enter st) as [fault st']. simpl in *. destruct fault; [reflexivity|].
  now rewrite Es.
Qed.

Lemma last_or_null_eq (st : Store) :
  last_or_null st =
  (if fault_at 0 st then None else newest_timestamp (scans st), snd (enter st)).
Proof.
  unfold last_or_null, newest_timestamp. rewrite <- enter_fault.
  pose proof (enter_scans st) as Es.
  destruct (enter st) as [fault st']. simpl in *. destruct fault; [reflexivity|].
  now rewrite Es.
Qed.

Lemma getStats_eq (now now' : Z) (st : Store) :
  fst (getStats now now' st) =
  Resolved (mk_stats
    (if fault_at 0 st then 0 else count_rows (fun _ => true) (scans st))
    (if fault_at 1 st then 0
     else count_rows (on_day (JsDate.before_T (JsDate.toISOString now))) (scans st))
    (if fault_at 2 st then 0
     else count_rows (on_day (JsDate.before_T
            (JsDate.toISOString (now' - 24 * 60 * 60 * 1000)))) (scans st))
    (if fault_at 3 st then 0
     else Z.of_nat (List.length (distinct (map uid (scans st)))))
    (if fault_at 4 st then None else newest_timestamp (scans st))).
Proof.
  unfold getStats. rewrite !count_or_zero_eq, last_or_null_eq.
  cbn [fst snd]. rewrite !fault_at_enter, !enter_scans. reflexivity.
Qed.

End ReadFailures.

(** C7 as stated fails: with every read failing, the statistics view still
    resolves, reporting zero scans and no last scan for a ledger that holds
    a row. *)
Lemma getStats_turns_read_failures_into_zero_counts :
  let st := Database.mk_store
              [Database.mk_row 1 "scan_1760868000000_deadbeef" "TEST12345678" "DEMO01"
                 "2025-10-19T10:00:00.000Z" "00" true]
              1 [true; true; true; true; true] in
  fst (Async.run (Pipeline.statsHandler 1760868001000 1760868001000) st) =
    Pipeline.Statistics (Database.mk_stats 0 0 0 0 None) /\
  fst (Database.getStats 1760868001000 1760868001000
         (Database.mk_store (Database.scans st) 1 [])) =
    Database.Resolved (Database.mk_stats 1 1 0 1 (Some "2025-10-19T10:00:00.000Z")).
Proof. split; vm_compute; reflexivity. Qed.

(** C7, amended. A storage read that fails during fraud-policy evaluation
    ends the evaluation in [next(error)], never in an admission or a
    policy rejection; one that fails while the listing route reads ends in
    the route's failure answer; and [getScans], [getLastScanTime] and
    [getDailyScanCount] reject.  The statistics view is the exception: it
    always resolves, and each of its five reads that fails is replaced by
    its default, 0 for a count and null for the last scan. *)
Theorem read_failures_propagate_except_in_getStats (st : Database.Store) :
  (forall antifraud rd u,
     In true (served st (snd (Async.run (Pipeline.antiFraudCheck antifraud rd u) st))) ->
     fst (Async.run (Pipeline.antiFraudCheck antifraud rd u) st) =
       Pipeline.NextError Database.SQLITE_IOERR) /\
  (forall q,
     In true (served st (snd (Async.run (Pipeline.logsHandler q) st))) ->
     fst (Async.run (Pipeline.logsHandler q) st) =
       Pipeline.Failed "Failed to retrieve logs" Database.SQLITE_IOERR) /\
  (fault_at 0 st = true ->
     (forall f, fst (Database.getScans f st) = Database.Rejected Database.SQLITE_IOERR) /\
     (forall u, fst (Database.getLastScanTime u st) = Database.Rejected Database.SQLITE_IOERR) /\
     (forall u date,
        fst (Database.getDailyScanCount u date st) = Database.Rejected Database.SQLITE_IOERR)) /\
  (forall now now',
     fst (Database.getStats now now' st) =
     Database.Resolved (Database.mk_stats
       (if fault_at 0 st then 0
        else Database.count_rows (fun _ => true) (Database.scans st))
       (if fault_at 1 st then 0
        else Database.count_rows
               (Database.on_day (JsDate.before_T (JsDate.toISOString now)))
               (Database.scans st))
       (if fault_at 2 st then 0
        else Database.count_rows
               (Database.on_day
                  (JsDate.before_T (JsDate.toISOString (now' - 24 * 60 * 60 * 1000))))
               (Database.scans st))
       (if fault_at 3 st then 0
        else Z.of_nat (List.length
               (Database.distinct (map Database.uid (Database.scans st)))))
       (if fault_at 4 st then None else newest_timestamp (Database.scans st)))).
Proof.
  split; [|split; [|split]].
  - intros antifraud rd u. apply antiFraudCheck_fault.
  - intros q. apply logsHandler_fault.
  - intros Hf. rewrite <- enter_fault in Hf. repeat split.
    + intros f. now rewrite getScans_fault.
    + intros u. rewrite getLastScanTime_eq, Hf. reflexivity.
    + intros u date. rewrite getDailyScanCount_eq, Hf. reflexivity.
  - intros now now'. apply getStats_eq.
Qed.

Section CooldownFacts.
Import Database Async Pipeline.
Local Open Scope list_scope.
Local Open Scope Z_scope.

Lemma instant_stamped (r : ScanRow) (t : Z) :
  JsDate.four_digit_year t -> timestamp r = JsDate.toISOString t -> instant r = t.
Proof. intros H E. unfold instant. now rewrite E, moment_toISOString. Qed.

Lemma truthy_text_toISOString (t : Z) :
  JsDate.four_digit_year t ->
  truthy_text (Some (JsDate.toISOString t)) = Some (JsDate.toISOString t).
Proof.
  intros H. pose proof (length_toISOString t H) as L. unfold truthy_text.
  destruct (JsDate.toISOString t); [discriminate | reflexivity].
Qed.

Lemma newest_timestamp_most_recent (st : Store) (u : string) (r : ScanRow) (t : Z) :
  all_stamped st -> most_recent_record st u r t ->
  newest_timestamp (filter (fun x => String.eqb (uid x) u) (scans st))
  = Some (JsDate.toISOString t).
Proof.
  intros Hst (Hin & Hu & Ht & Hts & Hmax). unfold newest_timestamp.
  assert (Hr : In r (filter (fun x => String.eqb (uid x) u) (scans st))).
  { apply filter_In. split; [exact Hin | now apply String.eqb_eq]. }
  destruct (order_by_timestamp_desc _) as [|h rest] eqn:E.
  - apply order_by_timestamp_desc_nil in E. rewrite E in Hr. destruct Hr.
  - apply order_by_timestamp_desc_head in E. destruct E as [Hh Hge].
    apply filter_In in Hh. destruct Hh as [Hhin Hhu]. apply String.eqb_eq in Hhu.
    unfold all_stamped in Hst. rewrite Forall_forall in Hst.
    destruct (Hst h Hhin) as [th [Hth Hhts]].
    pose proof (Hge r Hr) as Hle. rewrite Hts, Hhts, leb_toISOString in Hle by assumption.
    apply Z.leb_le in Hle.
    pose proof (Hmax h Hhin Hhu) as Hm. rewrite (instant_stamped h th Hth Hhts) in Hm.
    f_equal. rewrite Hhts. f_equal. lia.
Qed.

Lemma isWithinCooldown_stamped (now t window : Z) :
  JsDate.four_digit_year t ->
  Cooldown.isWithinCooldown now (Some (JsDate.toISOString t)) window
  = (JsDate.diff_minutes now t <? window).
Proof.
  intros H. unfold Cooldown.isWithinCooldown.
  now rewrite truthy_text_toISOString, moment_toISOString.
Qed.

Lemma in_cooldown_stamped (antifraud : Config.antifraud) (rd : Readings) (t : Z) :
  JsDate.four_digit_year t ->
  in_cooldown antifraud rd (Some (JsDate.toISOString t))
  = (JsDate.diff_minutes (at_cooldown rd) t <? Config.cooldownMinutes antifraud).
Proof.
  intros H. unfold in_cooldown.
  now rewrite truthy_text_toISOString, isWithinCooldown_stamped.
Qed.

Lemma diff_minutes_within (now t window : Z) :
  0 < window -> now - t < window * JsDate.msPerMinute ->
  JsDate.diff_minutes now t < window.
Proof.
  unfold JsDate.diff_minutes, JsDate.msPerMinute. intros Hw H.
  destruct (Z.le_gt_cases 0 (now - t)) as [Hpos|Hneg].
  - rewrite Z.quot_div_nonneg by lia. apply Z.div_lt_upper_bound; lia.
  - assert (Z.quot (now - t) 60000 <= 0); [|lia].
    rewrite <- (Z.opp_involutive (now - t)), Z.quot_opp_l by lia.
    assert (0 <= Z.quot (- (now - t)) 60000) by (apply Z.quot_pos; lia). lia.
Qed.

Lemma diff_minutes_boundary (now t window : Z) :
  now - t = window * JsDate.msPerMinute -> JsDate.diff_minutes now t = window.
Proof.
  unfold JsDate.diff_minutes, JsDate.msPerMinute. intros ->.
  apply Z.quot_mul. lia.
Qed.

End CooldownFacts.

(** A record that is not from the future and is younger than the window
    makes the window positive. *)
Lemma young_record_positive_window (now t window : Z) :
  (0 <= now - t)%Z -> (now - t < window * JsDate.msPerMinute)%Z -> (0 < window)%Z.
Proof. unfold JsDate.msPerMinute. lia. Qed.

(** C1. When the most recent admitted record of an identifier is less than
    the configured cooldown window old, the evaluator answers
    COOLDOWN_ACTIVE carrying the configured window (and the time of that
    record, not the elapsed time), whatever the day's count is: the
    evaluation ends after its first read, before the daily count is even
    queried.  The window is positive, as it is whenever the record has a
    non-negative age below it. *)
Theorem cooldown_reject_reports_window_before_daily_limit
  (antifraud : Config.antifraud) (rd : Pipeline.Readings) (u : string)
  (st : Database.Store) (r : Database.ScanRow) (t : Z)
  (Hledger : all_stamped st)
  (Hok : next_call_succeeds st)
  (Hwindow : (0 < Config.cooldownMinutes antifraud)%Z)
  (Hrecent : most_recent_record st u r t)
  (Hyoung : (Pipeline.at_cooldown rd - t
             < Config.cooldownMinutes antifraud * JsDate.msPerMinute)%Z) :
  Async.run (Pipeline.antiFraudCheck antifraud rd u) st =
  (Pipeline.Respond
     (Pipeline.COOLDOWN_ACTIVE (Config.cooldownMinutes antifraud)
        (Some (JsDate.toISOString t))),
   snd (Database.enter st)).
Proof.
  rewrite run_antiFraudCheck. cbv zeta.
  unfold next_call_succeeds in Hok. rewrite Hok.
  rewrite (newest_timestamp_most_recent st u r t Hledger Hrecent).
  destruct Hrecent as (_ & _ & Ht & _ & _).
  rewrite in_cooldown_stamped by exact Ht.
  pose proof (diff_minutes_within _ _ _ Hwindow Hyoung) as Hd.
  apply Z.ltb_lt in Hd. rewrite Hd. reflexivity.
Qed.

(** C2. When the most recent admitted record is exactly the cooldown window
    old, the evaluator does not answer COOLDOWN_ACTIVE: the comparison is
    strict, and the evaluation goes on to the daily count. *)
Theorem cooldown_boundary_not_blocked
  (antifraud : Config.antifraud) (rd : Pipeline.Readings) (u : string)
  (st : Database.Store) (r : Database.ScanRow) (t : Z)
  (Hledger : all_stamped st)
  (Hrecent : most_recent_record st u r t)
  (Hexact : (Pipeline.at_cooldown rd - t
             = Config.cooldownMinutes antifraud * JsDate.msPerMinute)%Z) :
  in_cooldown antifraud rd (Some (JsDate.toISOString t)) = false /\
  forall window last,
    fst (Async.run (Pipeline.antiFraudCheck antifraud rd u) st)
    <> Pipeline.Respond (Pipeline.COOLDOWN_ACTIVE window last).
Proof.
  assert (Hc : in_cooldown antifraud rd (Some (JsDate.toISOString t)) = false).
  { destruct Hrecent as (_ & _ & Ht & _ & _).
    rewrite in_cooldown_stamped by exact Ht.
    rewrite (diff_minutes_boundary _ _ _ Hexact). apply Z.ltb_irrefl. }
  split; [exact Hc|].
  intros window last. rewrite run_antiFraudCheck. cbv zeta.
  rewrite (newest_timestamp_most_recent st u r t Hledger Hrecent), Hc.
  destruct (fst (Database.enter st)); [discriminate|].
  destruct (fst (Database.enter (snd (Database.enter st)))); [discriminate|].
  destruct (_ <=? _)%Z; discriminate.
Qed.


(** One second after the sample scan, under a daily limit of one scan
    (already reached), the answer is the cooldown with the window of 5. *)
Lemma cooldown_reject_reports_window_before_daily_limit_witness :
  Async.run
    (Pipeline.antiFraudCheck (Config.load None (Some 1%Z))
       (readings_at (sample_instant + 1000) "cafebabe") "TEST12345678")
    sample_store
  = (Pipeline.Respond
       (Pipeline.COOLDOWN_ACTIVE 5 (Some (JsDate.toISOString sample_instant))),
     snd (Database.enter sample_store))
  /\ fst (Database.getDailyScanCount "TEST12345678" "2025-10-19" sample_store)
     = Database.Resolved 1%Z.
Proof.
  split.
  - apply (cooldown_reject_reports_window_before_daily_limit
             (Config.load None (Some 1%Z)) (readings_at (sample_instant + 1000) "cafebabe")
             "TEST12345678" sample_store sample_row sample_instant).
    + constructor; [|constructor]. exists sample_instant.
      split; [unfold JsDate.four_digit_year, JsDate.first_instant, JsDate.end_instant,
          sample_instant; lia | vm_compute; reflexivity].
    + reflexivity.
    + reflexivity.
    + split; [left; reflexivity|]. split; [reflexivity|].
      split; [unfold JsDate.four_digit_year, JsDate.first_instant, JsDate.end_instant,
          sample_instant; lia|]. split; [vm_compute; reflexivity|].
      intros r' [<-|[]] _. vm_compute. discriminate.
    + reflexivity.
  - vm_compute. reflexivity.
Defined.

(** Exactly five minutes after the sample scan the request is not blocked
    by the cooldown. *)
Lemma cooldown_boundary_not_blocked_witness :
  in_cooldown Config.default (readings_at (sample_instant + 300000) "cafebabe")
    (Some (JsDate.toISOString sample_instant)) = false /\
  forall window last,
    fst (Async.run
           (Pipeline.antiFraudCheck Config.default
              (readings_at (sample_instant + 300000) "cafebabe") "TEST12345678")
           sample_store)
    <> Pipeline.Respond (Pipeline.COOLDOWN_ACTIVE window last).
Proof.
  apply (cooldown_boundary_not_blocked Config.default
           (readings_at (sample_instant + 300000) "cafebabe")
           "TEST12345678" sample_store sample_row sample_instant).
  - constructor; [|constructor]. exists sample_instant.
    split; [unfold JsDate.four_digit_year, JsDate.first_instant, JsDate.end_instant,
          sample_instant; lia | vm_compute; reflexivity].
  - split; [left; reflexivity|]. split; [reflexivity|].
    split; [unfold JsDate.four_digit_year, JsDate.first_instant, JsDate.end_instant,
          sample_instant; lia|]. split; [vm_compute; reflexivity|].
    intros r' [<-|[]] _. vm_compute. discriminate.
  - reflexivity.
Defined.

Section PipelineFacts.
Import Database Async Pipeline.
Local Open Scope list_scope.
Local Open Scope Z_scope.

Lemma run_bind (A B : Type) (t : task A) (k : A -> task B) : forall st : Store,
  run (bind t k) st = let (a, st') := run t st in run (k a) st'.
Proof.
  induction t as [a | R c k' IH]; intros st; simpl; [reflexivity|].
  destruct (perform c st) as [got st']. apply IH.
Qed.

Lemma makes_calls_bind (P : forall R : Type, call R -> Prop) (A B : Type)
  (t : task A) (k : A -> task B) :
  makes_calls P t -> (forall a, makes_calls P (k a)) -> makes_calls P (bind t k).
Proof.
  intros Ht Hk. induction Ht as [a | R c k' Hc _ IH]; simpl; [apply Hk|].
  constructor; [exact Hc | exact IH].
Qed.

Lemma run_invariant (P : forall R : Type, call R -> Prop) (I : Store -> Prop) (A : Type)
  (t : task A) :
  (forall R (c : call R) st, P R c -> I st -> I (snd (perform c st))) ->
  makes_calls P t -> forall st, I st -> I (snd (run t st)).
Proof.
  intros Hstep Ht. induction Ht as [a | R c k Hc _ IH]; intros st Hst; simpl; [exact Hst|].
  pose proof (Hstep R c st Hc Hst) as H1.
  destruct (perform c st) as [got st']. apply IH, H1.
Qed.

Lemma turn_invariant (P : forall R : Type, call R -> Prop) (I : Store -> Prop) (A : Type)
  (t : task A) (st : Store) :
  (forall R (c : call R) st, P R c -> I st -> I (snd (perform c st))) ->
  makes_calls P t -> I st ->
  makes_calls P (fst (turn t st)) /\ I (snd (turn t st)).
Proof.
  intros Hstep Ht Hst. destruct Ht as [a | R c k Hc Hk]; simpl.
  - split; [constructor | exact Hst].
  - pose proof (Hstep R c st Hc Hst) as H1.
    destruct (perform c st) as [got st']. split; [apply Hk | exact H1].
Qed.

Lemma perform_keeps_stamped (R : Type) (c : call R) (st : Store) :
  stamps_only R c -> all_stamped st -> all_stamped (snd (perform c st)).
Proof.
  intros Hc Hst. pose proof (perform_read_scans R c st) as H.
  destruct c; try (unfold all_stamped; rewrite H; exact Hst).
  simpl in *. unfold all_stamped, insertScan.
  pose proof (enter_scans st) as Es.
  destruct (enter st) as [fault st']. simpl in Es.
  destruct fault; simpl; [now rewrite Es|].
  destruct (existsb _ _); simpl; [now rewrite Es|].
  rewrite Es. apply Forall_app. split; [exact Hst|].
  constructor; [|constructor]. exact Hc.
Qed.

Lemma antiFraudCheck_reads (antifraud : Config.antifraud) (rd : Readings) (u : string) :
  makes_calls stamps_only (antiFraudCheck antifraud rd u).
Proof.
  unfold antiFraudCheck. constructor; [exact I|].
  intros [last|e]; [|constructor].
  destruct (_ && _); [constructor|].
  constructor; [exact I|].
  intros [n|e]; [|constructor]. destruct (_ <=? _); constructor.
Qed.

Lemma scanHandler_stamps (secret : string) (rd : Readings) (u campaign : string) :
  JsDate.four_digit_year (at_admission rd) ->
  makes_calls stamps_only (scanHandler secret rd u campaign).
Proof.
  intros Ht. unfold scanHandler. constructor.
  - exists (at_admission rd). split; [exact Ht | reflexivity].
  - intros [res|e]; [|constructor].
    constructor; [exact I|]. intros [rows|e]; [|constructor].
    constructor; [exact I|]. intros [rows'|e]; constructor.
Qed.

Lemma postScan_stamps (antifraud : Config.antifraud) (secret : string) (rd : Readings)
  (body : Body) :
  JsDate.four_digit_year (at_admission rd) ->
  makes_calls stamps_only (postScan antifraud secret rd body).
Proof.
  intros Ht. unfold postScan.
  destruct (validateScanRequest body) as [r| |e]; [constructor | | constructor].
  apply makes_calls_bind; [apply antiFraudCheck_reads|].
  intros [r| |e]; [constructor | | constructor].
  apply makes_calls_bind; [now apply scanHandler_stamps | constructor].
Qed.

Lemma admitted_ledger_stamped (st : Store) : admitted_ledger st -> all_stamped st.
Proof.
  induction 1 as [script | st antifraud secret rd body _ IH Ht | st R c _ IH Hc].
  - constructor.
  - apply (run_invariant stamps_only all_stamped); try assumption.
    + apply perform_keeps_stamped.
    + now apply postScan_stamps.
  - apply perform_keeps_stamped; assumption.
Qed.

(** Whatever the schedule, two requests in flight keep the ledger stamped. *)
Lemma interleave_keeps_stamped (A : Type) (schedule : list who) : forall f : flight A,
  makes_calls stamps_only (first f) -> makes_calls stamps_only (second f) ->
  all_stamped (shared f) ->
  all_stamped (shared (interleave schedule f)).
Proof.
  unfold interleave.
  induction schedule as [|w schedule IH]; intros f H1 H2 Hst; simpl; [exact Hst|].
  destruct w; unfold advance.
  - destruct (turn_invariant stamps_only all_stamped A (first f) (shared f)
                perform_keeps_stamped H1 Hst) as [H1' Hst'].
    destruct (turn (first f) (shared f)) as [t st']. apply IH; assumption.
  - destruct (turn_invariant stamps_only all_stamped A (second f) (shared f)
                perform_keeps_stamped H2 Hst) as [H2' Hst'].
    destruct (turn (second f) (shared f)) as [t st']. apply IH; assumption.
Qed.

End PipelineFacts.

Section ChronologicalOrder.
Import Database Async Pipeline.
Local Open Scope list_scope.
Local Open Scope Z_scope.

Lemma digit_char_not_space (d : Z) : 0 <= d < 10 -> is_space (JsDate.digit_char d) = false.
Proof.
  intros H. each_below 10%nat H.
Qed.

Lemma digit_char_is_digit (d : Z) : 0 <= d < 10 -> is_digit (JsDate.digit_char d) = true.
Proof.
  intros H. each_below 10%nat H.
Qed.

Lemma digit_char_not_sign (d : Z) : 0 <= d < 10 ->
  Ascii.eqb (JsDate.digit_char d) "+" || Ascii.eqb (JsDate.digit_char d) "-" = false.
Proof.
  intros H. each_below 10%nat H.
Qed.

Lemma four_digits_dash_not_numeric (d1 d2 d3 d4 : Z) (rest : string) :
  0 <= d1 < 10 -> 0 <= d2 < 10 -> 0 <= d3 < 10 -> 0 <= d4 < 10 ->
  is_numeric_literal
    (String (JsDate.digit_char d1) (String (JsDate.digit_char d2)
       (String (JsDate.digit_char d3) (String (JsDate.digit_char d4)
          (String "-" rest))))) = false.
Proof.
  intros H1 H2 H3 H4. unfold is_numeric_literal.
  cbn [skip_spaces]. rewrite digit_char_not_space by assumption.
  cbn [skip_sign]. rewrite digit_char_not_sign by assumption.
  cbn [span_digits]. rewrite !digit_char_is_digit by assumption.
  reflexivity.
Qed.

Lemma toISOString_not_numeric (t : Z) :
  JsDate.four_digit_year t -> is_numeric_literal (JsDate.toISOString t) = false.
Proof.
  intros H. pose proof (four_digit_year_range t H) as Hy.
  unfold JsDate.toISOString, JsDate.render.
  rewrite year_text_four_digits by exact Hy.
  set (y := JsDate.tm_year (JsDate.fields_of_time t)).
  assert (Hy' : 0 <= y <= 9999) by exact Hy. clearbody y.
  cbn [JsDate.pad JsDate.pad_digits String.append].
  apply four_digits_dash_not_numeric; Z.div_mod_to_equations; lia.
Qed.

Lemma text_filter_toISOString (t : Z) (p : string -> bool) :
  JsDate.four_digit_year t ->
  text_filter (Some (JsDate.toISOString t)) p = p (JsDate.toISOString t).
Proof. intros H. unfold text_filter. now rewrite truthy_text_toISOString. Qed.

Lemma iso_bound_textual (o : option string) (bound : option Z) :
  iso_bound o bound -> textual_bound o.
Proof.
  unfold iso_bound, textual_bound. destruct bound as [a|].
  - intros [Ha ->]. rewrite truthy_text_toISOString by exact Ha.
    now apply toISOString_not_numeric.
  - intros ->. exact I.
Qed.

Lemma matches_in_range (f : Filters) (lo hi : option Z) (r : ScanRow) :
  stamped r -> iso_bound (f_start_date f) lo -> iso_bound (f_end_date f) hi ->
  matches f r = true <-> in_range_listing f lo hi r.
Proof.
  intros [t [Ht Hts]] Hlo Hhi. unfold matches, in_range_listing.
  rewrite (instant_stamped r t Ht Hts), Hts, !andb_true_iff.
  assert (Hs : text_filter (f_start_date f)
                 (fun s => String.leb s (JsDate.toISOString t)) = true <->
               match lo with Some a => a <= t | None => True end).
  { unfold iso_bound in Hlo. destruct lo as [a|].
    - destruct Hlo as [Ha ->]. rewrite text_filter_toISOString by exact Ha.
      rewrite leb_toISOString by assumption. apply Z.leb_le.
    - rewrite Hlo. unfold text_filter. simpl. tauto. }
  assert (He : text_filter (f_end_date f)
                 (fun s => String.leb (JsDate.toISOString t) s) = true <->
               match hi with Some b => t <= b | None => True end).
  { unfold iso_bound in Hhi. destruct hi as [b|].
    - destruct Hhi as [Hb ->]. rewrite text_filter_toISOString by exact Hb.
      rewrite leb_toISOString by assumption. apply Z.leb_le.
    - rewrite Hhi. unfold text_filter. simpl. tauto. }
  tauto.
Qed.

Lemma newer_first_later_first (r1 r2 : ScanRow) :
  stamped r1 -> stamped r2 -> newer_first r1 r2 -> later_first r1 r2.
Proof.
  intros [t1 [H1 E1]] [t2 [H2 E2]]. unfold newer_first, later_first.
  rewrite (instant_stamped r1 t1 H1 E1), (instant_stamped r2 t2 H2 E2), E1, E2.
  rewrite leb_toISOString by assumption. apply Z.leb_le.
Qed.

Lemma StronglySorted_impl_in (A : Type) (R R' : A -> A -> Prop) (l : list A) :
  (forall x y, In x l -> In y l -> R x y -> R' x y) ->
  StronglySorted R l -> StronglySorted R' l.
Proof.
  intros Himp Hs. induction Hs as [|x l Hs IH Hx]; constructor.
  - apply IH. intros a b Ha Hb. apply Himp; now right.
  - rewrite Forall_forall in *. intros y Hy.
    apply Himp; [now left | now right | now apply Hx].
Qed.

Lemma insertScan_resolved (d : ScanData) (st st' : Store) (res : RunResult) :
  insertScan d st = (Resolved res, st') ->
  scans st' = scans st ++ [row_of (lastID res) d].
Proof.
  unfold insertScan. pose proof (enter_scans st) as Es.
  destruct (enter st) as [fault st1]. simpl in Es.
  destruct fault; [discriminate|].
  destruct (existsb _ _); [discriminate|].
  intros E. injection E as <- <-. simpl. now rewrite Es.
Qed.

Lemma getScans_scans (f : Filters) (st : Store) : scans (snd (getScans f st)) = scans st.
Proof. rewrite getScans_store. apply enter_scans. Qed.

(** What a registered answer says about the ledger. *)
Lemma postScan_registered (antifraud : Config.antifraud) (secret : string) (rd : Readings)
  (body : Body) (st : Store) (record : ScanData) (n m : Z) :
  fst (run (postScan antifraud secret rd body) st) = Answered (Registered record n m) ->
  d_timestamp record = JsDate.toISOString (at_admission rd) /\
  d_verified record = true /\
  exists key, In (row_of key record) (scans (snd (run (postScan antifraud secret rd body) st))).
Proof.
  unfold postScan, validateScanRequest.
  destruct (truthy_text (body_uid body)) as [u'|]; [|discriminate].
  destruct (truthy_text (body_campaign_id body)) as [c'|]; [|discriminate].
  destruct (Utils.isValidUID u'); [|discriminate].
  rewrite run_bind. rewrite run_antiFraudCheck. cbv zeta.
  repeat match goal with
  | |- context [if ?b then _ else _] => destruct b
  end; cbn [run fst snd]; try congruence;
  try (intros E; injection E as E; discriminate).
  rewrite run_bind. unfold scanHandler. cbn [run perform].
  set (d := mk_scan _ _ _ _ _ _).
  destruct (insertScan d _) as [[res|e] st1] eqn:Ei; cbn [run perform];
    [|intros E; injection E as E; discriminate].
  apply insertScan_resolved in Ei.
  match goal with |- context [getScans ?f st1] =>
    pose proof (getScans_scans f st1) as G1; destruct (getScans f st1) as [[rows|e] st2] end;
    cbn [run perform fst snd] in *; [|intros E; injection E as E; discriminate].
  match goal with |- context [getScans ?f st2] =>
    pose proof (getScans_scans f st2) as G2; destruct (getScans f st2) as [[rows'|e] st3] end;
    cbn [run perform fst snd] in *; [|intros E; injection E as E; discriminate].
  intros E. injection E as <- _ _.
  split; [reflexivity|]. split; [reflexivity|].
  exists (lastID res). rewrite G2, G1, Ei. apply in_or_app. right. now left.
Qed.

End ChronologicalOrder.


Section Flights.
Import Database Async Pipeline.
Local Open Scope list_scope.
Local Open Scope Z_scope.

Lemma within_bind (A B : Type) (n m : nat) (t : task A) (k : A -> task B) :
  within n t -> (forall a, within m (k a)) -> within (n + m) (bind t k).
Proof.
  intros Ht Hk. induction Ht as [n a | n R c k' _ IH]; simpl.
  - assert (Hmono : forall (j : nat) (x : task B), within m x -> within (j + m) x).
    { clear. intros j x Hx. induction Hx as [p b | p R c k0 _ IH].
      - constructor.
      - replace (j + S p)%nat with (S (j + p)) by lia. constructor. exact IH. }
    apply Hmono, Hk.
  - constructor. exact IH.
Qed.

Lemma antiFraudCheck_within (antifraud : Config.antifraud) (rd : Readings) (u : string) :
  within 2 (antiFraudCheck antifraud rd u).
Proof.
  unfold antiFraudCheck. constructor. intros [last|e]; [|constructor].
  destruct (_ && _); [constructor|]. constructor.
  intros [n|e]; [|constructor]. destruct (_ <=? _); constructor.
Qed.

Lemma scanHandler_within (secret : string) (rd : Readings) (u campaign : string) :
  within 3 (scanHandler secret rd u campaign).
Proof.
  unfold scanHandler. constructor. intros [res|e]; [|constructor].
  constructor. intros [rows|e]; [|constructor].
  constructor. intros [rows'|e]; constructor.
Qed.

Lemma postScan_within (antifraud : Config.antifraud) (secret : string) (rd : Readings)
  (body : Body) : within 5 (postScan antifraud secret rd body).
Proof.
  unfold postScan.
  destruct (validateScanRequest body) as [r| |e]; [constructor | | constructor].
  apply (within_bind _ _ 2 3); [apply antiFraudCheck_within|].
  intros [r| |e]; [constructor | | constructor].
  apply (within_bind _ _ 3 0); [apply scanHandler_within | constructor].
Qed.

Lemma interleave_first (A : Type) (n : nat) (t1 : task A) : forall (t2 : task A) (st : Store),
  within n t1 ->
  interleave (repeat First n) (mk_flight t1 t2 st)
  = mk_flight (Done (fst (run t1 st))) t2 (snd (run t1 st)).
Proof.
  intros t2 st H. revert st.
  induction H as [n a | n R c k _ IH]; intros st.
  - induction n as [|n IHn]; simpl; [reflexivity | exact IHn].
  - change (interleave (repeat First (S n)) (mk_flight (Await c k) t2 st))
      with (interleave (repeat First n) (advance First (mk_flight (Await c k) t2 st))).
    unfold advance. cbn [first second shared turn run].
    destruct (perform c st) as [got st']. apply IH.
Qed.

Lemma interleave_second (A : Type) (n : nat) (t2 : task A) : forall (t1 : task A) (st : Store),
  within n t2 ->
  interleave (repeat Second n) (mk_flight t1 t2 st)
  = mk_flight t1 (Done (fst (run t2 st))) (snd (run t2 st)).
Proof.
  intros t1 st H. revert st.
  induction H as [n a | n R c k _ IH]; intros st.
  - induction n as [|n IHn]; simpl; [reflexivity | exact IHn].
  - change (interleave (repeat Second (S n)) (mk_flight t1 (Await c k) st))
      with (interleave (repeat Second n) (advance Second (mk_flight t1 (Await c k) st))).
    unfold advance. cbn [first second shared turn run].
    destruct (perform c st) as [got st']. apply IH.
Qed.

Lemma interleave_app (A : Type) (s1 s2 : list who) (f : flight A) :
  interleave (s1 ++ s2) f = interleave s2 (interleave s1 f).
Proof. unfold interleave. apply fold_left_app. Qed.

(** Served one after the other, two requests are two runs in a row. *)
Lemma interleave_serial (antifraud : Config.antifraud) (secret : string)
  (rd1 rd2 : Readings) (body1 body2 : Body) (st : Store) :
  interleave serial
    (mk_flight (postScan antifraud secret rd1 body1) (postScan antifraud secret rd2 body2) st)
  = let r1 := run (postScan antifraud secret rd1 body1) st in
    let r2 := run (postScan antifraud secret rd2 body2) (snd r1) in
    mk_flight (Done (fst r1)) (Done (fst r2)) (snd r2).
Proof.
  unfold serial. rewrite interleave_app.
  rewrite (interleave_first _ 5) by apply postScan_within.
  rewrite (interleave_second _ 5) by apply postScan_within.
  reflexivity.
Qed.

Lemma enter_no_faults (st : Store) : faults st = [] -> enter st = (false, st).
Proof. unfold enter. now intros ->. Qed.

Lemma valid_uid_truthy (u : string) :
  Utils.isValidUID u = true -> truthy_text (Some u) = Some u.
Proof. destruct u; [discriminate | reflexivity]. Qed.

Lemma truthy_nonempty (s : string) : s <> EmptyString -> truthy_text (Some s) = Some s.
Proof. destruct s; [congruence | reflexivity]. Qed.

Lemma filter_none (A : Type) (p : A -> bool) (l : list A) :
  (forall x, In x l -> p x = false) -> filter p l = [].
Proof.
  induction l as [|x l IH]; intros H; simpl; [reflexivity|].
  rewrite (H x (or_introl eq_refl)). apply IH. intros y Hy. apply H. now right.
Qed.

Lemma getScans_resolves (f : Filters) (st : Store) :
  faults st = [] -> truthy_number (f_offset f) = None ->
  exists rows, getScans f st = (Resolved rows, st).
Proof.
  intros Hf Ho. rewrite getScans_eq, (enter_no_faults st Hf), Ho.
  destruct (truthy_number (f_limit f)); eexists; reflexivity.
Qed.

(** A request for an identifier the ledger has not seen is admitted. *)
Lemma postScan_admits_fresh (antifraud : Config.antifraud) (secret : string) (rd : Readings)
  (u campaign : string) (st : Store) :
  0 < Config.dailyScanLimit antifraud ->
  Utils.isValidUID u = true -> campaign <> EmptyString ->
  (forall r, In r (scans st) -> uid r <> u) ->
  ~ In (Cooldown.generateScanId (at_scan_id rd) (random_hex rd)) (map scan_id (scans st)) ->
  faults st = [] ->
  exists record n m st',
    run (postScan antifraud secret rd (mk_body (Some u) (Some campaign))) st
      = (Answered (Registered record n m), st') /\
    d_uid record = u /\
    d_timestamp record = JsDate.toISOString (at_admission rd) /\
    scans st' = scans st ++ [row_of (last_id st + 1) record] /\
    faults st' = [].
Proof.
  intros Hlimit Hvalid Hcamp Hfresh Hid Hfaults.
  unfold postScan, validateScanRequest. cbn [body_uid body_campaign_id text_of].
  rewrite (valid_uid_truthy u Hvalid), (truthy_nonempty campaign Hcamp), Hvalid.
  rewrite run_bind, run_antiFraudCheck. cbv zeta.
  rewrite !(enter_no_faults st Hfaults). cbn [fst snd].
  rewrite !(enter_no_faults st Hfaults). cbn [fst snd].
  assert (Hnone : filter (fun r => String.eqb (uid r) u) (scans st) = []).
  { apply filter_none. intros r Hr. apply String.eqb_neq. now apply Hfresh. }
  assert (Hnone' : forall date,
            filter (fun r => String.eqb (uid r) u && on_day date r) (scans st) = []).
  { intros date. apply filter_none. intros r Hr.
    apply andb_false_iff. left. apply String.eqb_neq. now apply Hfresh. }
  rewrite Hnone, Hnone'. unfold newest_timestamp, in_cooldown. cbn [order_by_timestamp_desc
    fold_right truthy_text andb List.length Z.of_nat].
  destruct (Z.leb_spec (Config.dailyScanLimit antifraud) 0) as [Hle|_]; [lia|].
  rewrite run_bind. unfold scanHandler. cbn [run perform].
  set (d := mk_scan _ _ _ _ _ _).
  rewrite (insertScan_eq d st) by (unfold next_call_succeeds; now rewrite enter_no_faults).
  destruct (existsb _ (scans st)) eqn:Ex.
  { apply existsb_scan_id in Ex. contradiction. }
  rewrite (enter_no_faults st Hfaults). cbn [snd].
  set (st1 := mk_store _ _ _).
  assert (Hf1 : faults st1 = []) by exact Hfaults.
  cbn [run perform].
  destruct (getScans_resolves (mk_filters None None None None (Some 1000) None) st1 Hf1 eq_refl)
    as [rows ->].
  cbn [run perform].
  match goal with |- context [getScans ?f st1] =>
    destruct (getScans_resolves f st1 Hf1 eq_refl) as [rows' ->] end.
  cbn [run].
  exists d, (Z.of_nat (List.length rows)), (Z.of_nat (List.length rows')), st1.
  repeat split; assumption.
Qed.

(** A second request for that identifier, soon after, meets the cooldown. *)
Lemma postScan_cooldown_after (antifraud : Config.antifraud) (secret : string) (rd : Readings)
  (u campaign : string) (st : Store) (old : list ScanRow) (r : ScanRow) (t : Z) :
  0 < Config.cooldownMinutes antifraud ->
  Utils.isValidUID u = true -> campaign <> EmptyString ->
  scans st = old ++ [r] -> (forall x, In x old -> uid x <> u) ->
  uid r = u -> timestamp r = JsDate.toISOString t -> JsDate.four_digit_year t ->
  faults st = [] ->
  at_cooldown rd - t < Config.cooldownMinutes antifraud * JsDate.msPerMinute ->
  run (postScan antifraud secret rd (mk_body (Some u) (Some campaign))) st
  = (Answered (COOLDOWN_ACTIVE (Config.cooldownMinutes antifraud)
                 (Some (JsDate.toISOString t))), st).
Proof.
  intros Hwin Hvalid Hcamp Hscans Hold Hu Hts Ht Hfaults Hsoon.
  unfold postScan, validateScanRequest. cbn [body_uid body_campaign_id text_of].
  rewrite (valid_uid_truthy u Hvalid), (truthy_nonempty campaign Hcamp), Hvalid.
  rewrite run_bind, run_antiFraudCheck. cbv zeta.
  rewrite !(enter_no_faults st Hfaults). cbn [fst snd].
  assert (Hnew : newest_timestamp (filter (fun x => String.eqb (uid x) u) (scans st))
                 = Some (JsDate.toISOString t)).
  { rewrite Hscans, filter_app.
    rewrite (filter_none _ _ old)
      by (intros x Hx; apply String.eqb_neq; now apply Hold).
    simpl. rewrite Hu, String.eqb_refl. unfold newest_timestamp. simpl. now rewrite Hts. }
  rewrite Hnew, in_cooldown_stamped by exact Ht.
  pose proof (diff_minutes_within _ _ _ Hwin Hsoon) as Hd.
  apply Z.ltb_lt in Hd. rewrite Hd. reflexivity.
Qed.

End Flights.



(** The scenario of the specification: TEST12345678 is admitted under
    DEMO01, an immediate second attempt meets the cooldown of 5 minutes,
    and the statistics then count one scan of one identifier. *)
Example admit_then_cooldown_then_stats :
  let body := Pipeline.mk_body (Some "TEST12345678") (Some "DEMO01") in
  let one := Async.run (Pipeline.postScan Config.default Config.aeiSecretKey
                          (readings_at sample_instant "deadbeef") body)
                       (Database.empty_store []) in
  let two := Async.run (Pipeline.postScan Config.default Config.aeiSecretKey
                          (readings_at (sample_instant + 1000) "cafebabe") body)
                       (snd one) in
  snd one = sample_store /\
  admitted (Some (fst one)) = true /\
  fst two = Pipeline.Answered
              (Pipeline.COOLDOWN_ACTIVE 5 (Some "2025-10-19T10:00:00.000Z")) /\
  fst (Async.run (Pipeline.statsHandler (sample_instant + 2000) (sample_instant + 2000))
         (snd two))
    = Pipeline.Statistics
        (Database.mk_stats 1 1 0 1 (Some "2025-10-19T10:00:00.000Z")).
Proof. vm_compute. repeat split; reflexivity. Qed.

Section CalendarDays.
Import JsDate.
Local Open Scope Z_scope.

Lemma digit_char_not_T (d : Z) : 0 <= d < 10 -> Ascii.eqb (digit_char d) "T" = false.
Proof. intros H. each_below 10%nat H. Qed.

Lemma before_T_pad (k : nat) : forall n rest,
  0 <= n < 10 ^ Z.of_nat k ->
  before_T (pad k n ++ rest) = (pad k n ++ before_T rest)%string.
Proof.
  induction k as [|k IH]; intros n rest Hn; [reflexivity|].
  destruct (pad_bounds_step k n Hn) as [H1 H2].
  rewrite pad_succ, !string_app_assoc, IH by exact H1.
  simpl. now rewrite digit_char_not_T.
Qed.

Lemma before_T_dash (r : string) : before_T (String "-" r) = String "-" (before_T r).
Proof. reflexivity. Qed.

Lemma string_app_nil_r (s : string) : (s ++ "")%string = s.
Proof. induction s as [|c s IH]; simpl; [reflexivity | now rewrite IH]. Qed.

Lemma before_T_toISOString (t : Z) :
  four_digit_year t -> before_T (toISOString t) = date_text t.
Proof.
  intros H. pose proof (valid_fields_bounded _ (fields_of_time_valid t H)) as [F1 F2 F3 _ _ _ _].
  unfold toISOString, render, date_text.
  set (f := fields_of_time t) in *. clearbody f.
  rewrite year_text_four_digits by exact F1.
  rewrite (before_T_pad 4) by (cbn; lia). cbn [String.append].
  rewrite before_T_dash, (before_T_pad 2) by (cbn; lia). cbn [String.append].
  rewrite before_T_dash, (before_T_pad 2) by (cbn; lia). cbn [String.append].
  reflexivity.
Qed.

Lemma sqlite_date_toISOString (t : Z) :
  four_digit_year t -> sqlite_date (toISOString t) = Some (date_text t).
Proof.
  intros H. unfold sqlite_date, toISOString.
  pose proof (fields_of_time_valid t H) as V.
  rewrite parse_fields_render by (apply valid_fields_bounded, V).
  cbn [bind]. rewrite V. reflexivity.
Qed.

Lemma compare_date_text (t t' : Z) :
  four_digit_year t -> four_digit_year t' ->
  String.compare (date_text t) (date_text t') = (Day t ?= Day t').
Proof.
  intros H H'.
  pose proof (valid_fields_bounded _ (fields_of_time_valid t H)) as [F1 F2 F3 _ _ _ _].
  pose proof (valid_fields_bounded _ (fields_of_time_valid t' H')) as [G1 G2 G3 _ _ _ _].
  rewrite <- civil_compare_eq. unfold date_text, civil_compare.
  change (civil_year (Day t)) with (tm_year (fields_of_time t)).
  change (civil_month (Day t)) with (tm_month (fields_of_time t)).
  change (civil_date (Day t)) with (tm_date (fields_of_time t)).
  change (civil_year (Day t')) with (tm_year (fields_of_time t')).
  change (civil_month (Day t')) with (tm_month (fields_of_time t')).
  change (civil_date (Day t')) with (tm_date (fields_of_time t')).
  set (f := fields_of_time t) in *. set (g := fields_of_time t') in *. clearbody f g.
  rewrite (compare_pad_app 4) by (cbn; lia). cbn [String.append]. rewrite compare_same_head.
  rewrite (compare_pad_app 2) by (cbn; lia). cbn [String.append]. rewrite compare_same_head.
  rewrite <- (string_app_nil_r (pad 2 (tm_date f))), <- (string_app_nil_r (pad 2 (tm_date g))).
  rewrite (compare_pad_app 2) by (cbn; lia). cbn [String.compare]. rewrite lex_Eq_r.
  reflexivity.
Qed.

Lemma date_text_same_day (t t' : Z) :
  four_digit_year t -> four_digit_year t' ->
  String.eqb (date_text t) (date_text t') = same_day t t'.
Proof.
  intros H H'. unfold same_day.
  pose proof (compare_date_text t t' H H') as C.
  destruct (String.eqb_spec (date_text t) (date_text t')) as [E|N].
  - rewrite E, string_compare_refl in C. symmetry in C. apply Z.compare_eq in C.
    symmetry. now apply Z.eqb_eq.
  - destruct (Z.eqb_spec (Day t) (Day t')) as [E|_]; [|reflexivity].
    rewrite E, Z.compare_refl in C. apply String.compare_eq_iff in C. contradiction.
Qed.

End CalendarDays.

Section DailyCount.
Import Database.
Local Open Scope Z_scope.

Lemma on_day_stamped (now : Z) (r : ScanRow) :
  JsDate.four_digit_year now -> stamped r ->
  on_day (JsDate.before_T (JsDate.toISOString now)) r = same_day (instant r) now.
Proof.
  intros Hn [t [Ht Hts]]. unfold on_day.
  rewrite (instant_stamped r t Ht Hts), Hts, sqlite_date_toISOString by exact Ht.
  rewrite before_T_toISOString by exact Hn.
  now apply date_text_same_day.
Qed.

Lemma filter_ext_in_rows (p q : ScanRow -> bool) (l : list ScanRow) :
  (forall r, In r l -> p r = q r) -> filter p l = filter q l.
Proof.
  induction l as [|x l IH]; intros H; simpl; [reflexivity|].
  rewrite (H x (or_introl eq_refl)), IH; [reflexivity|].
  intros r Hr. apply H. now right.
Qed.

End DailyCount.

(** X1. On a ledger of stamped rows, [getDailyScanCount(uid, today)], with
    [today] taken from the clock as [antiFraudCheck] does, counts exactly
    the identifier's rows whose instant falls on the same UTC calendar day
    as the clock reading. *)
Theorem getDailyScanCount_counts_utc_day
  (st : Database.Store) (u : string) (now : Z)
  (Hledger : all_stamped st) (Hnow : JsDate.four_digit_year now)
  (Hok : next_call_succeeds st) :
  fst (Database.getDailyScanCount u (JsDate.before_T (JsDate.toISOString now)) st)
  = Database.Resolved (Z.of_nat (List.length (scans_of_day u now (Database.scans st)))).
Proof.
  rewrite getDailyScanCount_eq. unfold next_call_succeeds in Hok. rewrite Hok.
  cbn [fst]. unfold scans_of_day. do 3 f_equal.
  apply filter_ext_in_rows. intros r Hr. f_equal.
  apply on_day_stamped; [exact Hnow|].
  unfold all_stamped in Hledger. rewrite Forall_forall in Hledger. now apply Hledger.
Qed.

Lemma getDailyScanCount_counts_utc_day_witness :
  fst (Database.getDailyScanCount "TEST12345678"
         (JsDate.before_T (JsDate.toISOString (sample_instant + 600000))) sample_store)
  = Database.Resolved
      (Z.of_nat (List.length
         (scans_of_day "TEST12345678" (sample_instant + 600000)
            (Database.scans sample_store)))).
Proof.
  apply (getDailyScanCount_counts_utc_day sample_store "TEST12345678"
           (sample_instant + 600000)).
  - constructor; [|constructor]. exists sample_instant.
    split; [unfold JsDate.four_digit_year, JsDate.first_instant, JsDate.end_instant,
              sample_instant; lia | vm_compute; reflexivity].
  - unfold JsDate.four_digit_year, JsDate.first_instant, JsDate.end_instant,
      sample_instant; lia.
  - reflexivity.
Defined.

Section MoreCooldown.
Import Database Async Pipeline.
Local Open Scope list_scope.
Local Open Scope Z_scope.

Lemma diff_minutes_elapsed (now t window : Z) :
  window * JsDate.msPerMinute <= now - t -> window <= JsDate.diff_minutes now t.
Proof.
  unfold JsDate.diff_minutes, JsDate.msPerMinute. intros H.
  rewrite <- (Z.quot_mul window 60000) at 1 by lia.
  apply Z.quot_le_mono; lia.
Qed.

Lemma newest_timestamp_none (rows : list ScanRow) :
  newest_timestamp rows = None <-> rows = [].
Proof.
  unfold newest_timestamp. split.
  - destruct (order_by_timestamp_desc rows) eqn:E; [|discriminate].
    intros _. now apply order_by_timestamp_desc_nil.
  - intros ->. reflexivity.
Qed.

Lemma filter_uid_nil (u : string) (rows : list ScanRow) :
  filter (fun r => String.eqb (uid r) u) rows = [] <->
  forall r, In r rows -> uid r <> u.
Proof.
  split.
  - intros E r Hr Hu.
    assert (Hin : In r (filter (fun r => String.eqb (uid r) u) rows)).
    { apply filter_In. split; [exact Hr | now apply String.eqb_eq]. }
    rewrite E in Hin. destruct Hin.
  - intros H. apply filter_none. intros r Hr. apply String.eqb_neq. now apply H.
Qed.

Lemma cooldown_over_not_in_cooldown (antifraud : Config.antifraud) (rd : Readings)
  (u : string) (st : Store) :
  all_stamped st -> cooldown_over antifraud rd u st ->
  in_cooldown antifraud rd
    (newest_timestamp (filter (fun r => String.eqb (uid r) u) (scans st))) = false.
Proof.
  intros Hst [Hnone | (r & t & Hrec & Hold)].
  - apply filter_uid_nil in Hnone. rewrite Hnone. reflexivity.
  - rewrite (newest_timestamp_most_recent st u r t Hst Hrec).
    destruct Hrec as (_ & _ & Ht & _ & _).
    rewrite in_cooldown_stamped by exact Ht.
    apply Z.ltb_ge. now apply diff_minutes_elapsed.
Qed.

Lemma perform_read_last_id (R : Type) (c : call R) (st : Store) :
  reads_only c -> last_id (snd (perform c st)) = last_id st.
Proof.
  destruct c; simpl; try contradiction; intros _.
  - rewrite getScans_store. apply enter_last_id.
  - rewrite getLastScanTime_eq. destruct (fst (enter st)); apply enter_last_id.
  - rewrite getDailyScanCount_eq. destruct (fst (enter st)); apply enter_last_id.
  - unfold getStats. rewrite !count_or_zero_eq, last_or_null_eq. cbn [snd].
    now rewrite !enter_last_id.
Qed.

Lemma perform_read_rows (R : Type) (c : call R) (st : Store) :
  reads_only c -> scans (snd (perform c st)) = scans st.
Proof.
  intros H. pose proof (perform_read_scans R c st) as P.
  destruct c; simpl in H; try contradiction; exact P.
Qed.

Lemma matches_filters_for_uid (u : string) (r : ScanRow) :
  u <> EmptyString -> matches (filters_for_uid u) r = String.eqb (uid r) u.
Proof.
  intros Hu. unfold matches, filters_for_uid, text_filter.
  cbn [f_uid f_campaign_id f_start_date f_end_date].
  rewrite (truthy_nonempty u Hu). cbn [truthy_text]. now rewrite !andb_true_r.
Qed.

End MoreCooldown.

(** X2. Once the cooldown is over for an identifier, on a ledger of stamped
    rows and with both reads going through, the evaluator decides on the
    day's count alone: it answers DAILY_LIMIT_EXCEEDED, carrying the limit
    and the count, when the identifier already has at least
    [dailyScanLimit] rows on the UTC day of the clock reading, and calls
    [next()] otherwise. *)
Theorem antiFraudCheck_daily_limit_decides
  (antifraud : Config.antifraud) (rd : Pipeline.Readings) (u : string)
  (st : Database.Store)
  (Hledger : all_stamped st)
  (Hreads : fault_at 0 st = false /\ fault_at 1 st = false)
  (Hclock : JsDate.four_digit_year (Pipeline.at_daily rd))
  (Hover : cooldown_over antifraud rd u st) :
  let count :=
    Z.of_nat (List.length (scans_of_day u (Pipeline.at_daily rd) (Database.scans st))) in
  fst (Async.run (Pipeline.antiFraudCheck antifraud rd u) st)
  = if (Config.dailyScanLimit antifraud <=? count)%Z
    then Pipeline.Respond
           (Pipeline.DAILY_LIMIT_EXCEEDED (Config.dailyScanLimit antifraud) count)
    else Pipeline.Next.
Proof.
  intros count. destruct Hreads as [F0 F1].
  rewrite run_antiFraudCheck. cbv zeta.
  rewrite enter_fault, F0.
  rewrite (cooldown_over_not_in_cooldown antifraud rd u st Hledger Hover).
  rewrite enter_fault, fault_at_enter, F1.
  assert (Hc : filter (fun r => String.eqb (Database.uid r) u &&
                  Database.on_day (JsDate.before_T (JsDate.toISOString (Pipeline.at_daily rd))) r)
                 (Database.scans st)
               = scans_of_day u (Pipeline.at_daily rd) (Database.scans st)).
  { unfold scans_of_day. apply filter_ext_in_rows. intros r Hr. f_equal.
    apply on_day_stamped; [exact Hclock|].
    unfold all_stamped in Hledger. rewrite Forall_forall in Hledger. now apply Hledger. }
  rewrite Hc. fold count. destruct (_ <=? _)%Z; reflexivity.
Qed.

(** Ten minutes after the sample scan, under a daily limit of one scan. *)
Lemma antiFraudCheck_daily_limit_decides_witness :
  fst (Async.run
         (Pipeline.antiFraudCheck (Config.load None (Some 1%Z))
            (readings_at (sample_instant + 600000) "cafebabe") "TEST12345678")
         sample_store)
  = Pipeline.Respond (Pipeline.DAILY_LIMIT_EXCEEDED 1 1).
Proof.
  apply (antiFraudCheck_daily_limit_decides (Config.load None (Some 1%Z))
           (readings_at (sample_instant + 600000) "cafebabe") "TEST12345678" sample_store).
  - constructor; [|constructor]. exists sample_instant.
    split; [unfold JsDate.four_digit_year, JsDate.first_instant, JsDate.end_instant,
              sample_instant; lia | vm_compute; reflexivity].
  - split; reflexivity.
  - unfold JsDate.four_digit_year, JsDate.first_instant, JsDate.end_instant,
      readings_at, sample_instant; simpl; lia.
  - right. exists sample_row, sample_instant. split.
    + split; [left; reflexivity|]. split; [reflexivity|].
      split; [unfold JsDate.four_digit_year, JsDate.first_instant, JsDate.end_instant,
                sample_instant; lia|].
      split; [vm_compute; reflexivity|].
      intros r' [<-|[]] _. vm_compute. discriminate.
    + vm_compute. discriminate.
Defined.

(** X3. When its storage call goes through, [getLastScanTime] resolves: with
    null exactly when the identifier has no row, and otherwise with the
    timestamp of one of the identifier's rows that none of its rows
    exceeds (as texts). *)
Theorem getLastScanTime_is_newest_of_uid
  (st : Database.Store) (u : string) (Hok : next_call_succeeds st) :
  exists last,
    fst (Database.getLastScanTime u st) = Database.Resolved last /\
    (last = None <-> forall r, In r (Database.scans st) -> Database.uid r <> u) /\
    (forall ts, last = Some ts ->
       exists r, In r (Database.scans st) /\ Database.uid r = u /\
                 Database.timestamp r = ts /\
                 forall r', In r' (Database.scans st) -> Database.uid r' = u ->
                            String.leb (Database.timestamp r') ts = true).
Proof.
  rewrite getLastScanTime_eq. unfold next_call_succeeds in Hok. rewrite Hok.
  eexists. split; [reflexivity|]. split.
  - rewrite newest_timestamp_none. apply filter_uid_nil.
  - intros ts E. unfold newest_timestamp in E.
    destruct (Database.order_by_timestamp_desc _) as [|h rest] eqn:Eo; [discriminate|].
    injection E as <-. apply order_by_timestamp_desc_head in Eo. destruct Eo as [Hh Hmax].
    apply filter_In in Hh. destruct Hh as [Hin Hu]. apply String.eqb_eq in Hu.
    exists h. repeat split; try assumption.
    intros r' Hr' Hu'. apply Hmax. apply filter_In. split; [exact Hr'|].
    now apply String.eqb_eq.
Qed.

Lemma getLastScanTime_is_newest_of_uid_witness :
  exists last,
    fst (Database.getLastScanTime "TEST12345678" sample_store) = Database.Resolved last /\
    (last = None <->
     forall r, In r (Database.scans sample_store) -> Database.uid r <> "TEST12345678") /\
    (forall ts, last = Some ts ->
       exists r, In r (Database.scans sample_store) /\ Database.uid r = "TEST12345678" /\
                 Database.timestamp r = ts /\
                 forall r', In r' (Database.scans sample_store) ->
                            Database.uid r' = "TEST12345678" ->
                            String.leb (Database.timestamp r') ts = true).
Proof.
  apply (getLastScanTime_is_newest_of_uid sample_store "TEST12345678"). reflexivity.
Defined.

(** X4. A read ([getScans], [getLastScanTime], [getDailyScanCount],
    [getStats]) leaves the rows and the AUTOINCREMENT counter as they were,
    whether it resolves or rejects (nothing is assumed about the storage
    faults the read itself meets); and a listing asked after the read,
    when the listing's own storage call goes through, answers exactly as
    it does on the ledger as it was before the read. *)
Theorem reads_leave_ledger_unchanged
  (R : Type) (c : Async.call R) (st : Database.Store)
  (Hread : reads_only c) :
  Database.scans (snd (Async.perform c st)) = Database.scans st /\
  Database.last_id (snd (Async.perform c st)) = Database.last_id st /\
  forall f : Database.Filters,
    next_call_succeeds (snd (Async.perform c st)) ->
    fst (Database.getScans f (snd (Async.perform c st)))
    = fst (Database.getScans f
             (Database.mk_store (Database.scans st) (Database.last_id st) [])).
Proof.
  pose proof (perform_read_rows R c st Hread) as Hs.
  split; [exact Hs|]. split; [now apply perform_read_last_id|].
  intros f Hafter. rewrite !getScans_eq. unfold next_call_succeeds in Hafter.
  destruct (Database.enter (snd (Async.perform c st))) as [f1 st1].
  cbn [fst] in Hafter. subst f1. cbn [Database.enter Database.faults fst Database.scans].
  now rewrite Hs.
Qed.

(** A look-up that meets a storage fault and rejects, and a listing after it. *)
Lemma reads_leave_ledger_unchanged_witness :
  let st := Database.mk_store [sample_row] 1 [true] in
  let c := Async.call_getLastScanTime "TEST12345678" in
  fst (Async.perform c st) = Database.Rejected Database.SQLITE_IOERR /\
  (Database.scans (snd (Async.perform c st)) = Database.scans st /\
   Database.last_id (snd (Async.perform c st)) = Database.last_id st /\
   forall f : Database.Filters,
     next_call_succeeds (snd (Async.perform c st)) ->
     fst (Database.getScans f (snd (Async.perform c st)))
     = fst (Database.getScans f
              (Database.mk_store (Database.scans st) (Database.last_id st) []))).
Proof.
  intros st c. split; [reflexivity|].
  apply (reads_leave_ledger_unchanged _ c st). exact I.
Defined.

(** X5. After an append that resolves, the listing of the record's
    identifier (its storage call going through) holds the new row, and
    holds exactly the identifier's rows of the ledger with the new one. *)
Theorem insertScan_then_getScans_finds_row
  (d : Database.ScanData) (st st' : Database.Store) (res : Database.RunResult)
  (Hinsert : Database.insertScan d st = (Database.Resolved res, st'))
  (Huid : Database.d_uid d <> EmptyString)
  (Hok : next_call_succeeds st') :
  exists rows,
    fst (Database.getScans (filters_for_uid (Database.d_uid d)) st') = Database.Resolved rows /\
    In (row_of (Database.lastID res) d) rows /\
    forall r, In r rows <->
              (In r (Database.scans st) \/ r = row_of (Database.lastID res) d) /\
              Database.uid r = Database.d_uid d.
Proof.
  apply insertScan_resolved in Hinsert.
  destruct (getScans_returns_matching_page (filters_for_uid (Database.d_uid d)) st' Hok)
    as (rows & Hget & Hperm & _); try (left; reflexivity); try exact I.
  exists rows. split; [exact Hget|].
  assert (Hin : forall r, In r rows <->
              (In r (Database.scans st) \/ r = row_of (Database.lastID res) d) /\
              Database.uid r = Database.d_uid d).
  { intros r. split.
    - intros Hr. apply (Permutation_in _ (Permutation_sym Hperm)) in Hr.
      apply filter_In in Hr. destruct Hr as [Hr Hm]. rewrite Hinsert in Hr.
      apply in_app_or in Hr. split.
      + destruct Hr as [Hr|[<-|[]]]; [now left | now right].
      + rewrite (matches_filters_for_uid _ r Huid) in Hm. now apply String.eqb_eq.
    - intros [Hr Hu]. apply (Permutation_in _ Hperm). apply filter_In. split.
      + rewrite Hinsert. apply in_or_app. destruct Hr as [Hr| ->]; [now left | right; now left].
      + rewrite (matches_filters_for_uid _ r Huid). now apply String.eqb_eq. }
  split; [|exact Hin].
  apply Hin. split; [now right | reflexivity].
Qed.

Lemma insertScan_then_getScans_finds_row_witness :
  let d := Database.mk_scan "scan_1760868000001_cafebabe" "OTHER1234567" "DEMO02"
             "2025-10-19T10:00:00.001Z" "00" true in
  exists rows,
    fst (Database.getScans (filters_for_uid "OTHER1234567")
           (snd (Database.insertScan d sample_store))) = Database.Resolved rows /\
    In (row_of 2 d) rows /\
    forall r, In r rows <->
              (In r (Database.scans sample_store) \/ r = row_of 2 d) /\
              Database.uid r = "OTHER1234567".
Proof.
  intros d.
  apply (insertScan_then_getScans_finds_row d sample_store
           (snd (Database.insertScan d sample_store)) (Database.mk_run 2 1)).
  - reflexivity.
  - discriminate.
  - reflexivity.
Defined.

Section MoreChecksum.
Import Crypto Checksum.
Local Open Scope Z_scope.

Lemma buffer_eqb_eq (a : buffer) : forall b, buffer_eqb a b = true <-> a = b.
Proof.
  unfold buffer_eqb.
  induction a as [|x a IH]; intros [|y b]; simpl; split;
    try discriminate; try reflexivity.
  - rewrite andb_true_iff. intros [Hl Hall].
    apply andb_true_iff in Hall. destruct Hall as [Hxy Hrest].
    apply Z.eqb_eq in Hxy. subst y. f_equal. apply IH.
    apply andb_true_iff. split; assumption.
  - intros E. injection E as <- <-.
    pose proof (proj2 (IH a) eq_refl) as H. apply andb_true_iff in H. destruct H as [Hl Hr].
    rewrite Nat.eqb_refl in *. simpl. now rewrite Z.eqb_refl, Hr.
Qed.

Lemma unhex_upper_hex_digit (c : ascii) : unhex (upper_hex_digit c) = unhex c.
Proof.
  destruct c as [b0 b1 b2 b3 b4 b5 b6 b7].
  destruct b0, b1, b2, b3, b4, b5, b6, b7; reflexivity.
Qed.

Lemma hex_decode_upper_hex (s : string) :
  forall n : nat, (String.length s <= n)%nat -> hex_decode (upper_hex s) = hex_decode s.
Proof.
  intros n. revert s. induction n as [|n IH]; intros s Hs.
  - destruct s; [reflexivity | simpl in Hs; lia].
  - destruct s as [|c1 [|c2 rest]]; try reflexivity.
    simpl. rewrite !unhex_upper_hex_digit.
    rewrite (IH rest) by (simpl in Hs; lia). reflexivity.
Qed.

Lemma verifyAEIChecksum_generated (uid ts c key : string) :
  verifyAEIChecksum uid ts c (generateAEIChecksum uid ts c key) key = Returns true.
Proof.
  rewrite verifyAEIChecksum_eq, hex_decode_generateAEIChecksum, length_hmac_sha256.
  simpl. f_equal. now apply buffer_eqb_eq.
Qed.

End MoreChecksum.

(** X6. A checksum verifies against the fields and secret it was generated
    from; and whenever verification returns, it returns [true] exactly when
    the bytes the provided text decodes to are the bytes of the expected
    digest. *)
Theorem verifyAEIChecksum_accepts_generated (uid ts c key : string) :
  Checksum.verifyAEIChecksum uid ts c (Checksum.generateAEIChecksum uid ts c key) key
    = Crypto.Returns true /\
  forall p b,
    Checksum.verifyAEIChecksum uid ts c p key = Crypto.Returns b ->
    (b = true <->
     Crypto.hex_decode p = Crypto.hex_decode (Checksum.generateAEIChecksum uid ts c key)).
Proof.
  split.
  - apply verifyAEIChecksum_generated.
  - intros p b. rewrite verifyAEIChecksum_eq, hex_decode_generateAEIChecksum.
    destruct (_ =? _)%nat; [|discriminate].
    intros E. injection E as <-. rewrite buffer_eqb_eq. split; congruence.
Qed.

(** X7. Verification ignores the case of hex digits: a checksum written in
    upper case gets the same result as in lower case, so the upper-case
    form of a generated checksum verifies. *)
Theorem verifyAEIChecksum_ignores_hex_case (uid ts c p key : string) :
  Checksum.verifyAEIChecksum uid ts c (upper_hex p) key
    = Checksum.verifyAEIChecksum uid ts c p key /\
  Checksum.verifyAEIChecksum uid ts c
    (upper_hex (Checksum.generateAEIChecksum uid ts c key)) key = Crypto.Returns true.
Proof.
  assert (H : forall q, Checksum.verifyAEIChecksum uid ts c (upper_hex q) key
                        = Checksum.verifyAEIChecksum uid ts c q key).
  { intros q. rewrite !verifyAEIChecksum_eq.
    now rewrite (hex_decode_upper_hex q (String.length q) (le_n _)). }
  split; [apply H|].
  rewrite H. apply verifyAEIChecksum_generated.
Qed.

Example upper_hex_sample : upper_hex "7846f1ab09" = "7846F1AB09".
Proof. reflexivity. Qed.

(** X8. For a last scan time written by [toISOString] and a positive window,
    [isWithinCooldown] is true exactly when fewer than
    [cooldownMinutes * 60000] milliseconds have passed since it; so once it
    has turned false it stays false at every later reading.  A null or
    empty last scan time gives false. *)
Theorem isWithinCooldown_iff_elapsed_below_window
  (now t window : Z)
  (Hstamp : JsDate.four_digit_year t) (Hwindow : (0 < window)%Z) :
  (Cooldown.isWithinCooldown now (Some (JsDate.toISOString t)) window = true
   <-> (now - t < window * JsDate.msPerMinute)%Z) /\
  (forall later, (now <= later)%Z ->
     Cooldown.isWithinCooldown now (Some (JsDate.toISOString t)) window = false ->
     Cooldown.isWithinCooldown later (Some (JsDate.toISOString t)) window = false) /\
  Cooldown.isWithinCooldown now None window = false /\
  Cooldown.isWithinCooldown now (Some EmptyString) window = false.
Proof.
  assert (Hiff : forall n, Cooldown.isWithinCooldown n (Some (JsDate.toISOString t)) window = true
                           <-> (n - t < window * JsDate.msPerMinute)%Z).
  { intros n. rewrite isWithinCooldown_stamped by exact Hstamp. rewrite Z.ltb_lt. split.
    - intros Hd. destruct (Z.lt_ge_cases (n - t) (window * JsDate.msPerMinute)) as [|Hge];
        [assumption|].
      apply diff_minutes_elapsed in Hge. lia.
    - now apply diff_minutes_within. }
  split; [apply Hiff|]. split; [|split; reflexivity].
  intros later Hle Hf.
  destruct (Cooldown.isWithinCooldown later _ window) eqn:E; [|reflexivity].
  apply Hiff in E.
  assert (Hn : (now - t < window * JsDate.msPerMinute)%Z) by lia.
  apply Hiff in Hn. congruence.
Qed.

Lemma isWithinCooldown_iff_elapsed_below_window_witness :
  Cooldown.isWithinCooldown (sample_instant + 299999)
    (Some (JsDate.toISOString sample_instant)) 5 = true
  <-> (sample_instant + 299999 - sample_instant < 5 * JsDate.msPerMinute)%Z.
Proof.
  apply (isWithinCooldown_iff_elapsed_below_window (sample_instant + 299999) sample_instant 5).
  - unfold JsDate.four_digit_year, JsDate.first_instant, JsDate.end_instant,
      sample_instant; lia.
  - lia.
Defined.

Section RequestEffects.
Import Database Async Pipeline.
Local Open Scope list_scope.
Local Open Scope Z_scope.

Lemma run_postScan_cases (antifraud : Config.antifraud) (secret : string) (rd : Readings)
  (body : Body) (st : Store) :
  run (postScan antifraud secret rd body) st =
  match validateScanRequest body with
  | Respond r => (Answered r, st)
  | NextError e => (Errored e, st)
  | Next =>
      let u := text_of (body_uid body) in
      let campaign := text_of (body_campaign_id body) in
      let checked := run (antiFraudCheck antifraud rd u) st in
      match fst checked with
      | Respond r => (Answered r, snd checked)
      | NextError e => (Errored e, snd checked)
      | Next =>
          let handled := run (scanHandler secret rd u campaign) (snd checked) in
          (Answered (fst handled), snd handled)
      end
  end.
Proof.
  unfold postScan. destruct (validateScanRequest body) as [r| |e]; try reflexivity.
  rewrite run_bind. cbv zeta.
  destruct (run (antiFraudCheck _ _ _) st) as [[r| |e] st1]; try reflexivity.
  rewrite run_bind. cbn [fst snd].
  destruct (run (scanHandler _ _ _ _) st1) as [resp st2]. reflexivity.
Qed.

Lemma validateScanRequest_cases (body : Body) :
  (validateScanRequest body = Next /\
   Utils.isValidUID (text_of (body_uid body)) = true /\
   text_of (body_campaign_id body) <> EmptyString) \/
  validateScanRequest body = Respond MISSING_UID \/
  validateScanRequest body = Respond MISSING_CAMPAIGN_ID \/
  validateScanRequest body = Respond INVALID_UID_FORMAT.
Proof.
  unfold validateScanRequest, truthy_text, text_of.
  destruct (body_uid body) as [u|]; [|tauto].
  destruct (String.eqb_spec u EmptyString); [tauto|].
  destruct (body_campaign_id body) as [c|]; [|tauto].
  destruct (String.eqb_spec c EmptyString); [tauto|].
  destruct (Utils.isValidUID u) eqn:E; [left | tauto].
  repeat split; assumption.
Qed.

Lemma antiFraudCheck_store (antifraud : Config.antifraud) (rd : Readings) (u : string)
  (st : Store) :
  scans (snd (run (antiFraudCheck antifraud rd u) st)) = scans st /\
  last_id (snd (run (antiFraudCheck antifraud rd u) st)) = last_id st.
Proof.
  rewrite run_antiFraudCheck. cbv zeta.
  repeat match goal with
  | |- context [if ?b then _ else _] => destruct b
  end; cbn [snd]; rewrite ?enter_scans, ?enter_last_id; split; reflexivity.
Qed.

Lemma antiFraudCheck_answers (antifraud : Config.antifraud) (rd : Readings) (u : string)
  (st : Store) :
  match fst (run (antiFraudCheck antifraud rd u) st) with
  | Respond (COOLDOWN_ACTIVE _ _) | Respond (DAILY_LIMIT_EXCEEDED _ _)
  | Next | NextError _ => True
  | Respond _ => False
  end.
Proof.
  rewrite run_antiFraudCheck. cbv zeta.
  repeat match goal with
  | |- context [if ?b then _ else _] => destruct b
  end; exact I.
Qed.

(** What the handler leaves behind, by how its three calls settle. *)
Lemma run_scanHandler_cases (secret : string) (rd : Readings) (u campaign : string)
  (st : Store) :
  let d := mk_scan (Cooldown.generateScanId (at_scan_id rd) (random_hex rd)) u campaign
             (JsDate.toISOString (at_admission rd))
             (Checksum.generateAEIChecksum u (JsDate.toISOString (at_admission rd))
                campaign secret) true in
  let handled := run (scanHandler secret rd u campaign) st in
  match insertScan d st with
  | (Rejected e, st1) =>
      handled = (Failed "Failed to register scan" e, st1) /\ scans st1 = scans st
  | (Resolved res, st1) =>
      scans (snd handled) = scans st ++ [row_of (last_id st + 1) d] /\
      (fst handled =
         Registered d (Z.min 1000 (Z.of_nat (List.length (scans st)) + 1))
           (Z.of_nat (List.length
              (filter (sql_matches
                         (mk_filters None None
                            (Some (JsDate.before_T (JsDate.toISOString (at_range_start rd))))
                            (Some (JsDate.before_T (JsDate.toISOString (at_range_end rd))
                                   ++ "T23:59:59.999Z")%string)
                            None None))
                      (scans st ++ [row_of (last_id st + 1) d]))))
       \/ exists e, fst handled = Failed "Failed to register scan" e)
  end.
Proof.
  intros d handled. subst handled. unfold scanHandler. fold d. cbn [run perform].
  destruct (insertScan d st) as [[res|e] st1] eqn:Ei; cbn [run].
  - assert (Hrows : scans st1 = scans st ++ [row_of (last_id st + 1) d]).
    { revert Ei. unfold insertScan. pose proof (enter_scans st) as Es.
      pose proof (enter_last_id st) as El.
      destruct (enter st) as [fault st0]. simpl in Es, El. destruct fault; [discriminate|].
      destruct (existsb _ _); [discriminate|]. intros E. injection E as <- <-.
      simpl. now rewrite Es, El. }
    cbn [perform]. rewrite getScans_eq.
    pose proof (enter_scans st1) as Es1.
    destruct (enter st1) as [f1 st2]. simpl in Es1.
    destruct f1; cbn [run fst snd].
    { split; [congruence | right; eauto]. }
    cbn [truthy_number f_limit f_offset Z.eqb]. cbv iota. cbn [run perform].
    rewrite getScans_eq.
    pose proof (enter_scans st2) as Es2.
    destruct (enter st2) as [f2 st3]. simpl in Es2.
    destruct f2; cbn [run fst snd].
    { split; [congruence | right; eauto]. }
    cbn [truthy_number f_limit f_offset]. cbn [run fst snd].
    split; [congruence|]. left. f_equal.
    + unfold page. cbn [truthy_number f_limit f_offset Z.eqb]. cbv iota.
      unfold apply_limit. cbn [Z.ltb Z.compare]. cbv iota.
      rewrite length_firstn.
      rewrite <- (Permutation_length (order_by_timestamp_desc_perm _)).
      rewrite (filter_ext_in_rows (sql_matches _) (fun _ => true)) by reflexivity.
      assert (Hall : forall l : list ScanRow, filter (fun _ => true) l = l).
      { induction l as [|x l IH]; simpl; [reflexivity | now rewrite IH]. }
      rewrite Hall, Hrows, length_app. simpl List.length.
      change (Z.to_nat 1000) with 1000%nat. lia.
    + unfold page. cbn [truthy_number f_limit f_offset].
      rewrite <- (Permutation_length (order_by_timestamp_desc_perm _)).
      now rewrite Es1, Hrows.
  - split; [reflexivity|].
    revert Ei. unfold insertScan. pose proof (enter_scans st) as Es.
    destruct (enter st) as [fault st0]. simpl in Es. destruct fault.
    + intros E. injection E as _ <-. exact Es.
    + destruct (existsb _ _); [|discriminate]. intros E. injection E as _ <-. exact Es.
Qed.

Lemma perform_keeps_sealed (secret : string) (R : Type) (c : call R) (st : Store) :
  seals_only secret R c -> Forall (sealed secret) (scans st) ->
  Forall (sealed secret) (scans (snd (perform c st))).
Proof.
  intros Hc Hst. pose proof (perform_read_scans R c st) as H.
  destruct c; try (rewrite H; exact Hst).
  simpl in *. unfold insertScan.
  pose proof (enter_scans st) as Es.
  destruct (enter st) as [fault st']. simpl in Es.
  destruct fault; simpl; [now rewrite Es|].
  destruct (existsb _ _); simpl; [now rewrite Es|].
  rewrite Es. apply Forall_app. split; [exact Hst|].
  constructor; [|constructor]. apply Hc.
Qed.

Lemma antiFraudCheck_seals (secret : string) (antifraud : Config.antifraud) (rd : Readings)
  (u : string) : makes_calls (seals_only secret) (antiFraudCheck antifraud rd u).
Proof.
  unfold antiFraudCheck. constructor; [exact I|].
  intros [last|e]; [|constructor].
  destruct (_ && _); [constructor|].
  constructor; [exact I|].
  intros [n|e]; [|constructor]. destruct (_ <=? _); constructor.
Qed.

Lemma scanHandler_seals (secret : string) (rd : Readings) (u campaign : string) :
  Utils.isValidUID u = true -> campaign <> EmptyString ->
  makes_calls (seals_only secret) (scanHandler secret rd u campaign).
Proof.
  intros Hu Hc. unfold scanHandler. constructor.
  - intros key. unfold sealed, row_of.
    cbn [uid campaign_id verified timestamp checksum d_scan_id d_uid d_campaign_id
         d_timestamp d_checksum d_verified].
    repeat split; try assumption. apply verifyAEIChecksum_generated.
  - intros [res|e]; [|constructor].
    constructor; [exact I|]. intros [rows|e]; [|constructor].
    constructor; [exact I|]. intros [rows'|e]; constructor.
Qed.

Lemma postScan_seals (antifraud : Config.antifraud) (secret : string) (rd : Readings)
  (body : Body) : makes_calls (seals_only secret) (postScan antifraud secret rd body).
Proof.
  unfold postScan.
  destruct (validateScanRequest_cases body) as [(-> & Hu & Hc) | [-> | [-> | ->]]];
    [| constructor | constructor | constructor].
  apply makes_calls_bind; [apply antiFraudCheck_seals|].
  intros [r| |e]; [constructor | | constructor].
  apply makes_calls_bind; [now apply scanHandler_seals | constructor].
Qed.

Lemma fault_at_store (n : nat) (rows : list ScanRow) (k : Z) (fs : list bool) :
  fault_at n (mk_store rows k fs) = nth n fs false.
Proof. reflexivity. Qed.

End RequestEffects.

(** X9. One POST /scan request never removes or changes a row: it leaves the
    rows as they were or adds, at the end, exactly the row of the record
    the handler built.  A validation failure leaves the whole store
    untouched (no storage call is made); a policy rejection or an error
    handed on by the fraud check leaves the rows untouched; and a
    registered answer carries that record, whose row is then the last one. *)
Theorem postScan_appends_at_most_one_row
  (antifraud : Config.antifraud) (secret : string) (rd : Pipeline.Readings)
  (body : Pipeline.Body) (st : Database.Store) :
  let res := Async.run (Pipeline.postScan antifraud secret rd body) st in
  let row := row_of (Database.last_id st + 1) (request_record secret rd body) in
  (Database.scans (snd res) = Database.scans st \/
   Database.scans (snd res) = (Database.scans st ++ [row])%list) /\
  (Pipeline.validateScanRequest body <> Pipeline.Next -> snd res = st) /\
  (rejected_before_handler (fst res) -> Database.scans (snd res) = Database.scans st) /\
  (forall record n m,
     fst res = Pipeline.Answered (Pipeline.Registered record n m) ->
     record = request_record secret rd body /\
     Database.scans (snd res) = (Database.scans st ++ [row])%list).
Proof.
  intros res row. subst res. rewrite run_postScan_cases.
  destruct (validateScanRequest_cases body) as [(-> & Hu & Hc) | [-> | [-> | ->]]].
  2-4: (cbn [fst snd rejected_before_handler];
        split; [left; reflexivity|]; split; [reflexivity|]; split; [reflexivity|];
        intros record n m E; discriminate E).
  cbv zeta.
  destruct (antiFraudCheck_store antifraud rd
              (Pipeline.text_of (Pipeline.body_uid body)) st) as [Hs Hl].
  pose proof (antiFraudCheck_answers antifraud rd
                (Pipeline.text_of (Pipeline.body_uid body)) st) as Ha.
  destruct (Async.run (Pipeline.antiFraudCheck _ _ _) st) as [[r| |e] st1];
    cbn [fst snd] in *.
  - split; [left; exact Hs|]. split; [congruence|]. split; [intros _; exact Hs|].
    intros record n m E. injection E as ->. destruct Ha.
  - pose proof (run_scanHandler_cases secret rd
                  (Pipeline.text_of (Pipeline.body_uid body))
                  (Pipeline.text_of (Pipeline.body_campaign_id body)) st1) as Hh.
    cbv zeta in Hh. fold (request_record secret rd body) in Hh.
    rewrite Hs, Hl in Hh. fold row in Hh.
    destruct (Database.insertScan _ st1) as [[res|e] st2].
    + destruct Hh as [Hrows Hresp].
      split; [right; exact Hrows|]. split; [congruence|]. split.
      * destruct Hresp as [-> | [e ->]]; intros [].
      * intros record n m E. split; [|exact Hrows].
        destruct Hresp as [E' | [e E']]; rewrite E' in E; [|discriminate E].
        now injection E.
    + destruct Hh as [-> Hrows]. cbn [fst snd].
      split; [left; exact Hrows|]. split; [congruence|]. split; [intros []|].
      intros record n m E. discriminate E.
  - split; [left; exact Hs|]. split; [congruence|]. split; [intros _; exact Hs|].
    intros record n m E. discriminate E.
Qed.

(** X10. The [total_scans] of a registered answer is the number of rows after
    the append, capped at 1000 by the limit of the handler's listing. *)
Theorem registered_total_scans_capped_at_1000
  (antifraud : Config.antifraud) (secret : string) (rd : Pipeline.Readings)
  (body : Pipeline.Body) (st : Database.Store) (record : Database.ScanData) (n m : Z)
  (Hanswer : fst (Async.run (Pipeline.postScan antifraud secret rd body) st)
             = Pipeline.Answered (Pipeline.Registered record n m)) :
  n = Z.min 1000 (Z.of_nat (List.length (Database.scans st)) + 1) /\
  (1 <= n <= 1000)%Z.
Proof.
  assert (Hn : n = Z.min 1000 (Z.of_nat (List.length (Database.scans st)) + 1)); [|lia].
  revert Hanswer. rewrite run_postScan_cases.
  destruct (validateScanRequest_cases body) as [(-> & Hu & Hc) | [-> | [-> | ->]]];
    try discriminate.
  cbv zeta.
  destruct (antiFraudCheck_store antifraud rd
              (Pipeline.text_of (Pipeline.body_uid body)) st) as [Hs Hl].
  pose proof (antiFraudCheck_answers antifraud rd
                (Pipeline.text_of (Pipeline.body_uid body)) st) as Ha.
  destruct (Async.run (Pipeline.antiFraudCheck _ _ _) st) as [[r| |e] st1];
    cbn [fst snd] in *; try discriminate.
  - intros E. injection E as ->. destruct Ha.
  - pose proof (run_scanHandler_cases secret rd
                  (Pipeline.text_of (Pipeline.body_uid body))
                  (Pipeline.text_of (Pipeline.body_campaign_id body)) st1) as Hh.
    cbv zeta in Hh. rewrite Hs, Hl in Hh.
    destruct (Database.insertScan _ st1) as [[res|e] st2].
    + destruct Hh as [_ [-> | [e ->]]]; intros E; [|discriminate].
      injection E as _ <- _. reflexivity.
    + destruct Hh as [-> _]. discriminate.
Qed.

Lemma registered_total_scans_capped_at_1000_witness :
  (1 = Z.min 1000 (Z.of_nat (List.length (Database.scans (Database.empty_store []))) + 1)
   /\ 1 <= 1 <= 1000)%Z.
Proof.
  apply (registered_total_scans_capped_at_1000 Config.default Config.aeiSecretKey
           (readings_at sample_instant "deadbeef")
           (Pipeline.mk_body (Some "TEST12345678") (Some "DEMO01"))
           (Database.empty_store [])
           (request_record Config.aeiSecretKey (readings_at sample_instant "deadbeef")
              (Pipeline.mk_body (Some "TEST12345678") (Some "DEMO01")))
           1 1).
  vm_compute. reflexivity.
Defined.

(** X11. Every row of a ledger written, under one secret, by POST /scan
    requests whose [uid] and [campaign_id] are JSON strings has an
    identifier the validator accepts, a campaign, the verified flag, and a
    checksum that [verifyAEIChecksum] accepts for the row's own fields.
    Requests that carry a value of another JSON type in one of the two
    properties are outside this statement. *)
Theorem sealed_ledger_rows_verify
  (secret : string) (st : Database.Store) (Hledger : sealed_ledger secret st) :
  Forall (sealed secret) (Database.scans st).
Proof.
  induction Hledger as [script | st antifraud rd json body _ IH _ | st R c _ IH Hread].
  - constructor.
  - apply (run_invariant (seals_only secret)
             (fun s => Forall (sealed secret) (Database.scans s))).
    + intros R c s. apply perform_keeps_sealed.
    + apply postScan_seals.
    + exact IH.
  - rewrite (perform_read_rows R c st Hread). exact IH.
Qed.

Lemma sealed_ledger_rows_verify_witness :
  Forall (sealed Config.aeiSecretKey)
    (Database.scans
       (snd (Async.run
               (Pipeline.postScan Config.default Config.aeiSecretKey
                  (readings_at sample_instant "deadbeef")
                  (Pipeline.mk_body (Some "TEST12345678") (Some "DEMO01")))
               (Database.empty_store [])))).
Proof.
  apply (sealed_ledger_rows_verify Config.aeiSecretKey).
  apply (sealed_request Config.aeiSecretKey (Database.empty_store []) Config.default
           (readings_at sample_instant "deadbeef")
           (Json.mk_body (Json.Text "TEST12345678") (Json.Text "DEMO01"))
           (Pipeline.mk_body (Some "TEST12345678") (Some "DEMO01")));
    [apply sealed_start | reflexivity].
Defined.

Section StoredFailure.
Import Database Async Pipeline.
Local Open Scope list_scope.
Local Open Scope Z_scope.

Lemma antiFraudCheck_fresh (antifraud : Config.antifraud) (rd : Readings) (u : string)
  (st : Store) :
  0 < Config.dailyScanLimit antifraud ->
  (forall r, In r (scans st) -> uid r <> u) ->
  fault_at 0 st = false -> fault_at 1 st = false ->
  run (antiFraudCheck antifraud rd u) st = (Next, snd (enter (snd (enter st)))).
Proof.
  intros Hlimit Hfresh F0 F1. rewrite run_antiFraudCheck. cbv zeta.
  rewrite enter_fault, F0, enter_fault, fault_at_enter, F1.
  rewrite (proj2 (filter_uid_nil u (scans st)) Hfresh).
  unfold newest_timestamp, in_cooldown.
  cbn [order_by_timestamp_desc fold_right truthy_text andb].
  rewrite (filter_none _ _ (scans st)).
  2:{ intros r Hr. apply andb_false_iff. left. apply String.eqb_neq. now apply Hfresh. }
  cbn [List.length Z.of_nat].
  destruct (Z.leb_spec (Config.dailyScanLimit antifraud) 0); [lia | reflexivity].
Qed.

End StoredFailure.

(** X12. The answer "Failed to register scan" does not mean that nothing was
    stored: when a request is admitted and its append goes through, but one
    of the two listings the handler runs afterwards hits a storage failure,
    the row is in the ledger and the answer is the failure. *)
Theorem scan_stored_though_listing_failed
  (antifraud : Config.antifraud) (secret : string) (rd : Pipeline.Readings)
  (body : Pipeline.Body) (st : Database.Store)
  (Hvalid : Pipeline.validateScanRequest body = Pipeline.Next)
  (Hlimit : (0 < Config.dailyScanLimit antifraud)%Z)
  (Hfresh : forall r, In r (Database.scans st) ->
                      Database.uid r <> Pipeline.text_of (Pipeline.body_uid body))
  (Hid : ~ In (Cooldown.generateScanId (Pipeline.at_scan_id rd) (Pipeline.random_hex rd))
              (map Database.scan_id (Database.scans st)))
  (Hgood : fault_at 0 st = false /\ fault_at 1 st = false /\ fault_at 2 st = false)
  (Hbad : fault_at 3 st = true \/ fault_at 4 st = true) :
  let res := Async.run (Pipeline.postScan antifraud secret rd body) st in
  fst res = Pipeline.Answered
              (Pipeline.Failed "Failed to register scan" Database.SQLITE_IOERR) /\
  Database.scans (snd res)
    = (Database.scans st ++ [row_of (Database.last_id st + 1)
                               (request_record secret rd body)])%list.
Proof.
  intros res. subst res. destruct Hgood as (F0 & F1 & F2).
  rewrite run_postScan_cases, Hvalid. cbv zeta.
  rewrite (antiFraudCheck_fresh antifraud rd _ st Hlimit Hfresh F0 F1). cbn [fst snd].
  set (st2 := snd (Database.enter (snd (Database.enter st)))).
  assert (Hs2 : Database.scans st2 = Database.scans st)
    by (unfold st2; now rewrite !enter_scans).
  assert (Hl2 : Database.last_id st2 = Database.last_id st)
    by (unfold st2; now rewrite !enter_last_id).
  assert (Hf2 : forall n, fault_at n st2 = fault_at (S (S n)) st)
    by (intros n; unfold st2; now rewrite !fault_at_enter).
  unfold Pipeline.scanHandler. fold (request_record secret rd body).
  cbn [Async.run Async.perform].
  rewrite (insertScan_eq _ st2)
    by (unfold next_call_succeeds; now rewrite enter_fault, Hf2).
  destruct (existsb _ (Database.scans st2)) eqn:Ex.
  { apply existsb_scan_id in Ex. rewrite Hs2 in Ex. contradiction. }
  rewrite Hs2, Hl2.
  set (st3 := Database.mk_store _ _ _).
  assert (Hf3 : forall n, fault_at n st3 = fault_at (S (S (S n))) st).
  { intros n. unfold st3. rewrite fault_at_store.
    change (nth n (Database.faults (snd (Database.enter st2))) false)
      with (fault_at n (snd (Database.enter st2))).
    now rewrite fault_at_enter, Hf2. }
  cbn [Async.run Async.perform]. rewrite getScans_eq.
  pose proof (enter_fault st3) as E3. rewrite Hf3 in E3.
  pose proof (enter_scans st3) as Es3.
  pose proof (enter_fault (snd (Database.enter st3))) as E4.
  rewrite fault_at_enter, Hf3 in E4.
  pose proof (enter_scans (snd (Database.enter st3))) as Es4.
  destruct (Database.enter st3) as [f3 st4]. cbn [fst snd] in *.
  destruct f3.
  - cbn [Async.run fst snd]. split; [reflexivity | exact Es3].
  - destruct Hbad as [Hb|Hb]; [congruence|].
    cbn [Database.truthy_number Database.f_limit Database.f_offset Z.eqb]. cbv iota.
    cbn [Async.run Async.perform]. rewrite getScans_eq.
    destruct (Database.enter st4) as [f4 st5]. cbn [fst snd] in *.
    rewrite Hb in E4. subst f4. cbn [Async.run fst snd].
    split; [reflexivity|]. rewrite Es4, Es3. reflexivity.
Qed.

Lemma scan_stored_though_listing_failed_witness :
  let res := Async.run
               (Pipeline.postScan Config.default Config.aeiSecretKey
                  (readings_at sample_instant "deadbeef")
                  (Pipeline.mk_body (Some "TEST12345678") (Some "DEMO01")))
               (Database.empty_store [false; false; false; true]) in
  fst res = Pipeline.Answered
              (Pipeline.Failed "Failed to register scan" Database.SQLITE_IOERR) /\
  Database.scans (snd res)
    = [row_of 1 (request_record Config.aeiSecretKey (readings_at sample_instant "deadbeef")
                   (Pipeline.mk_body (Some "TEST12345678") (Some "DEMO01")))].
Proof.
  apply (scan_stored_though_listing_failed Config.default Config.aeiSecretKey
           (readings_at sample_instant "deadbeef")
           (Pipeline.mk_body (Some "TEST12345678") (Some "DEMO01"))
           (Database.empty_store [false; false; false; true])).
  - reflexivity.
  - reflexivity.
  - intros r [].
  - intros [].
  - repeat split; reflexivity.
  - left. reflexivity.
Defined.

Section LogsPagination.
Import Database Async Pipeline.
Local Open Scope list_scope.
Local Open Scope Z_scope.

Lemma page_limit_offset (f : Filters) (l o : Z) (rows : list ScanRow) :
  f_limit f = Some l -> f_offset f = Some o -> 0 < l -> 0 <= o ->
  page f rows = firstn (Z.to_nat l) (skipn (Z.to_nat o) rows).
Proof.
  intros Hl Ho Lpos Opos. unfold page, truthy_number. rewrite Hl, Ho.
  destruct (Z.eqb_spec l 0); [lia|].
  unfold apply_limit, apply_offset.
  destruct (Z.ltb_spec l 0); [lia|].
  destruct (Z.eqb_spec o 0) as [->|]; reflexivity.
Qed.

End LogsPagination.

(** X13. With a positive limit, a non-negative offset and both reads going
    through, GET /logs answers with the rows at positions
    [offset, offset + limit) of a listing of the selected rows, each once,
    newest first by timestamp (the order among rows of equal timestamp is
    left open); [total] is the number of selected rows whatever the page;
    and [has_more] is true exactly when rows remain after the page. *)
Theorem logsHandler_pages_selection
  (q : Pipeline.LogsQuery) (st : Database.Store) (l o : Z)
  (Hlimit : Pipeline.q_limit q = Some l /\ (0 < l)%Z)
  (Hoffset : Pipeline.q_offset q = Some o /\ (0 <= o)%Z)
  (Hreads : fault_at 0 st = false /\ fault_at 1 st = false) :
  exists listing rows more,
    fst (Async.run (Pipeline.logsHandler q) st)
      = Pipeline.Logs rows (Z.of_nat (List.length (logs_selected q st)))
          (Some l) (Some o) more /\
    newest_first_listing (logs_selected q st) listing /\
    rows = firstn (Z.to_nat l) (skipn (Z.to_nat o) listing) /\
    (List.length rows <= Z.to_nat l)%nat /\
    (more = true <->
     (o + Z.of_nat (List.length rows) < Z.of_nat (List.length (logs_selected q st)))%Z).
Proof.
  destruct Hlimit as [Hl Lpos]. destruct Hoffset as [Ho Opos]. destruct Hreads as [F0 F1].
  unfold Pipeline.logsHandler. fold (logs_filters q).
  cbn [Async.run Async.perform]. rewrite getScans_eq.
  pose proof (enter_fault st) as E0. rewrite F0 in E0.
  pose proof (enter_fault (snd (Database.enter st))) as E1.
  rewrite fault_at_enter, F1 in E1.
  pose proof (enter_scans st) as Es0.
  destruct (Database.enter st) as [f0 st1]. cbn [fst snd] in *. subst f0.
  assert (Htl : Database.truthy_number (Database.f_limit (logs_filters q)) = Some l).
  { cbn [logs_filters Database.f_limit]. rewrite Hl. unfold Database.truthy_number.
    destruct (Z.eqb_spec l 0); [lia | reflexivity]. }
  rewrite Htl.
  cbv iota. cbn [Async.run Async.perform]. rewrite getScans_eq.
  destruct (Database.enter st1) as [f1 st2]. cbn [fst snd] in *. subst f1.
  cbn [Database.truthy_number Database.f_limit Database.f_offset]. cbn [Async.run fst].
  rewrite Hl, Ho.
  rewrite (page_limit_offset (logs_filters q) l o) by (try assumption; reflexivity).
  unfold page. cbn [Database.truthy_number Database.f_limit Database.f_offset].
  fold (logs_selected q st).
  set (listing := Database.order_by_timestamp_desc (logs_selected q st)).
  assert (Hperm : Permutation (logs_selected q st) listing)
    by apply order_by_timestamp_desc_perm.
  assert (Hsame : Database.order_by_timestamp_desc
            (filter (sql_matches
               (Database.mk_filters (Database.f_uid (logs_filters q))
                  (Database.f_campaign_id (logs_filters q))
                  (Database.f_start_date (logs_filters q))
                  (Database.f_end_date (logs_filters q)) None None))
               (Database.scans st1)) = listing).
  { rewrite Es0. reflexivity. }
  rewrite Hsame, <- (Permutation_length Hperm).
  exists listing, (firstn (Z.to_nat l) (skipn (Z.to_nat o) listing)),
         (o + l <? Z.of_nat (List.length (logs_selected q st)))%Z.
  split; [reflexivity|].
  split; [split; [exact Hperm | apply order_by_timestamp_desc_sorted]|].
  split; [reflexivity|].
  rewrite length_firstn, length_skipn, <- (Permutation_length Hperm). split; [lia|].
  rewrite Z.ltb_lt. lia.
Qed.

(** Two rows of one millisecond and an older one: page 2 of size 1. *)
Lemma logsHandler_pages_selection_witness :
  let q := Pipeline.mk_logs_query (Some 1%Z) (Some 1%Z) None None None None in
  let st := Database.mk_store
              [Database.mk_row 1 "scan_1_aa" "TEST12345678" "DEMO01"
                 "2025-10-19T10:00:00.000Z" "00" true;
               Database.mk_row 2 "scan_2_bb" "TEST87654321" "DEMO01"
                 "2025-10-19T11:00:00.000Z" "00" true;
               Database.mk_row 3 "scan_3_cc" "TEST00000000" "DEMO01"
                 "2025-10-19T11:00:00.000Z" "00" true] 3 [] in
  exists listing rows more,
    fst (Async.run (Pipeline.logsHandler q) st)
      = Pipeline.Logs rows (Z.of_nat (List.length (logs_selected q st)))
          (Some 1%Z) (Some 1%Z) more /\
    newest_first_listing (logs_selected q st) listing /\
    rows = firstn (Z.to_nat 1) (skipn (Z.to_nat 1) listing) /\
    (List.length rows <= Z.to_nat 1)%nat /\
    (more = true <->
     (1 + Z.of_nat (List.length rows) < Z.of_nat (List.length (logs_selected q st)))%Z).
Proof.
  intros q st. apply (logsHandler_pages_selection q st 1 1).
  - split; [reflexivity | lia].
  - split; [reflexivity | lia].
  - split; reflexivity.
Defined.

Section Statistics.
Import Database.
Local Open Scope list_scope.
Local Open Scope Z_scope.

Lemma in_distinct (l : list string) (x : string) : In x (distinct l) <-> In x l.
Proof.
  induction l as [|y l IH]; simpl; [tauto|].
  destruct (existsb (String.eqb y) l) eqn:E.
  - rewrite IH. split; [now right|]. intros [<-|H]; [|exact H].
    apply existsb_exists in E. destruct E as [z [Hz Ez]].
    apply String.eqb_eq in Ez. now subst z.
  - simpl. rewrite IH. tauto.
Qed.

Lemma NoDup_distinct (l : list string) : NoDup (distinct l).
Proof.
  induction l as [|y l IH]; simpl; [constructor|].
  destruct (existsb (String.eqb y) l) eqn:E; [exact IH|].
  constructor; [|exact IH]. rewrite in_distinct. intros Hin.
  assert (existsb (String.eqb y) l = true) as Ht.
  { apply existsb_exists. exists y. split; [exact Hin | apply String.eqb_refl]. }
  congruence.
Qed.

Lemma identifiers_of_distinct (rows : list ScanRow) :
  identifiers_of rows (distinct (map uid rows)).
Proof.
  split; [apply NoDup_distinct|]. intros u. rewrite in_distinct, in_map_iff.
  split; intros [r [A B]]; exists r; tauto.
Qed.

Lemma filter_every (l : list ScanRow) : filter (fun _ => true) l = l.
Proof. induction l as [|x l IH]; simpl; [reflexivity | now rewrite IH]. Qed.

Lemma length_two_filters (p q : ScanRow -> bool) (l : list ScanRow) :
  (forall r, In r l -> p r = true -> q r = false) ->
  (List.length (filter p l) + List.length (filter q l) <= List.length l)%nat.
Proof.
  induction l as [|x l IH]; intros H; simpl; [lia|].
  assert (IH' := IH (fun r Hr => H r (or_intror Hr))).
  pose proof (H x (or_introl eq_refl)) as Hx.
  destruct (p x); [rewrite (Hx eq_refl)|destruct (q x)]; simpl; lia.
Qed.

End Statistics.

(** X14. With its five queries going through, on a ledger of stamped rows,
    [getStats] reports: the number of rows; the rows of the UTC day of its
    first clock reading; the rows of the UTC day 24 hours before its second
    reading; the number of distinct identifiers; and a last scan that is
    null exactly for the empty ledger.  When both readings fall on the same
    UTC day the two day counts cover different rows, so together they do
    not exceed the total. *)
Theorem getStats_counts_by_utc_day
  (st : Database.Store) (now now' : Z)
  (Hledger : all_stamped st)
  (Hnow : JsDate.four_digit_year now)
  (Hyesterday : JsDate.four_digit_year (now' - 24 * 60 * 60 * 1000))
  (Hserved : stats_calls_succeed st) :
  exists s ids,
    fst (Database.getStats now now' st) = Database.Resolved s /\
    Database.totalScans s = Z.of_nat (List.length (Database.scans st)) /\
    Database.todayScans s
      = Z.of_nat (List.length (rows_of_day now (Database.scans st))) /\
    Database.yesterdayScans s
      = Z.of_nat (List.length
          (rows_of_day (now' - 24 * 60 * 60 * 1000) (Database.scans st))) /\
    identifiers_of (Database.scans st) ids /\
    Database.uniqueUids s = Z.of_nat (List.length ids) /\
    (Database.lastScan s = None <-> Database.scans st = []) /\
    (JsDate.Day now' = JsDate.Day now ->
     (Database.todayScans s + Database.yesterdayScans s <= Database.totalScans s)%Z).
Proof.
  assert (Hrows : forall r, In r (Database.scans st) -> stamped r).
  { unfold all_stamped in Hledger. now rewrite Forall_forall in Hledger. }
  assert (Hday : forall t, JsDate.four_digit_year t ->
            filter (Database.on_day (JsDate.before_T (JsDate.toISOString t)))
                   (Database.scans st)
            = rows_of_day t (Database.scans st)).
  { intros t Ht. apply filter_ext_in_rows. intros r Hr.
    apply on_day_stamped; [exact Ht | now apply Hrows]. }
  eexists. exists (Database.distinct (map Database.uid (Database.scans st))).
  split; [apply getStats_eq|].
  rewrite !Hserved by lia. unfold Database.count_rows.
  cbn [Database.totalScans Database.todayScans Database.yesterdayScans
       Database.uniqueUids Database.lastScan].
  rewrite (Hday now Hnow), (Hday _ Hyesterday).
  split; [now rewrite filter_every|].
  split; [reflexivity|]. split; [reflexivity|].
  split; [apply identifiers_of_distinct|]. split; [reflexivity|].
  split; [apply newest_timestamp_none|].
  intros Hsame. rewrite filter_every.
  pose proof (length_two_filters
                (fun r => same_day (instant r) now)
                (fun r => same_day (instant r) (now' - 24 * 60 * 60 * 1000))
                (Database.scans st)) as L.
  unfold rows_of_day. cut ((List.length (filter (fun r => same_day (instant r) now) (Database.scans st)) +
     List.length (filter (fun r => same_day (instant r) (now' - 24 * 60 * 60 * 1000)) (Database.scans st))
     <= List.length (Database.scans st))%nat); [lia|].
  apply L. intros r _. unfold same_day. rewrite Z.eqb_eq, Z.eqb_neq.
  intros ->. rewrite <- Hsame. unfold JsDate.Day, JsDate.msPerDay.
  replace (now' - 24 * 60 * 60 * 1000)%Z with (now' + (-1) * 86400000)%Z by lia.
  rewrite Z.div_add by lia. lia.
Qed.

Lemma getStats_counts_by_utc_day_witness :
  exists s ids,
    fst (Database.getStats (sample_instant + 600000) (sample_instant + 600000) sample_store)
      = Database.Resolved s /\
    Database.totalScans s = Z.of_nat (List.length (Database.scans sample_store)) /\
    Database.todayScans s
      = Z.of_nat (List.length
          (rows_of_day (sample_instant + 600000) (Database.scans sample_store))) /\
    Database.yesterdayScans s
      = Z.of_nat (List.length
          (rows_of_day (sample_instant + 600000 - 24 * 60 * 60 * 1000)
             (Database.scans sample_store))) /\
    identifiers_of (Database.scans sample_store) ids /\
    Database.uniqueUids s = Z.of_nat (List.length ids) /\
    (Database.lastScan s = None <-> Database.scans sample_store = []) /\
    (JsDate.Day (sample_instant + 600000) = JsDate.Day (sample_instant + 600000) ->
     (Database.todayScans s + Database.yesterdayScans s <= Database.totalScans s)%Z).
Proof.
  apply (getStats_counts_by_utc_day sample_store
           (sample_instant + 600000) (sample_instant + 600000)).
  - constructor; [|constructor]. exists sample_instant.
    split; [unfold JsDate.four_digit_year, JsDate.first_instant, JsDate.end_instant,
              sample_instant; lia | vm_compute; reflexivity].
  - unfold JsDate.four_digit_year, JsDate.first_instant, JsDate.end_instant,
      sample_instant; lia.
  - unfold JsDate.four_digit_year, JsDate.first_instant, JsDate.end_instant,
      sample_instant; lia.
  - intros n Hn. unfold fault_at, sample_store. simpl. destruct n; reflexivity.
Defined.

Section AnySchedule.
Import Database Async Pipeline.
Local Open Scope list_scope.

Lemma appends_more (d : ScanData) (A : Type) (n : nat) (t : task A) :
  appends d n t -> forall m, (n <= m)%nat -> appends d m t.
Proof.
  induction 1 as [n a | n R c k Hc _ IH | n k _ IH]; intros m Hm.
  - constructor.
  - constructor; [exact Hc|]. intros got. now apply IH.
  - destruct m as [|m]; [lia|]. apply appends_insert. intros got. apply IH. lia.
Qed.

Lemma appends_bind (d : ScanData) (A B : Type) (n m : nat) (t : task A) (k : A -> task B) :
  appends d n t -> (forall a, appends d m (k a)) -> appends d (n + m) (bind t k).
Proof.
  intros Ht Hk. induction Ht as [n a | n R c k' Hc _ IH | n k' _ IH]; simpl.
  - apply (appends_more d B m); [apply Hk | lia].
  - constructor; [exact Hc | exact IH].
  - apply appends_insert. exact IH.
Qed.

Lemma antiFraudCheck_appends (d : ScanData) (antifraud : Config.antifraud) (rd : Readings)
  (u : string) : appends d 0 (antiFraudCheck antifraud rd u).
Proof.
  unfold antiFraudCheck. constructor; [exact I|].
  intros [last|e]; [|constructor].
  destruct (_ && _); [constructor|].
  constructor; [exact I|].
  intros [n|e]; [|constructor]. destruct (_ <=? _)%Z; constructor.
Qed.

Lemma postScan_appends (antifraud : Config.antifraud) (secret : string) (rd : Readings)
  (body : Body) :
  appends (request_record secret rd body) 1 (postScan antifraud secret rd body).
Proof.
  unfold postScan.
  destruct (validateScanRequest body) as [r| |e]; [constructor | | constructor].
  apply (appends_bind _ _ _ 0 1); [apply antiFraudCheck_appends|].
  intros [r| |e]; [constructor | | constructor].
  apply (appends_bind _ _ _ 1 0); [|constructor].
  unfold scanHandler, request_record. apply appends_insert.
  intros [ran|e]; [|constructor].
  constructor; [exact I|]. intros [rows|e]; [|constructor].
  constructor; [exact I|]. intros [rows'|e]; constructor.
Qed.

Lemma insertScan_rows (d : ScanData) (st : Store) :
  scans (snd (insertScan d st)) = scans st \/
  scans (snd (insertScan d st)) = scans st ++ [row_of (last_id st + 1) d].
Proof.
  unfold insertScan.
  pose proof (enter_scans st) as Es. pose proof (enter_last_id st) as El.
  destruct (enter st) as [fault st']. simpl in Es, El.
  destruct fault; simpl; [now left|].
  destruct (existsb _ _); simpl; [now left|].
  right. now rewrite Es, El.
Qed.

(** One turn of a task that appends at most [n] times record [d]. *)
Lemma turn_appends (d : ScanData) (A : Type) (n : nat) (t : task A) (st : Store) :
  appends d n t ->
  exists n' extra,
    appends d n' (fst (turn t st)) /\
    scans (snd (turn t st)) = scans st ++ extra /\
    (List.length extra + n' <= n)%nat /\
    Forall (row_of_record d) extra.
Proof.
  intros [m a | m R c k Hc Hk | m k Hk].
  - exists m, []. simpl. rewrite app_nil_r. repeat split; [constructor | simpl; lia | constructor].
  - exists m, []. simpl. pose proof (perform_read_rows R c st Hc) as Hr.
    destruct (perform c st) as [got st']. simpl in *. rewrite app_nil_r.
    repeat split; [apply Hk | exact Hr | simpl; lia | constructor].
  - simpl. destruct (insertScan_rows d st) as [Hr|Hr];
      destruct (insertScan d st) as [got st']; simpl in *.
    + exists m, []. rewrite app_nil_r.
      repeat split; [apply Hk | exact Hr | simpl; lia | constructor].
    + exists m, [row_of (last_id st + 1) d].
      repeat split; [apply Hk | exact Hr | simpl; lia |].
      constructor; [|constructor]. now exists (last_id st + 1)%Z.
Qed.

Lemma turn_keeps_unique (A : Type) (t : task A) (st : Store) :
  unique_scan_ids st -> unique_scan_ids (snd (turn t st)).
Proof.
  intros Hu. destruct t as [a | R c k]; simpl; [exact Hu|].
  pose proof (perform_keeps_unique R c st Hu) as H.
  now destruct (perform c st).
Qed.

Lemma interleave_appends (d1 d2 : ScanData) (A : Type) (schedule : list who) :
  forall (f : flight A) (n1 n2 : nat),
  appends d1 n1 (first f) -> appends d2 n2 (second f) ->
  exists added,
    scans (shared (interleave schedule f)) = scans (shared f) ++ added /\
    (List.length added <= n1 + n2)%nat /\
    Forall (fun r => row_of_record d1 r \/ row_of_record d2 r) added.
Proof.
  unfold interleave.
  induction schedule as [|w schedule IH]; intros f n1 n2 H1 H2; simpl.
  - exists []. rewrite app_nil_r. repeat split; [simpl; lia | constructor].
  - destruct w; unfold advance.
    + destruct (turn_appends d1 A n1 (first f) (shared f) H1)
        as (n' & extra & Ht & Hs & Hn & Hx).
      destruct (turn (first f) (shared f)) as [t st']. simpl in Ht, Hs.
      destruct (IH (mk_flight t (second f) st') n' n2 Ht H2) as (added & Ha & Hl & Hf).
      exists (extra ++ added). cbn [shared] in Ha.
      split; [transitivity (scans st' ++ added);
                [exact Ha | now rewrite Hs, <- app_assoc]|].
      split; [rewrite length_app; lia|].
      apply Forall_app. split; [|exact Hf].
      revert Hx. apply Forall_impl. intros r Hr. now left.
    + destruct (turn_appends d2 A n2 (second f) (shared f) H2)
        as (n' & extra & Ht & Hs & Hn & Hx).
      destruct (turn (second f) (shared f)) as [t st']. simpl in Ht, Hs.
      destruct (IH (mk_flight (first f) t st') n1 n' H1 Ht) as (added & Ha & Hl & Hf).
      exists (extra ++ added). cbn [shared] in Ha.
      split; [transitivity (scans st' ++ added);
                [exact Ha | now rewrite Hs, <- app_assoc]|].
      split; [rewrite length_app; lia|].
      apply Forall_app. split; [|exact Hf].
      revert Hx. apply Forall_impl. intros r Hr. now right.
Qed.

Lemma interleave_keeps_unique (A : Type) (schedule : list who) : forall f : flight A,
  unique_scan_ids (shared f) -> unique_scan_ids (shared (interleave schedule f)).
Proof.
  unfold interleave.
  induction schedule as [|w schedule IH]; intros f Hu; simpl; [exact Hu|].
  apply IH. destruct w; unfold advance.
  - pose proof (turn_keeps_unique A (first f) (shared f) Hu) as H.
    now destruct (turn (first f) (shared f)).
  - pose proof (turn_keeps_unique A (second f) (shared f) Hu) as H.
    now destruct (turn (second f) (shared f)).
Qed.

End AnySchedule.

(** X15. Two POST /scan requests in flight on one store, under any schedule
    of their turns: the rows that were there stay, in place and unchanged;
    at most two rows are added, each the row of the record of one of the
    two requests; and the scan ids stay unique. *)
Theorem requests_in_flight_only_append
  (schedule : list Async.who) (antifraud : Config.antifraud) (secret : string)
  (rd1 rd2 : Pipeline.Readings) (body1 body2 : Pipeline.Body) (st : Database.Store)
  (Hunique : unique_scan_ids st) :
  let after :=
    Async.shared (Async.interleave schedule
                    (two_requests antifraud secret rd1 rd2 body1 body2 st)) in
  exists added,
    Database.scans after = (Database.scans st ++ added)%list /\
    (List.length added <= 2)%nat /\
    Forall (fun r => row_of_record (request_record secret rd1 body1) r \/
                     row_of_record (request_record secret rd2 body2) r) added /\
    unique_scan_ids after.
Proof.
  intros after.
  destruct (interleave_appends (request_record secret rd1 body1)
              (request_record secret rd2 body2) Pipeline.outcome schedule
              (two_requests antifraud secret rd1 rd2 body1 body2 st) 1 1
              (postScan_appends antifraud secret rd1 body1)
              (postScan_appends antifraud secret rd2 body2)) as (added & Ha & Hl & Hf).
  exists added. split; [exact Ha|]. split; [exact Hl|]. split; [exact Hf|].
  apply interleave_keeps_unique. exact Hunique.
Qed.

Lemma requests_in_flight_only_append_witness :
  let body := Pipeline.mk_body (Some "TEST12345678") (Some "DEMO01") in
  let rd1 := readings_at sample_instant "deadbeef" in
  let rd2 := readings_at (sample_instant + 1) "cafebabe" in
  let after :=
    Async.shared (Async.interleave alternating
                    (two_requests Config.default Config.aeiSecretKey rd1 rd2 body body
                       sample_store)) in
  exists added,
    Database.scans after = (Database.scans sample_store ++ added)%list /\
    (List.length added <= 2)%nat /\
    Forall (fun r => row_of_record (request_record Config.aeiSecretKey rd1 body) r \/
                     row_of_record (request_record Config.aeiSecretKey rd2 body) r) added /\
    unique_scan_ids after.
Proof.
  intros body rd1 rd2.
  apply (requests_in_flight_only_append alternating Config.default Config.aeiSecretKey
           rd1 rd2 body body sample_store).
  unfold unique_scan_ids. simpl. constructor; [intros [] | constructor].
Defined.

Section DayFile.
Import JsDate Database Async CsvExport.
Local Open Scope Z_scope.

Lemma day_start_bounds (a : Z) :
  four_digit_year a ->
  four_digit_year (Day a * msPerDay) /\ four_digit_year (Day a * msPerDay + 86399999).
Proof.
  unfold four_digit_year, first_instant, end_instant, Day, msPerDay.
  intros H. Z.div_mod_to_equations. lia.
Qed.

Lemma within_day (a t : Z) :
  (Day a * msPerDay <=? t) && (t <=? Day a * msPerDay + 86399999) = same_day t a.
Proof.
  unfold same_day, Day, msPerDay.
  destruct (Z.eqb_spec (t / 86400000) (a / 86400000)) as [E|N].
  - rewrite <- E. apply andb_true_iff. rewrite !Z.leb_le.
    Z.div_mod_to_equations. lia.
  - apply andb_false_iff. rewrite !Z.leb_gt.
    Z.div_mod_to_equations. lia.
Qed.

Lemma date_text_day (t a : Z) : Day t = Day a -> date_text t = date_text a.
Proof. intros E. unfold date_text, fields_of_time. cbn [tm_year tm_month tm_date]. now rewrite E. Qed.

Lemma toISOString_date_time (t : Z) :
  four_digit_year t ->
  toISOString t
  = (date_text t ++ "T" ++ pad 2 (tm_hour (fields_of_time t)) ++ ":" ++
     pad 2 (tm_minute (fields_of_time t)) ++ ":" ++
     pad 2 (tm_second (fields_of_time t)) ++ "." ++
     pad 3 (tm_ms (fields_of_time t)) ++ "Z")%string.
Proof.
  intros H. pose proof (four_digit_year_range t H) as Hy.
  unfold toISOString, render, date_text.
  change (YearFromTime t) with (tm_year (fields_of_time t)) in Hy.
  rewrite year_text_four_digits by exact Hy.
  now rewrite !string_app_assoc.
Qed.

Lemma toISOString_day_start (a : Z) :
  four_digit_year a ->
  toISOString (Day a * msPerDay) = (date_text a ++ "T00:00:00.000Z")%string.
Proof.
  intros H. destruct (day_start_bounds a H) as [Hs _].
  rewrite toISOString_date_time by exact Hs.
  assert (Hd : Day (Day a * msPerDay) = Day a).
  { unfold Day at 1. apply Z.div_mul. discriminate. }
  rewrite (date_text_day _ a Hd).
  unfold fields_of_time. cbn [tm_hour tm_minute tm_second tm_ms].
  assert (Ht : TimeWithinDay (Day a * msPerDay) = 0).
  { unfold TimeWithinDay. apply Z.mod_mul. discriminate. }
  rewrite Ht. reflexivity.
Qed.

Lemma toISOString_day_end (a : Z) :
  four_digit_year a ->
  toISOString (Day a * msPerDay + 86399999) = (date_text a ++ "T23:59:59.999Z")%string.
Proof.
  intros H. destruct (day_start_bounds a H) as [_ He].
  rewrite toISOString_date_time by exact He.
  assert (Hd : Day (Day a * msPerDay + 86399999) = Day a).
  { unfold Day at 1, msPerDay. Z.div_mod_to_equations. lia. }
  rewrite (date_text_day _ a Hd).
  unfold fields_of_time. cbn [tm_hour tm_minute tm_second tm_ms].
  assert (Ht : TimeWithinDay (Day a * msPerDay + 86399999) = 86399999).
  { unfold TimeWithinDay, msPerDay. Z.div_mod_to_equations. lia. }
  rewrite Ht. reflexivity.
Qed.

Lemma text_filter_truthy (o : option string) (p : string -> bool) :
  text_filter (truthy_text o) p = text_filter o p.
Proof.
  unfold text_filter. destruct o as [s|]; [|reflexivity]. simpl.
  destruct (String.eqb s EmptyString) eqn:E; [reflexivity|]. simpl. now rewrite E.
Qed.

Lemma sql_matches_day (campaign : option string) (a : Z) (r : ScanRow) :
  four_digit_year a -> stamped r ->
  sql_matches (mk_filters None (truthy_text campaign)
                 (Some (date_text a ++ "T00:00:00.000Z")%string)
                 (Some (date_text a ++ "T23:59:59.999Z")%string) None None) r
  = text_filter campaign (String.eqb (campaign_id r)) && same_day (instant r) a.
Proof.
  intros Ha [t [Ht Hts]]. destruct (day_start_bounds a Ha) as [Hs He].
  unfold sql_matches. cbn [f_uid f_campaign_id f_start_date f_end_date].
  rewrite <- (toISOString_day_start a Ha), <- (toISOString_day_end a Ha).
  rewrite !text_filter_toISOString by assumption.
  rewrite !toISOString_not_numeric by assumption.
  rewrite text_filter_truthy, (instant_stamped r t Ht Hts), Hts.
  rewrite !leb_toISOString by assumption.
  rewrite <- within_day. unfold text_filter at 1. cbn [truthy_text].
  now rewrite andb_assoc.
Qed.

End DayFile.



Section CsvLine.
Import Database CsvExport.
Local Open Scope list_scope.

Lemma split_on_nonempty (sep : ascii) (s : string) : split_on sep s <> [].
Proof.
  destruct s as [|c rest]; simpl; [discriminate|].
  destruct (Ascii.eqb c sep); [discriminate|].
  destruct (split_on sep rest); discriminate.
Qed.

Lemma split_on_free (sep : ascii) (s : string) :
  count_char sep s = 0%nat -> split_on sep s = [s].
Proof.
  induction s as [|c rest IH]; simpl; [reflexivity|].
  destruct (Ascii.eqb c sep); [discriminate|]. intros H. now rewrite IH.
Qed.

Lemma split_on_field (sep : ascii) (a b : string) :
  count_char sep a = 0%nat ->
  split_on sep (a ++ String sep b) = a :: split_on sep b.
Proof.
  induction a as [|c rest IH]; simpl.
  - intros _. now rewrite Ascii.eqb_refl.
  - destruct (Ascii.eqb c sep); [discriminate|]. intros H. now rewrite IH.
Qed.

Lemma length_split_on (sep : ascii) (s : string) :
  List.length (split_on sep s) = S (count_char sep s).
Proof.
  induction s as [|c rest IH]; simpl; [reflexivity|].
  destruct (Ascii.eqb c sep); simpl; [now rewrite IH|].
  pose proof (split_on_nonempty sep rest) as N.
  destruct (split_on sep rest); [contradiction|exact IH].
Qed.

Lemma count_char_app (sep : ascii) (a b : string) :
  count_char sep (a ++ b) = (count_char sep a + count_char sep b)%nat.
Proof. induction a as [|c rest IH]; simpl; [reflexivity | rewrite IH; lia]. Qed.

Lemma csv_line_eq (r : ScanRow) :
  csv_line r
  = (scan_id r ++ String "," (uid r ++ String "," (campaign_id r ++ String ","
       (timestamp r ++ String "," (checksum r ++ String ","
          (if verified r then "1" else "0"))))))%string.
Proof. reflexivity. Qed.

End CsvLine.

(** X17. A line of the export is its six values put side by side with commas,
    nothing quoted or escaped.  For a row whose scan id, identifier,
    timestamp and checksum hold no comma (as the rows of POST /scan do),
    the line splits at its commas into six fields plus one for every comma
    of the campaign; when the campaign holds none, the fields are the
    row's values, in column order. *)
Theorem csv_line_splits_into_fields
  (r : Database.ScanRow)
  (Hfree : count_char "," (Database.scan_id r) = 0%nat /\
           count_char "," (Database.uid r) = 0%nat /\
           count_char "," (Database.timestamp r) = 0%nat /\
           count_char "," (Database.checksum r) = 0%nat) :
  List.length (split_on "," (CsvExport.csv_line r))
    = (6 + count_char "," (Database.campaign_id r))%nat /\
  (count_char "," (Database.campaign_id r) = 0%nat ->
   split_on "," (CsvExport.csv_line r) = csv_fields r).
Proof.
  destruct Hfree as (H1 & H2 & H3 & H4). split.
  - rewrite length_split_on, csv_line_eq.
    repeat (rewrite count_char_app; cbn [count_char]).
    rewrite H1, H2, H3, H4. cbn [Ascii.eqb Bool.eqb].
    destruct (Database.verified r); simpl; lia.
  - intros H5. rewrite csv_line_eq. unfold csv_fields.
    rewrite !split_on_field by assumption.
    rewrite split_on_free; [reflexivity|]. now destruct (Database.verified r).
Qed.

Lemma csv_line_splits_into_fields_witness :
  List.length (split_on "," (CsvExport.csv_line sample_row))
    = (6 + count_char "," (Database.campaign_id sample_row))%nat /\
  (count_char "," (Database.campaign_id sample_row) = 0%nat ->
   split_on "," (CsvExport.csv_line sample_row) = csv_fields sample_row).
Proof.
  apply (csv_line_splits_into_fields sample_row).
  vm_compute. repeat split; reflexivity.
Defined.

Section Guard.
Import Database Async Auth.
Local Open Scope list_scope.

Lemma validateApiKey_eq (table : list ApiKey) (k : string) (st : Store) :
  validateApiKey table k st
  = (if fault_at 0 st then Rejected SQLITE_IOERR
     else Resolved (find (fun r => String.eqb (api_key r) k && active r) table),
     snd (enter st)).
Proof.
  unfold validateApiKey. pose proof (enter_fault st) as F.
  destruct (enter st) as [fault st']. cbn [fst snd] in *. rewrite <- F.
  now destruct fault.
Qed.

Lemma replace_eq (pattern replacement s : string) :
  replace pattern replacement s
  = match strip_prefix pattern s with
    | Some rest => (replacement ++ rest)%string
    | None =>
        match s with
        | EmptyString => EmptyString
        | String c rest => String c (replace pattern replacement rest)
        end
    end.
Proof. destruct s; reflexivity. Qed.

Lemma strip_prefix_app (pattern k : string) : strip_prefix pattern (pattern ++ k) = Some k.
Proof.
  induction pattern as [|c p IH]; simpl; [now destruct k|].
  now rewrite Ascii.eqb_refl.
Qed.

Lemma replace_prefix (pattern k : string) :
  replace pattern EmptyString (pattern ++ k) = k.
Proof. now rewrite replace_eq, strip_prefix_app. Qed.

Lemma replace_bearer_free (k : string) :
  count_char "B" k = 0%nat -> replace "Bearer " EmptyString k = k.
Proof.
  induction k as [|c k IH]; [reflexivity|].
  cbn [count_char]. destruct (Ascii.eqb c "B") eqn:E; [discriminate|].
  intros H. rewrite replace_eq. cbn [strip_prefix].
  rewrite Ascii.eqb_sym, E. now rewrite IH.
Qed.

Lemma presented_key_carried (h : Headers) (k : string) :
  k <> EmptyString -> carries h k -> presented_key h = Some k.
Proof.
  intros Hk [Hx | [Hx [Ha | [Ha Hb]]]]; unfold presented_key.
  - rewrite Hx, (truthy_nonempty k Hk). reflexivity.
  - rewrite Hx, Ha. cbn [option_map]. rewrite replace_prefix. now apply truthy_nonempty.
  - rewrite Hx, Ha. cbn [option_map]. rewrite replace_bearer_free by exact Hb.
    now apply truthy_nonempty.
Qed.

Lemma presented_key_nonempty (h : Headers) (k : string) :
  presented_key h = Some k -> k <> EmptyString.
Proof.
  assert (T : forall o, truthy_text o = Some k -> k <> EmptyString).
  { intros [s|]; simpl; [|discriminate].
    destruct (String.eqb_spec s EmptyString); [discriminate|]. now intros [= <-]. }
  unfold presented_key. destruct (truthy_text (x_api_key h)) as [x|] eqn:E.
  - intros [= <-]. now apply T in E.
  - apply T.
Qed.

Lemma find_relabel (g : ApiKey -> string * string) (k : string) (table : list ApiKey) :
  find (fun r => String.eqb (api_key r) k && active r) (relabel g table)
  = option_map (fun r => mk_api_key (fst (g r)) (api_key r) (snd (g r)) (active r))
      (find (fun r => String.eqb (api_key r) k && active r) table).
Proof.
  induction table as [|r table IH]; simpl; [reflexivity|].
  destruct (String.eqb (api_key r) k && active r); [reflexivity | exact IH].
Qed.

Lemma route_eq (A : Type) (table : list ApiKey) (h : Headers) (handler : task A)
  (st : Store) :
  route table h handler st
  = match presented_key h with
    | None => (MISSING_API_KEY, st)
    | Some k =>
        if fault_at 0 st then (VALIDATION_ERROR, snd (enter st))
        else match find (fun r => String.eqb (api_key r) k && active r) table with
             | None => (INVALID_API_KEY, snd (enter st))
             | Some row =>
                 (Passed k row (fst (run handler (snd (enter st)))),
                  snd (run handler (snd (enter st))))
             end
    end.
Proof.
  unfold route. destruct (presented_key h) as [k|]; [|reflexivity].
  rewrite validateApiKey_eq. destruct (fault_at 0 st); [reflexivity|].
  destruct (find _ table); [|reflexivity].
  now destruct (run handler (snd (enter st))).
Qed.

End Guard.

(** X18. What a guarded route (GET /logs, /export/csv, /stats) answers, and
    when.  MISSING_API_KEY: no key was presented, and the store is not
    touched.  VALIDATION_ERROR: the key lookup failed.  INVALID_API_KEY: no
    active row of [api_keys] holds the presented key.  Otherwise the
    handler ran, after the lookup, for a non-empty presented key that an
    active row holds.  A refusal leaves the scans as they were. *)
Theorem route_passes_only_active_keys
  (A : Type) (table : list Auth.ApiKey) (h : Auth.Headers) (handler : Async.task A)
  (st : Database.Store) :
  match fst (Auth.route table h handler st) with
  | Auth.MISSING_API_KEY =>
      Auth.presented_key h = None /\ snd (Auth.route table h handler st) = st
  | Auth.VALIDATION_ERROR =>
      fault_at 0 st = true /\
      Database.scans (snd (Auth.route table h handler st)) = Database.scans st
  | Auth.INVALID_API_KEY =>
      (exists k, Auth.presented_key h = Some k /\
         forall row, In row table -> Auth.api_key row = k -> Auth.active row = false) /\
      Database.scans (snd (Auth.route table h handler st)) = Database.scans st
  | Auth.Passed k row a =>
      Auth.presented_key h = Some k /\ k <> EmptyString /\
      In row table /\ Auth.api_key row = k /\ Auth.active row = true /\
      fault_at 0 st = false /\
      a = fst (Async.run handler (snd (Database.enter st)))
  end.
Proof.
  rewrite route_eq. destruct (Auth.presented_key h) as [k|] eqn:Ek; [|now split].
  destruct (fault_at 0 st) eqn:F; cbn [fst snd]; [split; [reflexivity | apply enter_scans]|].
  destruct (find _ table) as [row|] eqn:Ef; cbn [fst snd].
  - apply find_some in Ef. destruct Ef as [Hin Hm].
    apply andb_true_iff in Hm. destruct Hm as [Hk Ha]. apply String.eqb_eq in Hk.
    repeat split; try assumption. now apply (presented_key_nonempty h).
  - split; [|apply enter_scans]. exists k. split; [reflexivity|].
    intros row Hin Hk. pose proof (find_none _ _ Ef row Hin) as Hn. cbn beta in Hn.
    apply andb_false_iff in Hn. destruct Hn as [Hn|Hn]; [|exact Hn].
    apply String.eqb_neq in Hn. contradiction.
Qed.

(** X19. A key that an active row of [api_keys] holds passes every guarded
    route when its lookup goes through, however it is carried: in
    [x-api-key]; or, with no [x-api-key], in [authorization] after
    ['Bearer '], or there bare (for a key without a capital B, so that no
    ['Bearer '] can be cut out of it).  The handler then runs on the store
    the lookup leaves. *)
Theorem active_key_passes_by_either_header
  (A : Type) (table : list Auth.ApiKey) (h : Auth.Headers) (handler : Async.task A)
  (st : Database.Store) (k : string) (row : Auth.ApiKey)
  (Hrow : In row table /\ Auth.api_key row = k /\ Auth.active row = true)
  (Hkey : k <> EmptyString)
  (Hcarried : carries h k)
  (Hlookup : fault_at 0 st = false) :
  exists row',
    fst (Auth.route table h handler st)
      = Auth.Passed k row' (fst (Async.run handler (snd (Database.enter st)))) /\
    In row' table /\ Auth.api_key row' = k /\ Auth.active row' = true.
Proof.
  destruct Hrow as (Hin & Hk & Ha).
  rewrite route_eq, (presented_key_carried h k Hkey Hcarried), Hlookup.
  destruct (find (fun r => String.eqb (Auth.api_key r) k && Auth.active r) table)
    as [row'|] eqn:Ef.
  - exists row'. split; [reflexivity|].
    apply find_some in Ef. destruct Ef as [Hin' Hm].
    apply andb_true_iff in Hm. destruct Hm as [Hk' Ha']. apply String.eqb_eq in Hk'.
    now repeat split.
  - pose proof (find_none _ _ Ef row Hin) as Hn. cbn beta in Hn.
    rewrite Ha, andb_true_r in Hn. apply String.eqb_neq in Hn. contradiction.
Qed.

Lemma active_key_passes_by_either_header_witness :
  exists row',
    fst (Auth.route (Auth.insertApiKeys [])
           (Auth.mk_headers None (Some "Bearer neocard_admin_demo_key_2024"))
           (Pipeline.statsHandler sample_instant sample_instant) sample_store)
      = Auth.Passed "neocard_admin_demo_key_2024" row'
          (fst (Async.run (Pipeline.statsHandler sample_instant sample_instant)
                  (snd (Database.enter sample_store)))) /\
    In row' (Auth.insertApiKeys []) /\
    Auth.api_key row' = "neocard_admin_demo_key_2024" /\ Auth.active row' = true.
Proof.
  apply (active_key_passes_by_either_header Pipeline.Response (Auth.insertApiKeys [])
           (Auth.mk_headers None (Some "Bearer neocard_admin_demo_key_2024"))
           (Pipeline.statsHandler sample_instant sample_instant) sample_store
           "neocard_admin_demo_key_2024"
           (Auth.mk_api_key "Admin Demo Key" "neocard_admin_demo_key_2024" "admin" true)).
  - split; [left; reflexivity | split; reflexivity].
  - discriminate.
  - right. split; [reflexivity | left; reflexivity].
  - reflexivity.
Defined.

(** X20. The [permissions] column is never consulted: rewriting the
    permissions (and names) of the keys changes neither whether a request
    passes a guarded route, nor what the handler answers, nor the refusal,
    nor the store left behind.  A key stored as ['sponsor'] is served the
    routes marked admin only. *)
Theorem route_ignores_permissions
  (A : Type) (g : Auth.ApiKey -> string * string) (table : list Auth.ApiKey)
  (h : Auth.Headers) (handler : Async.task A) (st : Database.Store) :
  handled (fst (Auth.route (relabel g table) h handler st))
    = handled (fst (Auth.route table h handler st)) /\
  refusal (fst (Auth.route (relabel g table) h handler st))
    = refusal (fst (Auth.route table h handler st)) /\
  snd (Auth.route (relabel g table) h handler st) = snd (Auth.route table h handler st).
Proof.
  rewrite !route_eq. destruct (Auth.presented_key h) as [k|]; [|now repeat split].
  destruct (fault_at 0 st); [now repeat split|].
  rewrite find_relabel.
  destruct (find _ table); now repeat split.
Qed.

(** The sponsor demo key reads the statistics. *)
Example sponsor_key_reads_statistics :
  exists row stats,
    fst (Auth.route (Auth.insertApiKeys [])
           (Auth.mk_headers (Some "neocard_sponsor_demo_key_2024") None)
           (Pipeline.statsHandler sample_instant sample_instant) sample_store)
    = Auth.Passed "neocard_sponsor_demo_key_2024" row (Pipeline.Statistics stats) /\
    Auth.permissions row = "sponsor".
Proof. eexists. eexists. vm_compute. split; reflexivity. Qed.

From Stdlib Require DecimalZ DecimalPos.

Section ScanIds.
Import Cooldown.

Lemma count_underscore_uint (d : Decimal.uint) :
  count_char "_" (DecimalString.NilEmpty.string_of_uint d) = 0%nat.
Proof. induction d; simpl; assumption || reflexivity. Qed.

Lemma underscore_not_decimal : not_decimal "_".
Proof.
  intros n. unfold decimal, DecimalString.NilZero.string_of_int,
    DecimalString.NilZero.string_of_uint.
  destruct (Z.to_int n) as [d|d]; destruct d; try reflexivity;
    try apply (count_underscore_uint (_ d)); cbn [count_char];
    try apply (count_underscore_uint (_ d)); reflexivity.
Qed.

Lemma decimal_injective (n m : Z) : decimal n = decimal m -> n = m.
Proof.
  unfold decimal. intros H.
  assert (N : forall z, Z.to_int z <> Decimal.Pos Decimal.Nil /\
                        Z.to_int z <> Decimal.Neg Decimal.Nil).
  { intros [|p|p]; simpl; split; try discriminate;
      intros [= E]; now apply (DecimalPos.Unsigned.to_uint_nonnil p). }
  pose proof (DecimalString.NilZero.isi (Z.to_int n) (proj1 (N n)) (proj2 (N n))) as Hn.
  pose proof (DecimalString.NilZero.isi (Z.to_int m) (proj1 (N m)) (proj2 (N m))) as Hm.
  rewrite H, Hm in Hn. injection Hn as Hn.
  rewrite <- (DecimalZ.of_to n), <- (DecimalZ.of_to m). now rewrite Hn.
Qed.

(** Two texts cut at their first separator. *)
Lemma first_separator (sep : ascii) (a a' b b' : string) :
  count_char sep a = 0%nat -> count_char sep a' = 0%nat ->
  (a ++ String sep b)%string = (a' ++ String sep b')%string -> a = a' /\ b = b'.
Proof.
  revert a'. induction a as [|c a IH]; intros [|c' a']; cbn [count_char String.append].
  - intros _ _ [= E]. now split.
  - destruct (Ascii.eqb_spec c' sep) as [->|N]; [discriminate|].
    intros _ _ [= E _]. now symmetry in E.
  - destruct (Ascii.eqb_spec c sep) as [->|N]; [discriminate|].
    intros _ _ [= E _]. contradiction.
  - destruct (Ascii.eqb c sep); [discriminate|].
    destruct (Ascii.eqb c' sep); [discriminate|].
    intros H H' [= -> E]. destruct (IH a' H H' E) as [-> ->]. now split.
Qed.

End ScanIds.

(** X21. [generateScanId] loses nothing: two scan ids are the same text only
    when they were made from the same clock reading and the same random
    hex.  So, the scan id being UNIQUE in the table, an append is refused
    as a duplicate only for a request that drew the millisecond and the
    four random bytes of an earlier one. *)
Theorem generateScanId_injective
  (now now' : Z) (random_hex random_hex' : string)
  (Hsame : Cooldown.generateScanId now random_hex
           = Cooldown.generateScanId now' random_hex') :
  now = now' /\ random_hex = random_hex'.
Proof.
  unfold Cooldown.generateScanId in Hsame. cbn [String.append] in Hsame.
  injection Hsame as Hsame.
  apply (first_separator "_") in Hsame; try apply underscore_not_decimal.
  destruct Hsame as [Hn Hr]. split; [now apply decimal_injective | exact Hr].
Qed.

Lemma generateScanId_injective_witness :
  sample_instant = sample_instant /\ "deadbeef" = "deadbeef".
Proof.
  apply (generateScanId_injective sample_instant sample_instant "deadbeef" "deadbeef").
  reflexivity.
Defined.

Section DayCount.
Import JsDate Database Async Pipeline.
Local Open Scope Z_scope.

Lemma compare_prefix (a : string) : forall b r : string,
  String.length a = String.length b ->
  String.compare a (b ++ r)
  = match String.compare a b with
    | Eq => String.compare EmptyString r
    | c => c
    end.
Proof.
  induction a as [|x a IH]; intros [|y b] r; simpl; try discriminate; [reflexivity|].
  intros [= L]. destruct (Ascii.compare x y); [now apply IH | reflexivity | reflexivity].
Qed.

Lemma length_date_text (t : Z) : String.length (date_text t) = 10%nat.
Proof.
  unfold date_text. rewrite !string_length_app, !length_pad. reflexivity.
Qed.

Lemma leb_date_text_toISOString (s t : Z) :
  four_digit_year s -> four_digit_year t ->
  String.leb (date_text s) (toISOString t) = (Day s <=? Day t).
Proof.
  intros Hs Ht. rewrite (toISOString_date_time t Ht). unfold String.leb, Z.leb.
  rewrite compare_prefix by now rewrite !length_date_text.
  rewrite compare_date_text by assumption.
  now destruct (Day s ?= Day t).
Qed.

Lemma date_text_head (t : Z) :
  four_digit_year t ->
  exists d1 d2 d3 d4 rest,
    (0 <= d1 < 10 /\ 0 <= d2 < 10 /\ 0 <= d3 < 10 /\ 0 <= d4 < 10) /\
    date_text t = String (digit_char d1) (String (digit_char d2)
                    (String (digit_char d3) (String (digit_char d4) (String "-" rest)))).
Proof.
  intros H. pose proof (four_digit_year_range t H) as Hy.
  change (YearFromTime t) with (tm_year (fields_of_time t)) in Hy.
  unfold date_text. set (y := tm_year (fields_of_time t)) in *. clearbody y.
  cbn [pad pad_digits String.append].
  eexists _, _, _, _, _. split; [|reflexivity].
  repeat split; Z.div_mod_to_equations; lia.
Qed.

Lemma text_filter_date_text (t : Z) (p : string -> bool) :
  four_digit_year t ->
  text_filter (Some (date_text t))
    (fun s => if is_numeric_literal s then true else p s) = p (date_text t).
Proof.
  intros H. destruct (date_text_head t H) as (d1 & d2 & d3 & d4 & rest & (B1 & B2 & B3 & B4) & E).
  unfold text_filter. rewrite E at 1. cbn [truthy_text String.eqb]. rewrite <- E.
  rewrite E at 1. now rewrite four_digits_dash_not_numeric.
Qed.

Lemma before_day_end (e t : Z) :
  (t <=? Day e * msPerDay + 86399999) = (Day t <=? Day e).
Proof.
  unfold Day, msPerDay.
  destruct (Z.leb_spec (t / 86400000) (e / 86400000)).
  - apply Z.leb_le. Z.div_mod_to_equations. lia.
  - apply Z.leb_gt. Z.div_mod_to_equations. lia.
Qed.

Lemma sql_matches_between_days (s e : Z) (r : ScanRow) :
  four_digit_year s -> four_digit_year e -> stamped r ->
  sql_matches (mk_filters None None
                 (Some (before_T (toISOString s)))
                 (Some (before_T (toISOString e) ++ "T23:59:59.999Z")%string)
                 None None) r
  = (Day s <=? Day (instant r)) && (Day (instant r) <=? Day e).
Proof.
  intros Hs He [t [Ht Hts]]. destruct (day_start_bounds e He) as [_ Hend].
  rewrite !before_T_toISOString by assumption.
  unfold sql_matches. cbn [f_uid f_campaign_id f_start_date f_end_date].
  rewrite text_filter_date_text by exact Hs.
  rewrite <- (toISOString_day_end e He).
  rewrite text_filter_toISOString, toISOString_not_numeric by assumption.
  rewrite (instant_stamped r t Ht Hts), Hts.
  rewrite leb_date_text_toISOString, leb_toISOString by assumption.
  now rewrite before_day_end.
Qed.

End DayCount.

(** X22. The [daily_scans] of a registered answer (ledger of stamped rows,
    clocks within the four-digit years) is the number of rows, of every
    identifier and campaign and with the new row among them, whose UTC day
    lies between the day of the handler's [start_date] reading and the day
    of its [end_date] reading; when both readings fall on one day, it is
    the number of rows of that day. *)
Theorem registered_daily_scans_counts_the_day
  (antifraud : Config.antifraud) (secret : string) (rd : Pipeline.Readings)
  (body : Pipeline.Body) (st : Database.Store) (record : Database.ScanData) (n m : Z)
  (Hledger : all_stamped st)
  (Hclock : handler_clock_in_range rd)
  (Hanswer : fst (Async.run (Pipeline.postScan antifraud secret rd body) st)
             = Pipeline.Answered (Pipeline.Registered record n m)) :
  let after := Database.scans (snd (Async.run (Pipeline.postScan antifraud secret rd body) st)) in
  m = Z.of_nat (List.length
        (rows_between_days (Pipeline.at_range_start rd) (Pipeline.at_range_end rd) after)) /\
  (JsDate.Day (Pipeline.at_range_end rd) = JsDate.Day (Pipeline.at_range_start rd) ->
   m = Z.of_nat (List.length (rows_of_day (Pipeline.at_range_start rd) after))).
Proof.
  intros after. destruct Hclock as (Hadm & Hstart & Hend).
  assert (Hm : m = Z.of_nat (List.length
             (rows_between_days (Pipeline.at_range_start rd) (Pipeline.at_range_end rd) after))).
  { subst after. revert Hanswer. rewrite run_postScan_cases.
    destruct (validateScanRequest_cases body) as [(-> & Hu & Hc) | [-> | [-> | ->]]];
      try discriminate.
    cbv zeta.
    destruct (antiFraudCheck_store antifraud rd
                (Pipeline.text_of (Pipeline.body_uid body)) st) as [Hs Hl].
    pose proof (antiFraudCheck_answers antifraud rd
                  (Pipeline.text_of (Pipeline.body_uid body)) st) as Ha.
    destruct (Async.run (Pipeline.antiFraudCheck _ _ _) st) as [[r| |e] st1];
      cbn [fst snd] in *; try discriminate.
    - intros E. injection E as ->. destruct Ha.
    - pose proof (run_scanHandler_cases secret rd
                    (Pipeline.text_of (Pipeline.body_uid body))
                    (Pipeline.text_of (Pipeline.body_campaign_id body)) st1) as Hh.
      cbv zeta in Hh. rewrite Hs, Hl in Hh.
      destruct (Database.insertScan _ st1) as [[res|e] st2].
      + destruct Hh as [Hrows [Hresp | [e Hresp]]]; rewrite Hresp; intros E; [|discriminate].
        injection E as _ _ <-. rewrite Hrows. unfold rows_between_days. do 2 f_equal.
        apply filter_ext_in_rows. intros r Hr.
        apply sql_matches_between_days; try assumption.
        apply in_app_or in Hr. destruct Hr as [Hr | [<- | []]].
        * unfold all_stamped in Hledger. rewrite Forall_forall in Hledger. now apply Hledger.
        * exists (Pipeline.at_admission rd). split; [exact Hadm | reflexivity].
      + destruct Hh as [-> _]. discriminate. }
  split; [exact Hm|]. intros Hsame. rewrite Hm. unfold rows_between_days, rows_of_day.
  do 2 f_equal. apply filter_ext_in_rows. intros r _. unfold same_day. rewrite Hsame.
  destruct (Z.eqb_spec (JsDate.Day (instant r)) (JsDate.Day (Pipeline.at_range_start rd)))
    as [->|N].
  - now rewrite Z.leb_refl.
  - apply andb_false_iff. rewrite !Z.leb_gt. lia.
Qed.

Lemma registered_daily_scans_counts_the_day_witness :
  let rd := readings_at (sample_instant + 600000) "cafebabe" in
  let body := Pipeline.mk_body (Some "TEST87654321") (Some "DEMO01") in
  let after :=
    Database.scans (snd (Async.run
      (Pipeline.postScan Config.default Config.aeiSecretKey rd body) sample_store)) in
  2%Z = Z.of_nat (List.length
        (rows_between_days (Pipeline.at_range_start rd) (Pipeline.at_range_end rd) after)) /\
  (JsDate.Day (Pipeline.at_range_end rd) = JsDate.Day (Pipeline.at_range_start rd) ->
   2%Z = Z.of_nat (List.length (rows_of_day (Pipeline.at_range_start rd) after))).
Proof.
  intros rd body.
  apply (registered_daily_scans_counts_the_day Config.default Config.aeiSecretKey rd body
           sample_store (request_record Config.aeiSecretKey rd body) 2 2).
  - constructor; [|constructor]. exists sample_instant.
    split; [unfold JsDate.four_digit_year, JsDate.first_instant, JsDate.end_instant,
              sample_instant; lia | vm_compute; reflexivity].
  - unfold handler_clock_in_range, JsDate.four_digit_year, JsDate.first_instant,
      JsDate.end_instant, rd, readings_at, sample_instant. simpl. lia.
  - vm_compute. reflexivity.
Defined.

Section Seeding.
Import Database Auth.
Local Open Scope list_scope.

Context {A : Type} (key_of : A -> string).

Lemma holds_key_app (t1 t2 : list A) (key : string) :
  holds_key key_of (t1 ++ t2) key = holds_key key_of t1 key || holds_key key_of t2 key.
Proof. unfold holds_key. apply existsb_app. Qed.

Lemma holds_key_in (table : list A) (key : string) :
  holds_key key_of table key = true <-> In key (map key_of table).
Proof.
  unfold holds_key. rewrite existsb_exists, in_map_iff.
  split; intros [r [H1 H2]]; exists r.
  - apply String.eqb_eq in H2. tauto.
  - split; [tauto|]. apply String.eqb_eq. tauto.
Qed.

Lemma insert_or_ignore_spec (row : A) (table : list A) :
  exists added,
    insert_or_ignore key_of row table = table ++ added /\
    (List.length added <= 1)%nat /\
    holds_key key_of (table ++ added) (key_of row) = true /\
    Forall (fun r => holds_key key_of table (key_of r) = false) added /\
    (holds_key key_of table (key_of row) = true -> added = []) /\
    (unique_by key_of table -> unique_by key_of (table ++ added)).
Proof.
  unfold insert_or_ignore. fold (holds_key key_of table (key_of row)).
  destruct (holds_key key_of table (key_of row)) eqn:E.
  - exists []. rewrite app_nil_r. repeat split; auto.
  - exists [row].
    repeat split; [simpl; lia | | now repeat constructor | discriminate |].
    + rewrite holds_key_app. unfold holds_key at 2. simpl.
      rewrite String.eqb_refl. apply orb_true_r.
    + unfold unique_by. rewrite map_app. simpl. intros Hu.
      apply NoDup_app; [exact Hu | constructor; [intros [] | constructor] |].
      intros k Hk [<- | []]. apply holds_key_in in Hk. congruence.
Qed.

Lemma insert_or_ignore_held (row : A) (table : list A) :
  holds_key key_of table (key_of row) = true -> insert_or_ignore key_of row table = table.
Proof. unfold insert_or_ignore, holds_key. now intros ->. Qed.

(** Two rows put in one after the other. *)
Lemma insert_two_spec (r1 r2 : A) (table : list A) :
  let after := insert_or_ignore key_of r2 (insert_or_ignore key_of r1 table) in
  grown_by_missing key_of table after /\
  holds_key key_of after (key_of r1) = true /\
  holds_key key_of after (key_of r2) = true /\
  (unique_by key_of table -> unique_by key_of after) /\
  insert_or_ignore key_of r2 (insert_or_ignore key_of r1 after) = after.
Proof.
  intros after. subst after.
  destruct (insert_or_ignore_spec r1 table) as (a1 & E1 & L1 & H1 & F1 & _ & U1).
  rewrite E1.
  destruct (insert_or_ignore_spec r2 (table ++ a1)) as (a2 & E2 & L2 & H2 & F2 & _ & U2).
  rewrite E2.
  assert (K1 : holds_key key_of ((table ++ a1) ++ a2) (key_of r1) = true)
    by (rewrite holds_key_app, H1; reflexivity).
  split; [|split; [exact K1 | split; [exact H2 | split]]].
  - exists (a1 ++ a2). rewrite app_assoc. split; [reflexivity|].
    split; [rewrite length_app; lia|]. apply Forall_app. split; [exact F1|].
    revert F2. apply Forall_impl. intros r Hr. rewrite holds_key_app in Hr.
    now apply orb_false_iff in Hr.
  - intros Hu. apply U2, U1, Hu.
  - rewrite (insert_or_ignore_held r1) by exact K1. now apply insert_or_ignore_held.
Qed.

End Seeding.

Section SeedingRun.
Import Database Auth.
Local Open Scope list_scope.

Lemma grown_by_missing_refl (A : Type) (key_of : A -> string) (table : list A) :
  grown_by_missing key_of table table.
Proof. exists []. rewrite app_nil_r. repeat split; [simpl; lia | constructor]. Qed.

(** What a run without a failure leaves. *)
Lemma seeding_run (t : Tables) :
  let after := mk_tables (insertApiKeys (api_keys t)) (insertCampaigns (campaigns t)) in
  grown_by_missing api_key (api_keys t) (api_keys after) /\
  grown_by_missing c_campaign_id (campaigns t) (campaigns after) /\
  seeded after /\
  (unique_by api_key (api_keys t) -> unique_by api_key (api_keys after)) /\
  (unique_by c_campaign_id (campaigns t) -> unique_by c_campaign_id (campaigns after)) /\
  insertApiKeys (api_keys after) = api_keys after /\
  insertCampaigns (campaigns after) = campaigns after.
Proof.
  intros after. subst after. cbn [api_keys campaigns]. unfold seeded, insertApiKeys, insertCampaigns.
  cbn [api_keys campaigns].
  destruct (insert_two_spec api_key
              (mk_api_key "Admin Demo Key" "neocard_admin_demo_key_2024" "admin" true)
              (mk_api_key "Sponsor Demo Key" "neocard_sponsor_demo_key_2024" "sponsor" true)
              (api_keys t)) as (G1 & Ka & Ks & U1 & I1).
  destruct (insert_two_spec c_campaign_id
              (mk_campaign "DEMO01" "Demo Campaign 1" "Sample campaign for testing" true)
              (mk_campaign "DEMO02" "Demo Campaign 2" "Another sample campaign" true)
              (campaigns t)) as (G2 & C1 & C2 & U2 & I2).
  repeat split; assumption.
Qed.

End SeedingRun.

(** X23. [seedInitialData], run at every start, on the [api_keys] and
    [campaigns] tables.  Whether the run resolves or rejects: the rows
    already there stay as they are and in place (so a demo key that was
    switched off stays off), at most two rows are put behind them in each
    table, each with a key that was missing, and keys that were unique
    stay unique.  When it resolves, no statement failed, both demo keys
    and both sample campaigns are in the tables, and another run, failing
    or not, changes nothing.  When it rejects, it is with the storage
    failure of the first or the second statement: in the first case
    nothing was written; in the second the keys are seeded and the
    campaigns table is as it was. *)
Theorem seedInitialData_adds_missing_keys_only
  (failing : option nat) (t : Auth.Tables) :
  let res := Auth.seedInitialData failing t in
  grown_by_missing Auth.api_key (Auth.api_keys t) (Auth.api_keys (snd res)) /\
  grown_by_missing Auth.c_campaign_id (Auth.campaigns t) (Auth.campaigns (snd res)) /\
  (unique_by Auth.api_key (Auth.api_keys t) ->
   unique_by Auth.api_key (Auth.api_keys (snd res))) /\
  (unique_by Auth.c_campaign_id (Auth.campaigns t) ->
   unique_by Auth.c_campaign_id (Auth.campaigns (snd res))) /\
  match fst res with
  | Database.Resolved _ =>
      (failing = None \/ exists n, failing = Some n /\ (2 <= n)%nat) /\
      seeded (snd res) /\
      forall again, snd (Auth.seedInitialData again (snd res)) = snd res
  | Database.Rejected e =>
      e = Database.SQLITE_IOERR /\
      ((failing = Some 0%nat /\ snd res = t) \/
       (failing = Some 1%nat /\
        Auth.campaigns (snd res) = Auth.campaigns t /\
        holds_key Auth.api_key (Auth.api_keys (snd res)) "neocard_admin_demo_key_2024" = true /\
        holds_key Auth.api_key (Auth.api_keys (snd res)) "neocard_sponsor_demo_key_2024" = true))
  end.
Proof.
  intros res. subst res.
  destruct (seeding_run t) as (G1 & G2 & (Ka & Ks & C1 & C2) & U1 & U2 & I1 & I2).
  cbn [Auth.api_keys Auth.campaigns] in *.
  assert (Hagain : forall again,
            snd (Auth.seedInitialData again
                   (Auth.mk_tables (Auth.insertApiKeys (Auth.api_keys t))
                      (Auth.insertCampaigns (Auth.campaigns t))))
            = Auth.mk_tables (Auth.insertApiKeys (Auth.api_keys t))
                (Auth.insertCampaigns (Auth.campaigns t))).
  { intros [[|[|n]]|]; unfold Auth.seedInitialData; cbn [Auth.exec snd Auth.api_keys Auth.campaigns];
      rewrite ?I1, ?I2; reflexivity. }
  destruct failing as [[|[|n]]|]; unfold Auth.seedInitialData;
    cbn [Auth.exec fst snd Auth.api_keys Auth.campaigns].
  - split; [apply grown_by_missing_refl|]. split; [apply grown_by_missing_refl|].
    split; [tauto|]. split; [tauto|]. split; [reflexivity|]. left. split; [reflexivity|].
    now destruct t.
  - split; [exact G1|]. split; [apply grown_by_missing_refl|].
    split; [exact U1|]. split; [tauto|]. split; [reflexivity|]. right. tauto.
  - split; [exact G1|]. split; [exact G2|]. split; [exact U1|]. split; [exact U2|].
    split; [right; exists (S (S n)); split; [reflexivity | lia]|].
    split; [unfold seeded; cbn [Auth.api_keys Auth.campaigns]; tauto | exact Hagain].
  - split; [exact G1|]. split; [exact G2|]. split; [exact U1|]. split; [exact U2|].
    split; [now left|].
    split; [unfold seeded; cbn [Auth.api_keys Auth.campaigns]; tauto | exact Hagain].
Qed.

Section AnyFlight.
Import Database Async Pipeline.
Local Open Scope list_scope.

(** *** Turns and schedules *)

Lemma turns_of_cons_same (w : who) (s : list who) : turns_of w (w :: s) = S (turns_of w s).
Proof. unfold turns_of. simpl. now destruct w. Qed.

Lemma turns_of_cons_other (w : who) (s : list who) :
  turns_of w (other w :: s) = turns_of w s.
Proof. unfold turns_of. simpl. now destruct w. Qed.

Lemma turns_of_app (w : who) (s1 s2 : list who) :
  turns_of w (s1 ++ s2) = (turns_of w s1 + turns_of w s2)%nat.
Proof. unfold turns_of. now rewrite filter_app, length_app. Qed.

Lemma turns_of_repeat_same (w : who) (n : nat) : turns_of w (repeat w n) = n.
Proof. induction n as [|n IH]; [reflexivity|]. simpl repeat. now rewrite turns_of_cons_same, IH. Qed.

Lemma turns_of_repeat_other (w : who) (n : nat) : turns_of w (repeat (other w) n) = 0%nat.
Proof. induction n as [|n IH]; [reflexivity|]. simpl repeat. now rewrite turns_of_cons_other. Qed.

Lemma turns_of_sum (s : list who) :
  (turns_of First s + turns_of Second s = List.length s)%nat.
Proof.
  induction s as [|w s IH]; [reflexivity|]. destruct w.
  - rewrite turns_of_cons_same, (turns_of_cons_other Second). simpl. lia.
  - rewrite turns_of_cons_same, (turns_of_cons_other First). simpl. lia.
Qed.

Lemma turns_of_in (w : who) (s : list who) : In w s -> (1 <= turns_of w s)%nat.
Proof.
  induction s as [|v s IH]; [intros []|]. intros [->|H].
  - rewrite turns_of_cons_same. lia.
  - specialize (IH H). unfold turns_of in *. simpl. destruct (is_turn_of w v); simpl; lia.
Qed.

Lemma turns_of_map_other (w : who) (s : list who) :
  turns_of w (map other s) = turns_of (other w) s.
Proof.
  unfold turns_of. induction s as [|v s IH]; [reflexivity|]. simpl.
  destruct w, v; simpl; now rewrite IH.
Qed.

Lemma interleave_cons (A : Type) (w : who) (s : list who) (f : flight A) :
  interleave (w :: s) f = interleave s (advance w f).
Proof. reflexivity. Qed.

Lemma interleave_swap (A : Type) (s : list who) : forall f : flight A,
  interleave (map other s) (swap f) = swap (interleave s f).
Proof.
  induction s as [|w s IH]; intros f; [reflexivity|].
  simpl map. rewrite !interleave_cons, <- IH. f_equal.
  destruct w; unfold advance, swap; cbn [other first second shared];
    now destruct (turn _ (shared f)).
Qed.

Lemma interleave_repeat_first (A : Type) (n : nat) : forall (t1 t2 : task A) (st : Store),
  interleave (repeat First n) (mk_flight t1 t2 st)
  = mk_flight (fst (turns n t1 st)) t2 (snd (turns n t1 st)).
Proof.
  induction n as [|n IH]; intros t1 t2 st; [reflexivity|].
  simpl repeat. rewrite interleave_cons. unfold advance. cbn [first second shared turns].
  destruct (turn t1 st) as [t' st']. apply IH.
Qed.

(** *** What turns keep *)

Lemma turn_run (A : Type) (t : task A) (st : Store) :
  run (fst (turn t st)) (snd (turn t st)) = run t st.
Proof. destruct t as [a|R c k]; simpl; [reflexivity|]. now destruct (perform c st). Qed.

Lemma turns_run (A : Type) (n : nat) : forall (t : task A) (st : Store),
  run (fst (turns n t st)) (snd (turns n t st)) = run t st.
Proof.
  induction n as [|n IH]; intros t st; [reflexivity|]. simpl.
  rewrite <- (turn_run A t st). destruct (turn t st) as [t' st']. apply IH.
Qed.

Lemma perform_read_quiet (R : Type) (c : call R) (st : Store) :
  reads_only c -> faults st = [] -> snd (perform c st) = st.
Proof.
  intros Hc Hf. pose proof (enter_no_faults st Hf) as E.
  destruct c; simpl in Hc; try contradiction; simpl.
  - now rewrite getScans_store, E.
  - rewrite getLastScanTime_eq, E. reflexivity.
  - rewrite getDailyScanCount_eq, E. reflexivity.
  - unfold getStats. rewrite !count_or_zero_eq, last_or_null_eq. cbn [snd].
    repeat (rewrite E; cbn [snd]). reflexivity.
Qed.

Lemma perform_no_faults (R : Type) (c : call R) (st : Store) :
  faults st = [] -> faults (snd (perform c st)) = [].
Proof.
  intros Hf. destruct c; try (rewrite perform_read_quiet; [exact Hf | exact I | exact Hf]).
  simpl. unfold insertScan. rewrite (enter_no_faults st Hf).
  destruct (existsb _ _); exact Hf.
Qed.

Lemma turn_no_faults (A : Type) (t : task A) (st : Store) :
  faults st = [] -> faults (snd (turn t st)) = [].
Proof.
  intros Hf. destruct t as [a|R c k]; simpl; [exact Hf|].
  pose proof (perform_no_faults R c st Hf). now destruct (perform c st).
Qed.

Lemma turns_no_faults (A : Type) (n : nat) : forall (t : task A) (st : Store),
  faults st = [] -> faults (snd (turns n t st)) = [].
Proof.
  induction n as [|n IH]; intros t st Hf; [exact Hf|]. simpl.
  pose proof (turn_no_faults A t st Hf). destruct (turn t st) as [t' st']. now apply IH.
Qed.

Lemma within_done_any (A : Type) (n : nat) (a : A) : within n (Done a).
Proof. constructor. Qed.

Lemma within_inv (A : Type) (n : nat) (t : task A) :
  within n t ->
  match t with
  | Done _ => True
  | Await c k => match n with O => False | S m => forall got, within m (k got) end
  end.
Proof. intros [m a | m R c k Hk]; [exact I | exact Hk]. Qed.

Lemma turn_within (A : Type) (n : nat) (t : task A) (st : Store) :
  within (S n) t -> within n (fst (turn t st)).
Proof.
  intros H. apply within_inv in H. destruct t as [a|R c k]; simpl; [constructor|].
  destruct (perform c st) as [got st']. apply H.
Qed.

Lemma turns_within (A : Type) (n m : nat) : forall (t : task A) (st : Store),
  within (n + m) t -> within m (fst (turns n t st)).
Proof.
  induction n as [|n IH]; intros t st H; [exact H|]. simpl.
  pose proof (turn_within A (n + m) t st H) as H'.
  destruct (turn t st) as [t' st']. now apply IH.
Qed.

(** *** Tasks that only read from some call on *)

Lemma reads_only_turn (A : Type) (t : task A) (st : Store) :
  makes_calls (fun R c => reads_only c) t ->
  makes_calls (fun R c => reads_only c) (fst (turn t st)).
Proof.
  intros [a | R c k Hc Hk]; simpl; [constructor|].
  destruct (perform c st) as [got st']. apply Hk.
Qed.

Lemma reads_after_turn (A : Type) (n : nat) (t : task A) (st : Store) :
  reads_after (S n) t -> reads_after n (fst (turn t st)).
Proof.
  destruct t as [a|R c k]; simpl; intros H.
  - destruct n; [constructor | exact I].
  - destruct (perform c st) as [got st']. apply H.
Qed.

Lemma turns_reads_after (A : Type) (n : nat) : forall (t : task A) (st : Store),
  reads_after n t -> makes_calls (fun R c => reads_only c) (fst (turns n t st)).
Proof.
  induction n as [|n IH]; intros t st H; [exact H|]. simpl.
  pose proof (reads_after_turn A n t st H) as H'.
  destruct (turn t st) as [t' st']. now apply IH.
Qed.

(** A task that only reads, on a store without faults, runs without
    changing the store. *)
Lemma reads_stable (A : Type) (t : task A) :
  makes_calls (fun R c => reads_only c) t ->
  forall (n : nat) (st : Store), within n t -> faults st = [] ->
  stable n st t (fst (run t st)) /\ snd (run t st) = st.
Proof.
  induction 1 as [a | R c k Hc _ IH]; intros n st Hn Hf.
  - destruct n; simpl; split; reflexivity.
  - apply within_inv in Hn. destruct n as [|n]; [contradiction|].
    pose proof (perform_read_quiet R c st Hc Hf) as Hq.
    cbn [stable run]. destruct (perform c st) as [got st'] eqn:E.
    cbn [fst snd] in *. subst st'.
    destruct (IH got n st (Hn got) Hf) as [Hs Hr]. now repeat split.
Qed.

(** Two tasks that run without changing the store do not notice each
    other, whatever the schedule. *)
Lemma interleave_stable (A : Type) (s : list who) :
  forall (t1 t2 : task A) (n1 n2 : nat) (a1 a2 : A) (st : Store),
  stable n1 st t1 a1 -> stable n2 st t2 a2 ->
  (n1 <= turns_of First s)%nat -> (n2 <= turns_of Second s)%nat ->
  interleave s (mk_flight t1 t2 st) = mk_flight (Done a1) (Done a2) st.
Proof.
  induction s as [|w s IH]; intros t1 t2 n1 n2 a1 a2 st H1 H2 L1 L2.
  - assert (n1 = 0%nat) by (unfold turns_of in L1; simpl in L1; lia).
    assert (n2 = 0%nat) by (unfold turns_of in L2; simpl in L2; lia). subst.
    destruct t1 as [b1|]; [|contradiction]. destruct t2 as [b2|]; [|contradiction].
    simpl in H1, H2. now subst.
  - rewrite interleave_cons. destruct w; unfold advance; cbn [first second shared].
    + rewrite turns_of_cons_same in L1. rewrite (turns_of_cons_other Second) in L2.
      destruct t1 as [b1|R c k].
      * cbn [turn]. apply (IH _ _ 0%nat n2); try assumption; [|lia].
        destruct n1; exact H1.
      * destruct n1 as [|n1]; [contradiction|]. cbn [stable] in H1. destruct H1 as [Hq Hs].
        cbn [turn]. destruct (perform c st) as [got st']. cbn [fst snd] in *. subst st'.
        apply (IH _ _ n1 n2); try assumption. lia.
    + rewrite turns_of_cons_same in L2. rewrite (turns_of_cons_other First) in L1.
      destruct t2 as [b2|R c k].
      * cbn [turn]. apply (IH _ _ n1 0%nat); try assumption; [|lia].
        destruct n2; exact H2.
      * destruct n2 as [|n2]; [contradiction|]. cbn [stable] in H2. destruct H2 as [Hq Hs].
        cbn [turn]. destruct (perform c st) as [got st']. cbn [fst snd] in *. subst st'.
        apply (IH _ _ n1 n2); try assumption. lia.
Qed.

(** *** The shape of a POST /scan request *)

Lemma scanHandler_reads_after (secret : string) (rd : Readings) (u campaign : string) :
  reads_after 1 (bind (scanHandler secret rd u campaign) (fun r => Done (Answered r))).
Proof.
  unfold scanHandler. cbn [bind reads_after]. intros [res|e]; [|constructor].
  constructor; [exact I|]. intros [rows|e]; [|constructor].
  constructor; [exact I|]. intros [rows'|e]; constructor.
Qed.

Lemma postScan_reads_after (antifraud : Config.antifraud) (secret : string) (rd : Readings)
  (body : Body) : reads_after 3 (postScan antifraud secret rd body).
Proof.
  unfold postScan. destruct (validateScanRequest body) as [r| |e]; try exact I.
  unfold antiFraudCheck. cbn [bind reads_after]. intros [last|e]; [|exact I].
  destruct (_ && _); [exact I|]. cbn [bind]. intros [n|e]; [|exact I].
  destruct (_ <=? _)%Z; [exact I|]. cbn [bind]. apply scanHandler_reads_after.
Qed.

Lemma postScan_reads_first (antifraud : Config.antifraud) (secret : string) (rd : Readings)
  (body : Body) : reads_first 2 (postScan antifraud secret rd body).
Proof.
  unfold postScan. destruct (validateScanRequest body) as [r| |e]; try exact I.
  unfold antiFraudCheck. cbn [bind reads_first]. split; [exact I|].
  intros [last|e]; [|exact I].
  destruct (_ && _); [exact I|]. cbn [bind]. split; [exact I|]. intros got. exact I.
Qed.

Lemma scanHandler_never_cooldown (secret : string) (rd : Readings) (u campaign : string) :
  never_cooldown (bind (scanHandler secret rd u campaign) (fun r => Done (Answered r))).
Proof.
  assert (N : forall r, (forall m l, r <> COOLDOWN_ACTIVE m l) ->
                        never_cooldown (Done (Answered r))).
  { intros r Hr. constructor. intros (m & l & E). injection E as E. now apply (Hr m l). }
  unfold scanHandler. cbn [bind]. constructor. intros [res|e]; [|apply N; discriminate].
  constructor. intros [rows|e]; [|apply N; discriminate].
  constructor. intros [rows'|e]; apply N; discriminate.
Qed.

Lemma validateScanRequest_passes (u campaign : string) :
  Utils.isValidUID u = true -> campaign <> EmptyString ->
  validateScanRequest (mk_body (Some u) (Some campaign)) = Next.
Proof.
  intros Hv Hc. unfold validateScanRequest. cbn [body_uid body_campaign_id].
  now rewrite (valid_uid_truthy u Hv), (truthy_nonempty campaign Hc), Hv.
Qed.

(** The cooldown read of a request for an identifier the ledger has not
    seen: the store is left as it was, and the cooldown can no longer
    reject the request. *)
Lemma postScan_first_turn_fresh (antifraud : Config.antifraud) (secret : string)
  (rd : Readings) (u campaign : string) (st : Store) :
  Utils.isValidUID u = true -> campaign <> EmptyString ->
  (forall r, In r (scans st) -> uid r <> u) -> faults st = [] ->
  never_cooldown (fst (turn (postScan antifraud secret rd (mk_body (Some u) (Some campaign))) st)).
Proof.
  intros Hv Hc Hfresh Hf. unfold postScan.
  rewrite (validateScanRequest_passes u campaign Hv Hc). cbn [text_of body_uid body_campaign_id].
  unfold antiFraudCheck. cbn [bind turn perform].
  rewrite getLastScanTime_eq, (enter_no_faults st Hf). cbn [fst snd].
  rewrite (filter_none _ _ (scans st))
    by (intros r Hr; apply String.eqb_neq; now apply Hfresh).
  cbn [newest_timestamp order_by_timestamp_desc fold_right truthy_text andb bind].
  constructor. intros [n|e].
  - destruct (_ <=? _)%Z; cbn [bind].
    + constructor. intros (m & l & E). discriminate E.
    + apply scanHandler_never_cooldown.
  - cbn [bind]. constructor. intros (m & l & E). discriminate E.
Qed.

(** The cooldown read of a request whose identifier was admitted at [t],
    less than the window before: the request is answered at once. *)
Lemma postScan_cooldown_stable (antifraud : Config.antifraud) (secret : string) (rd : Readings)
  (u campaign : string) (st : Store) (old : list ScanRow) (r : ScanRow) (t : Z) :
  (0 < Config.cooldownMinutes antifraud)%Z ->
  Utils.isValidUID u = true -> campaign <> EmptyString ->
  scans st = old ++ [r] -> (forall x, In x old -> uid x <> u) ->
  uid r = u -> timestamp r = JsDate.toISOString t -> JsDate.four_digit_year t ->
  faults st = [] ->
  (at_cooldown rd - t < Config.cooldownMinutes antifraud * JsDate.msPerMinute)%Z ->
  stable 1 st (postScan antifraud secret rd (mk_body (Some u) (Some campaign)))
    (Answered (COOLDOWN_ACTIVE (Config.cooldownMinutes antifraud)
                 (Some (JsDate.toISOString t)))).
Proof.
  intros Hwin Hv Hc Hscans Hold Hu Hts Ht Hf Hsoon. unfold postScan.
  rewrite (validateScanRequest_passes u campaign Hv Hc). cbn [text_of body_uid body_campaign_id].
  unfold antiFraudCheck. cbn [bind stable perform].
  rewrite getLastScanTime_eq, (enter_no_faults st Hf). cbn [fst snd].
  split; [reflexivity|].
  assert (Hnew : newest_timestamp (filter (fun x => String.eqb (uid x) u) (scans st))
                 = Some (JsDate.toISOString t)).
  { rewrite Hscans, filter_app.
    rewrite (filter_none _ _ old)
      by (intros x Hx; apply String.eqb_neq; now apply Hold).
    simpl. rewrite Hu, String.eqb_refl. unfold newest_timestamp. simpl. now rewrite Hts. }
  rewrite Hnew.
  fold (in_cooldown antifraud rd (Some (JsDate.toISOString t))).
  rewrite in_cooldown_stamped by exact Ht.
  pose proof (diff_minutes_within _ _ _ Hwin Hsoon) as Hd.
  apply Z.ltb_lt in Hd. rewrite Hd. reflexivity.
Qed.

(** *** Answers under any schedule *)

Lemma never_cooldown_turn (t : task outcome) (st : Store) :
  never_cooldown t -> never_cooldown (fst (turn t st)).
Proof.
  intros [o Ho | R c k Hk]; simpl; [now constructor|].
  destruct (perform c st) as [got st']. apply Hk.
Qed.

Lemma interleave_never_cooldown (s : list who) : forall f : flight outcome,
  never_cooldown (first f) -> never_cooldown (second f) ->
  never_cooldown (first (interleave s f)) /\ never_cooldown (second (interleave s f)).
Proof.
  induction s as [|w s IH]; intros f H1 H2; [now split|].
  rewrite interleave_cons. apply IH; destruct w; unfold advance.
  - pose proof (never_cooldown_turn (first f) (shared f) H1).
    now destruct (turn (first f) (shared f)).
  - now destruct (turn (second f) (shared f)).
  - now destruct (turn (first f) (shared f)).
  - pose proof (never_cooldown_turn (second f) (shared f) H2).
    now destruct (turn (second f) (shared f)).
Qed.

Lemma interleave_finishes (A : Type) (s : list who) : forall (f : flight A) (n1 n2 : nat),
  within n1 (first f) -> within n2 (second f) ->
  (n1 <= turns_of First s)%nat -> (n2 <= turns_of Second s)%nat ->
  (exists a, first (interleave s f) = Done a) /\ (exists a, second (interleave s f) = Done a).
Proof.
  induction s as [|w s IH]; intros f n1 n2 H1 H2 L1 L2.
  - assert (n1 = 0%nat) by (unfold turns_of in L1; simpl in L1; lia).
    assert (n2 = 0%nat) by (unfold turns_of in L2; simpl in L2; lia). subst.
    apply within_inv in H1. apply within_inv in H2. simpl.
    destruct (first f); [|contradiction]. destruct (second f); [|contradiction]. eauto.
  - rewrite interleave_cons. destruct w; unfold advance.
    + rewrite turns_of_cons_same in L1. rewrite (turns_of_cons_other Second) in L2.
      destruct n1 as [|n1].
      * apply within_inv in H1. destruct (first f) as [a|] eqn:E; [|contradiction].
        cbn [turn]. apply (IH _ 0%nat n2); cbn [first second]; try assumption; [constructor | lia].
      * pose proof (turn_within A n1 (first f) (shared f) H1) as H1'.
        destruct (turn (first f) (shared f)) as [t' st'].
        apply (IH _ n1 n2); cbn [first second]; try assumption. lia.
    + rewrite turns_of_cons_same in L2. rewrite (turns_of_cons_other First) in L1.
      destruct n2 as [|n2].
      * apply within_inv in H2. destruct (second f) as [a|] eqn:E; [|contradiction].
        cbn [turn]. apply (IH _ n1 0%nat); cbn [first second]; try assumption; [constructor | lia].
      * pose proof (turn_within A n2 (second f) (shared f) H2) as H2'.
        destruct (turn (second f) (shared f)) as [t' st'].
        apply (IH _ n1 n2); cbn [first second]; try assumption. lia.
Qed.

(** *** Before either request appends *)

Lemma reads_first_done (A : Type) (n : nat) (a : A) : reads_first n (Done a).
Proof. destruct n; exact I. Qed.

Lemma reads_first_le (A : Type) (m : nat) : forall (n : nat) (t : task A),
  (m <= n)%nat -> reads_first n t -> reads_first m t.
Proof.
  induction m as [|m IH]; intros n t L H; [exact I|].
  destruct n as [|n]; [lia|]. destruct t as [a|R c k]; [exact I|].
  cbn [reads_first] in *. destruct H as [Hc Hk]. split; [exact Hc|].
  intros got. apply (IH n); [lia | apply Hk].
Qed.

(** While both requests are still reading, on a store without faults, the
    store stays as it is and each request advances on its own. *)
Lemma interleave_quiet_prefix (A : Type) (p : list who) : forall f : flight A,
  faults (shared f) = [] ->
  reads_first (turns_of First p) (first f) ->
  reads_first (turns_of Second p) (second f) ->
  shared (interleave p f) = shared f /\
  first (interleave p f) = fst (turns (turns_of First p) (first f) (shared f)) /\
  second (interleave p f) = fst (turns (turns_of Second p) (second f) (shared f)).
Proof.
  induction p as [|w p IH]; intros f Hf H1 H2; [now repeat split|].
  rewrite interleave_cons. destruct w; unfold advance.
  - rewrite turns_of_cons_same in *. rewrite (turns_of_cons_other Second) in *.
    cbn [turns]. destruct (first f) as [a|R c k] eqn:E1.
    + cbn [turn].
      destruct (IH (mk_flight (Done a) (second f) (shared f))) as (I1 & I2 & I3);
        cbn [first second shared]; try assumption; [apply reads_first_done|].
      cbn [first second shared] in *. now repeat split.
    + cbn [reads_first] in H1. destruct H1 as [Hc Hk].
      pose proof (perform_read_quiet R c (shared f) Hc Hf) as Hq.
      cbn [turn]. destruct (perform c (shared f)) as [got st']. cbn [snd] in Hq. subst st'.
      destruct (IH (mk_flight (k got) (second f) (shared f))) as (I1 & I2 & I3);
        cbn [first second shared]; try assumption; [apply Hk|].
      cbn [first second shared] in *. now repeat split.
  - rewrite turns_of_cons_same in *. rewrite (turns_of_cons_other First) in *.
    cbn [turns]. destruct (second f) as [a|R c k] eqn:E2.
    + cbn [turn].
      destruct (IH (mk_flight (first f) (Done a) (shared f))) as (I1 & I2 & I3);
        cbn [first second shared]; try assumption; [apply reads_first_done|].
      cbn [first second shared] in *. now repeat split.
    + cbn [reads_first] in H2. destruct H2 as [Hc Hk].
      pose proof (perform_read_quiet R c (shared f) Hc Hf) as Hq.
      cbn [turn]. destruct (perform c (shared f)) as [got st']. cbn [snd] in Hq. subst st'.
      destruct (IH (mk_flight (first f) (k got) (shared f))) as (I1 & I2 & I3);
        cbn [first second shared]; try assumption; [apply Hk|].
      cbn [first second shared] in *. now repeat split.
Qed.

Lemma turns_never_cooldown (n : nat) : forall (t : task outcome) (st : Store),
  never_cooldown t -> never_cooldown (fst (turns n t st)).
Proof.
  induction n as [|n IH]; intros t st H; [exact H|]. simpl.
  pose proof (never_cooldown_turn t st H) as H'.
  destruct (turn t st) as [t' st']. now apply IH.
Qed.

Lemma never_cooldown_inv (t : task outcome) :
  never_cooldown t ->
  match t with Done o => ~ cooldown_rejection o | Await _ _ => True end.
Proof. intros [o Ho | R c k Hk]; [exact Ho | exact I]. Qed.

End AnyFlight.

Section TwoRequests.
Import Database Async Pipeline.
Local Open Scope list_scope.

Variables (antifraud : Config.antifraud) (secret u campaign : string) (st : Store).
Hypothesis Hwindow : (0 < Config.cooldownMinutes antifraud)%Z.
Hypothesis Hlimit : (0 < Config.dailyScanLimit antifraud)%Z.
Hypothesis Hvalid : Utils.isValidUID u = true.
Hypothesis Hcampaign : campaign <> EmptyString.
Hypothesis Hfresh : forall r, In r (scans st) -> uid r <> u.
Hypothesis Hfaults : faults st = [].

Let request (rd : Readings) : task outcome :=
  postScan antifraud secret rd (mk_body (Some u) (Some campaign)).

(** The first request appends before the second reads. *)
Lemma first_appends_before_second_reads (rdA rdB : Readings) (s : list who) :
  firstn 3 s = repeat First 3 ->
  (5 <= turns_of First s)%nat -> (1 <= turns_of Second s)%nat ->
  ~ In (Cooldown.generateScanId (at_scan_id rdA) (random_hex rdA)) (map scan_id (scans st)) ->
  JsDate.four_digit_year (at_admission rdA) ->
  (at_cooldown rdB - at_admission rdA
   < Config.cooldownMinutes antifraud * JsDate.msPerMinute)%Z ->
  let done := interleave s (mk_flight (request rdA) (request rdB) st) in
  admitted (finished (first done)) = true /\
  finished (second done)
    = Some (Answered (COOLDOWN_ACTIVE (Config.cooldownMinutes antifraud)
                        (Some (JsDate.toISOString (at_admission rdA))))) /\
  exists row,
    scans (shared done) = scans st ++ [row] /\
    uid row = u /\ timestamp row = JsDate.toISOString (at_admission rdA).
Proof.
  intros Hs L1 L2 Hid Hclock Hsoon done. subst done.
  rewrite <- (firstn_skipn 3 s) in L1, L2 |- *. rewrite Hs in *.
  set (rest := skipn 3 s) in *. clearbody rest.
  rewrite turns_of_app in L1, L2.
  change (turns_of First (repeat First 3)) with 3%nat in L1.
  change (turns_of Second (repeat First 3)) with 0%nat in L2.
  rewrite interleave_app, interleave_repeat_first.
  destruct (postScan_admits_fresh antifraud secret rdA u campaign st
              Hlimit Hvalid Hcampaign Hfresh Hid Hfaults)
    as (record & n & m & st' & Hrun & Hu & Hts & Hscans & Hf').
  fold (request rdA) in Hrun.
  pose proof (turns_run _ 3 (request rdA) st) as Hkeep. rewrite Hrun in Hkeep.
  pose proof (turns_reads_after _ 3 (request rdA) st
                (postScan_reads_after antifraud secret rdA _)) as Hreads.
  pose proof (turns_within _ 3 2 (request rdA) st
                (postScan_within antifraud secret rdA _)) as Hwithin.
  pose proof (turns_no_faults _ 3 (request rdA) st Hfaults) as Hf3.
  destruct (turns 3 (request rdA) st) as [t3 st3]. cbn [fst snd] in *.
  destruct (reads_stable _ t3 Hreads 2 st3 Hwithin Hf3) as [Hstable Hsame].
  rewrite Hkeep in Hstable, Hsame. cbn [fst snd] in Hstable, Hsame. subst st3.
  pose proof (postScan_cooldown_stable antifraud secret rdB u campaign st' (scans st)
                (row_of (last_id st + 1) record) (at_admission rdA)
                Hwindow Hvalid Hcampaign Hscans Hfresh Hu Hts Hclock Hf' Hsoon) as Hcool.
  fold (request rdB) in Hcool.
  rewrite (interleave_stable _ rest t3 (request rdB) 2 1 _ _ st' Hstable Hcool)
    by lia.
  cbn [first second shared finished admitted].
  split; [reflexivity|]. split; [reflexivity|].
  exists (row_of (last_id st + 1) record). now repeat split.
Qed.

(** Both requests read before either appends. *)
Lemma both_read_before_appends (rd1 rd2 : Readings) (s : list who) :
  reads_precede_appends s -> served_to_the_end s ->
  let done := interleave s (mk_flight (request rd1) (request rd2) st) in
  (exists o, finished (first done) = Some o /\ ~ cooldown_rejection o) /\
  (exists o, finished (second done) = Some o /\ ~ cooldown_rejection o).
Proof.
  intros [In1 In2] [E1 E2] done.
  destruct (interleave_finishes _ s (mk_flight (request rd1) (request rd2) st) 5 5
              (postScan_within antifraud secret rd1 _)
              (postScan_within antifraud secret rd2 _) E1 E2) as [[o1 D1] [o2 D2]].
  fold done in D1, D2.
  assert (Hnever : never_cooldown (first done) /\ never_cooldown (second done)).
  { subst done. rewrite <- (firstn_skipn 3 s), interleave_app.
    set (p := firstn 3 s) in *.
    pose proof (turns_of_in First p In1) as A1.
    pose proof (turns_of_in Second p In2) as A2.
    pose proof (turns_of_sum p) as Hsum.
    assert (Hlen : (List.length p <= 3)%nat) by (subst p; apply firstn_le_length).
    destruct (interleave_quiet_prefix _ p (mk_flight (request rd1) (request rd2) st))
      as (Hst & H1 & H2); cbn [first second shared].
    - exact Hfaults.
    - apply (reads_first_le _ _ 2); [lia | apply postScan_reads_first].
    - apply (reads_first_le _ _ 2); [lia | apply postScan_reads_first].
    - cbn [first second shared] in *.
      apply interleave_never_cooldown.
      + rewrite H1. destruct (turns_of First p) as [|a]; [lia|]. cbn [turns].
        pose proof (postScan_first_turn_fresh antifraud secret rd1 u campaign st
                      Hvalid Hcampaign Hfresh Hfaults) as N.
        fold (request rd1) in N.
        destruct (turn (request rd1) st) as [t' st'']. now apply turns_never_cooldown.
      + rewrite H2. destruct (turns_of Second p) as [|b]; [lia|]. cbn [turns].
        pose proof (postScan_first_turn_fresh antifraud secret rd2 u campaign st
                      Hvalid Hcampaign Hfresh Hfaults) as N.
        fold (request rd2) in N.
        destruct (turn (request rd2) st) as [t' st'']. now apply turns_never_cooldown. }
  destruct Hnever as [N1 N2]. rewrite D1 in N1 |- *. rewrite D2 in N2 |- *.
  apply never_cooldown_inv in N1. apply never_cooldown_inv in N2.
  split; eexists; split; try reflexivity; assumption.
Qed.

End TwoRequests.

Lemma schedule_cases (s : list Async.who) :
  served_to_the_end s ->
  append_precedes_read Async.First s \/ append_precedes_read Async.Second s \/
  reads_precede_appends s.
Proof.
  intros [E1 E2]. pose proof (turns_of_sum s) as Hsum.
  unfold append_precedes_read, reads_precede_appends.
  destruct s as [|w1 [|w2 [|w3 s]]]; simpl in Hsum; try lia.
  cbn [firstn repeat]. destruct w1, w2, w3; simpl; tauto.
Qed.


